(** * Sales ETL pipeline: transform, aggregate, load, validate

    A shallow embedding of the Python sources

    - [src/etl/transform.py]    ([DataTransformer]),
    - [src/etl/load.py]         ([DataLoader]),
    - [src/etl_pipeline.py]     ([run_etl_pipeline]),
    - [dags/sales_etl_dag.py]   ([transform_data], [load_data], [validate_data]),
    - [src/config/database.py]  ([DatabaseConfig], [get_database_config]),

    the properties the specification states about them, and further
    properties of the code.

    Conventions of the embedding:
    - a Python [float] is an IEEE-754 binary64 number, here Rocq's primitive
      [float]; the aggregation code is written over an interface [Arith] of
      the arithmetic it uses, so that what holds for every arithmetic is
      separated from what is particular to binary64;
    - a Python [int] is a [Z]; an int that is too large for a float, or has
      too many digits to be written as text, raises where Python raises;
    - a Python [str] is a [string] of characters below 128 (ASCII text),
      on which the [str] methods and the parsers of numbers and dates are
      modelled after CPython; the methods [strip], [title] and [lower] are
      not modelled on other characters, and the properties that depend on
      them are stated for ASCII text;
    - a Python exception is a value of [exn], and code that can raise returns
      a [result];
    - a [dict] that is iterated is an association list in insertion order, a
      [dict] that is only looked up is a [gmap], a [set] is a [gset]. *)

From Stdlib Require Import ZArith List String Ascii Bool Lia Floats DecimalString.
From Stdlib Require Import Permutation Sorted.
From Stdlib Require DecimalZ DecimalPos.
From stdpp Require Import gmap strings.

Set Warnings "-inexact-float".
Local Open Scope string_scope.
Local Open Scope list_scope.
Local Open Scope Z_scope.

(** ** Exceptions and results *)

Inductive exn : Type :=
| ValueError (msg : string)
| TypeError (msg : string)
| OverflowError (msg : string)
| ZeroDivisionError (msg : string)
| DatabaseError (msg : string).

Inductive result (A : Type) : Type :=
| Ok (a : A)
| Raise (e : exn).
Arguments Ok {A} a.
Arguments Raise {A} e.

Definition bind {A B : Type} (m : result A) (k : A -> result B) : result B :=
  match m with
  | Ok a => k a
  | Raise e => Raise e
  end.

Notation "x <- m ;; k" := (bind m (fun x => k))
  (at level 100, m at next level, right associativity).

Fixpoint mapM {A B : Type} (f : A -> result B) (l : list A) : result (list B) :=
  match l with
  | [] => Ok []
  | x :: l' => y <- f x ;; ys <- mapM f l' ;; Ok (y :: ys)
  end.

Definition raises {A : Type} (m : result A) : bool :=
  match m with Ok _ => false | Raise _ => true end.

(** ** Arithmetic of Python floats

    The operations the pipeline applies to floats, and to a float and an
    int.  [of_int] is the conversion Python applies to the int operand of a
    mixed operation and [int_truediv] is [/] on two ints, both rounded to the
    nearest float.  An int beyond the double range (magnitude from about
    1.8e308) has no float: where the rounded value [overflows], Python
    raises [OverflowError], as [float_of_int] and [int_div_int] do below. *)

Class Arith (F : Type) : Type := {
  fzero : F;
  fadd : F -> F -> F;
  fmul : F -> F -> F;
  fdiv : F -> F -> F;
  fltb : F -> F -> bool;
  fleb : F -> F -> bool;
  of_int : Z -> F;
  int_truediv : Z -> Z -> F;
  overflows : F -> bool
}.

Definition Z2SF (z : Z) : spec_float :=
  match z with
  | Z0 => S754_zero false
  | Zpos p => S754_finite false p 0
  | Zneg p => S754_finite true p 0
  end.

(** binary64: round to nearest, ties to even, as CPython does for
    [float(n)] and for [n / m] on ints; a value that rounds to an infinity
    is out of range. *)
#[export] Instance binary64 : Arith float := {
  fzero := 0%float;
  fadd := PrimFloat.add;
  fmul := PrimFloat.mul;
  fdiv := PrimFloat.div;
  fltb := PrimFloat.ltb;
  fleb := PrimFloat.leb;
  of_int z := SF2Prim (binary_normalize prec emax z 0 false);
  int_truediv a b := SF2Prim (SFdiv prec emax (Z2SF a) (Z2SF b));
  overflows := PrimFloat.is_infinity
}.

(** [float(n)] for an int [n], which is also how the int operand of
    [x * n] and [x / n] is converted. *)
Definition float_of_int {F} `{Arith F} (n : Z) : result F :=
  let x := of_int n in
  if overflows x then Raise (OverflowError "int too large to convert to float")
  else Ok x.

(** [x * n] for a float [x] and an int [n]. *)
Definition float_mul_int {F} `{Arith F} (x : F) (n : Z) : result F :=
  y <- float_of_int n ;; Ok (fmul x y).

(** [x / n] for a float [x] and an int [n]: the int is converted, then the
    divisor is checked. *)
Definition float_div_int {F} `{Arith F} (x : F) (n : Z) : result F :=
  y <- float_of_int n ;;
  if n =? 0 then Raise (ZeroDivisionError "float division by zero")
  else Ok (fdiv x y).

(** [a / b] for two ints: the quotient is rounded once, and is an error
    when it is beyond the double range. *)
Definition int_div_int {F} `{Arith F} (a b : Z) : result F :=
  if b =? 0 then Raise (ZeroDivisionError "division by zero")
  else
    let q := int_truediv a b in
    if overflows q
    then Raise (OverflowError "integer division result too large for a float")
    else Ok q.

(** A number that is an int or a float: the averages are [0] (an int) or a
    quotient (a float). *)
Inductive pynum (F : Type) : Type :=
| NumInt (z : Z)
| NumFloat (x : F).
Arguments NumInt {F} z.
Arguments NumFloat {F} x.

(** ** Records

    The record the cleaner builds, with the four fields the enricher adds;
    a derived field is [None] before enrichment and where the enricher
    stores [None]. *)

Record sales_record (F : Type) : Type := {
  product_name : string;
  sales_amount : F;
  sale_date : string;
  region : string;
  customer_id : string;
  quantity : Z;
  total_value : option F;
  sale_month : option string;
  sale_year : option Z;
  sale_quarter : option string
}.
Arguments product_name {F} _.
Arguments sales_amount {F} _.
Arguments sale_date {F} _.
Arguments region {F} _.
Arguments customer_id {F} _.
Arguments quantity {F} _.
Arguments total_value {F} _.
Arguments sale_month {F} _.
Arguments sale_year {F} _.
Arguments sale_quarter {F} _.

(** ** Insertion-ordered dictionaries *)

Section PyDict.
Context {V : Type}.

Definition pydict : Type := list (string * V).

Fixpoint dict_get (k : string) (d : pydict) : option V :=
  match d with
  | [] => None
  | (k', v) :: d' => if String.eqb k k' then Some v else dict_get k d'
  end.

Definition dict_mem (k : string) (d : pydict) : bool :=
  match dict_get k d with Some _ => true | None => false end.

(** [d[k] = v]: a new key goes last, a present key keeps its place. *)
Fixpoint dict_set (k : string) (v : V) (d : pydict) : pydict :=
  match d with
  | [] => [(k, v)]
  | (k', v') :: d' =>
      if String.eqb k k' then (k, v) :: d' else (k', v') :: dict_set k v d'
  end.

(** In-place update of the value stored under [k]. *)
Fixpoint dict_update (k : string) (f : V -> V) (d : pydict) : pydict :=
  match d with
  | [] => []
  | (k', v) :: d' =>
      if String.eqb k k' then (k', f v) :: d' else (k', v) :: dict_update k f d'
  end.

Definition dict_keys (d : pydict) : list string := List.map fst d.
Definition dict_values (d : pydict) : list V := List.map snd d.
End PyDict.
Arguments pydict V : clear implicits.

(** ** [list.sort(key=..., reverse=True)]

    Python's sort is stable and compares keys with [<] only; with
    [reverse=True] elements with equal keys still keep their original
    order.  The model is the stable insertion sort: an element moves to the
    right only past elements whose key is strictly greater.  Every stable
    sort returns this list when [<] orders the keys totally, that is, for
    floats, when no key is NaN. *)

Section Sort.
Context {A K : Type} (key : A -> K) (lt : K -> K -> bool).

Fixpoint insert_desc (x : A) (s : list A) : list A :=
  match s with
  | [] => [x]
  | y :: s' => if lt (key x) (key y) then y :: insert_desc x s' else x :: s
  end.

Definition sort_reverse (l : list A) : list A := fold_right insert_desc [] l.
End Sort.

(** ** Aggregation ([DataTransformer.aggregate_sales_by_region],
       [DataTransformer.aggregate_sales_by_product]) *)

Record region_totals (F : Type) : Type := {
  rt_region : string;
  rt_total_sales : Z;
  rt_total_revenue : F;
  rt_total_quantity : Z;
  rt_product_count : Z
}.
Arguments rt_region {F} _.
Arguments rt_total_sales {F} _.
Arguments rt_total_revenue {F} _.
Arguments rt_total_quantity {F} _.
Arguments rt_product_count {F} _.

Record region_aggregate (F : Type) : Type := {
  rg_region : string;
  rg_total_sales : Z;
  rg_total_revenue : F;
  rg_total_quantity : Z;
  rg_product_count : Z;
  rg_avg_sale_amount : pynum F;
  rg_avg_quantity : pynum F
}.
Arguments rg_region {F} _.
Arguments rg_total_sales {F} _.
Arguments rg_total_revenue {F} _.
Arguments rg_total_quantity {F} _.
Arguments rg_product_count {F} _.
Arguments rg_avg_sale_amount {F} _.
Arguments rg_avg_quantity {F} _.

Record product_totals (F : Type) : Type := {
  pt_product_name : string;
  pt_total_sales : Z;
  pt_total_revenue : F;
  pt_total_quantity : Z;
  pt_regions : gset string
}.
Arguments pt_product_name {F} _.
Arguments pt_total_sales {F} _.
Arguments pt_total_revenue {F} _.
Arguments pt_total_quantity {F} _.
Arguments pt_regions {F} _.

Record product_aggregate (F : Type) : Type := {
  pd_product_name : string;
  pd_total_sales : Z;
  pd_total_revenue : F;
  pd_total_quantity : Z;
  pd_region_count : Z;
  pd_avg_sale_amount : pynum F;
  pd_avg_quantity : pynum F
}.
Arguments pd_product_name {F} _.
Arguments pd_total_sales {F} _.
Arguments pd_total_revenue {F} _.
Arguments pd_total_quantity {F} _.
Arguments pd_region_count {F} _.
Arguments pd_avg_sale_amount {F} _.
Arguments pd_avg_quantity {F} _.

Section Aggregation.
Context {F : Type} {AF : Arith F}.

(** [total / n if n > 0 else 0], for a float total and for an int total. *)
Definition avg_float (total : F) (n : Z) : result (pynum F) :=
  if 0 <? n then (y <- float_div_int total n ;; Ok (NumFloat y))
  else Ok (NumInt 0).

Definition avg_int (total : Z) (n : Z) : result (pynum F) :=
  if 0 <? n then (y <- int_div_int total n ;; Ok (NumFloat y))
  else Ok (NumInt 0).

(** *** By region *)

Definition region_init (k : string) : region_totals F :=
  {| rt_region := k; rt_total_sales := 0; rt_total_revenue := fzero;
     rt_total_quantity := 0; rt_product_count := 0 |}.

Definition region_add (record : sales_record F) (a : region_totals F)
  : region_totals F :=
  {| rt_region := rt_region a;
     rt_total_sales := rt_total_sales a + 1;
     rt_total_revenue := fadd (rt_total_revenue a) (sales_amount record);
     rt_total_quantity := rt_total_quantity a + quantity record;
     rt_product_count := rt_product_count a + 1 |}.

(** One turn of the first loop. *)
Definition region_step (region_aggregates : pydict (region_totals F))
    (record : sales_record F) : pydict (region_totals F) :=
  let k := region record in
  let d := if dict_mem k region_aggregates then region_aggregates
           else dict_set k (region_init k) region_aggregates in
  dict_update k (region_add record) d.

(** One turn of the second loop. *)
Definition region_averages (region_data : region_totals F)
  : result (region_aggregate F) :=
  avg_sale_amount <-
    avg_float (rt_total_revenue region_data) (rt_total_sales region_data) ;;
  avg_quantity <-
    avg_int (rt_total_quantity region_data) (rt_total_sales region_data) ;;
  Ok {| rg_region := rt_region region_data;
        rg_total_sales := rt_total_sales region_data;
        rg_total_revenue := rt_total_revenue region_data;
        rg_total_quantity := rt_total_quantity region_data;
        rg_product_count := rt_product_count region_data;
        rg_avg_sale_amount := avg_sale_amount;
        rg_avg_quantity := avg_quantity |}.

Definition aggregate_sales_by_region (data : list (sales_record F))
  : result (list (region_aggregate F)) :=
  let region_aggregates := fold_left region_step data [] in
  mapM region_averages (dict_values region_aggregates).

(** *** By product *)

Definition product_init (k : string) : product_totals F :=
  {| pt_product_name := k; pt_total_sales := 0; pt_total_revenue := fzero;
     pt_total_quantity := 0; pt_regions := ∅ |}.

Definition product_add (record : sales_record F) (a : product_totals F)
  : product_totals F :=
  {| pt_product_name := pt_product_name a;
     pt_total_sales := pt_total_sales a + 1;
     pt_total_revenue := fadd (pt_total_revenue a) (sales_amount record);
     pt_total_quantity := pt_total_quantity a + quantity record;
     pt_regions := pt_regions a ∪ {[ region record ]} |}.

Definition product_step (product_aggregates : pydict (product_totals F))
    (record : sales_record F) : pydict (product_totals F) :=
  let k := product_name record in
  let d := if dict_mem k product_aggregates then product_aggregates
           else dict_set k (product_init k) product_aggregates in
  dict_update k (product_add record) d.

Definition product_averages (product_data : product_totals F)
  : result (product_aggregate F) :=
  let region_count := Z.of_nat (size (pt_regions product_data)) in
  avg_sale_amount <-
    avg_float (pt_total_revenue product_data) (pt_total_sales product_data) ;;
  avg_quantity <-
    avg_int (pt_total_quantity product_data) (pt_total_sales product_data) ;;
  Ok {| pd_product_name := pt_product_name product_data;
        pd_total_sales := pt_total_sales product_data;
        pd_total_revenue := pt_total_revenue product_data;
        pd_total_quantity := pt_total_quantity product_data;
        pd_region_count := region_count;
        pd_avg_sale_amount := avg_sale_amount;
        pd_avg_quantity := avg_quantity |}.

Definition aggregate_sales_by_product (data : list (sales_record F))
  : result (list (product_aggregate F)) :=
  let product_aggregates := fold_left product_step data [] in
  result_rows <- mapM product_averages (dict_values product_aggregates) ;;
  Ok (sort_reverse pd_total_revenue fltb result_rows).
End Aggregation.

Definition mk_sale {F : Type} (p : string) (a : F) (d r c : string) (q : Z)
  : sales_record F :=
  {| product_name := p; sales_amount := a; sale_date := d; region := r;
     customer_id := c; quantity := q; total_value := None;
     sale_month := None; sale_year := None; sale_quarter := None |}.

(** ** Python text

    The [str] methods and the conversions between text and numbers that the
    cleaner calls, on ASCII text. *)

Definition code (c : ascii) : Z := Z.of_N (N_of_ascii c).

Definition is_digit (c : ascii) : bool := (48 <=? code c) && (code c <=? 57).
Definition digit_val (c : ascii) : Z := code c - 48.
Definition is_upper (c : ascii) : bool := (65 <=? code c) && (code c <=? 90).
Definition is_lower (c : ascii) : bool := (97 <=? code c) && (code c <=? 122).
Definition to_upper (c : ascii) : ascii :=
  if is_lower c then ascii_of_N (Z.to_N (code c - 32)) else c.
Definition to_lower (c : ascii) : ascii :=
  if is_upper c then ascii_of_N (Z.to_N (code c + 32)) else c.

(** [str.isspace] of one character: tab, line feed, vertical tab, form feed,
    carriage return, the four separators 28..31 and the space. *)
Definition is_space (c : ascii) : bool :=
  ((9 <=? code c) && (code c <=? 13)) || ((28 <=? code c) && (code c <=? 32)).

(** The white space that [int()] and [float()] skip around a number in
    ASCII text: the same without the four separators. *)
Definition is_blank (c : ascii) : bool :=
  ((9 <=? code c) && (code c <=? 13)) || (code c =? 32).

Fixpoint lstrip (space : ascii -> bool) (s : list ascii) : list ascii :=
  match s with
  | c :: s' => if space c then lstrip space s' else s
  | [] => []
  end.

Definition strip_chars (space : ascii -> bool) (s : list ascii) : list ascii :=
  rev (lstrip space (rev (lstrip space s))).

(** [s.strip()] *)
Definition str_strip (s : string) : string :=
  string_of_list_ascii (strip_chars is_space (list_ascii_of_string s)).

(** [s.title()]: a letter that follows a letter is lowered, a letter that
    follows anything else is raised. *)
Fixpoint title_chars (previous_is_cased : bool) (s : list ascii) : list ascii :=
  match s with
  | [] => []
  | c :: s' =>
      if is_lower c then
        (if previous_is_cased then c else to_upper c) :: title_chars true s'
      else if is_upper c then
        (if previous_is_cased then to_lower c else c) :: title_chars true s'
      else c :: title_chars false s'
  end.

Definition str_title (s : string) : string :=
  string_of_list_ascii (title_chars false (list_ascii_of_string s)).

(** The decimal text of an int. *)
Definition str_of_int (n : Z) : string := NilZero.string_of_int (Z.to_int n).

(** The number of decimal digits of an int that is not negative. *)
Definition ndigits (n : Z) : Z := Z.of_nat (String.length (str_of_int n)).

(** The interpreter's limit on the number of digits of an int that is
    written as decimal text or read from it
    ([sys.get_int_max_str_digits()], which is 4300 unless configured). *)
Definition int_max_str_digits : Z := 4300.

Definition digit_limit_error : exn :=
  ValueError "Exceeds the limit (4300 digits) for integer string conversion".

(** [str(n)] for an int, which is also how an f-string writes it. *)
Definition int_str (n : Z) : result string :=
  if int_max_str_digits <? ndigits (Z.abs n) then Raise digit_limit_error
  else Ok (str_of_int n).

(** Digits with single underscores between them ([digit ("_"? digit)*]):
    the digits read, most significant first. *)
Fixpoint digitpart (s : list ascii) : list Z * list ascii :=
  match s with
  | c :: s' =>
      if is_digit c then
        match s' with
        | u :: ((d :: _) as s'') =>
            if (code u =? 95) && is_digit d then
              let '(ds, r) := digitpart s'' in (digit_val c :: ds, r)
            else
              let '(ds, r) := digitpart s' in (digit_val c :: ds, r)
        | _ => let '(ds, r) := digitpart s' in (digit_val c :: ds, r)
        end
      else ([], s)
  | [] => ([], [])
  end.

Definition digits_value (ds : list Z) : Z :=
  fold_left (fun acc d => 10 * acc + d) ds 0.

(** An optional sign: [true] for [-]. *)
Definition sign_of (s : list ascii) : bool * list ascii :=
  match s with
  | c :: s' =>
      if code c =? 45 then (true, s')
      else if code c =? 43 then (false, s')
      else (false, s)
  | [] => (false, [])
  end.

Definition invalid_literal : exn :=
  ValueError "invalid literal for int() with base 10".

(** [int(s)] for a string, in base 10.  The digits are scanned first, and a
    misplaced underscore is an error of the scan; then the number of digits
    is checked against the limit; then nothing may follow the digits. *)
Definition int_of_string (s : string) : result Z :=
  let '(neg, body) := sign_of (strip_chars is_blank (list_ascii_of_string s)) in
  match digitpart body with
  | ((_ :: _) as ds, rest) =>
      let misplaced_underscore :=
        match rest with
        | c :: _ => code c =? 95
        | [] => false
        end in
      if misplaced_underscore then Raise invalid_literal
      else if int_max_str_digits <? Z.of_nat (length ds) then Raise digit_limit_error
      else
        match rest with
        | [] => Ok (if neg then - digits_value ds else digits_value ds)
        | _ :: _ => Raise invalid_literal
        end
  | _ => Raise invalid_literal
  end.

(** The float nearest to [m * 10 ^ e], ties to even. *)
Definition float_of_decimal (neg : bool) (m e : Z) : float :=
  let sm := if neg then - m else m in
  if m =? 0 then (if neg then neg_zero else zero)
  else if 0 <=? e then SF2Prim (binary_normalize prec emax (sm * 10 ^ e) 0 false)
  else SF2Prim (SFdiv prec emax (Z2SF sm) (Z2SF (10 ^ (- e)))).

Definition lower_string (s : list ascii) : string :=
  string_of_list_ascii (List.map to_lower s).

(** The exponent of a float literal, [0] when there is none. *)
Definition exponent_of (s : list ascii) : option (Z * list ascii) :=
  match s with
  | c :: s' =>
      if (code c =? 101) || (code c =? 69) then
        let '(neg, body) := sign_of s' in
        match digitpart body with
        | ((_ :: _) as ds, r) =>
            Some ((if neg then - digits_value ds else digits_value ds), r)
        | _ => None
        end
      else Some (0, s)
  | [] => Some (0, [])
  end.

(** [float(s)] for a string: [inf], [infinity] and [nan] in any case, or a
    decimal literal with an optional fraction and exponent. *)
Definition float_of_string (s : string) : result float :=
  let '(neg, body) := sign_of (strip_chars is_blank (list_ascii_of_string s)) in
  let word := lower_string body in
  if String.eqb word "inf" || String.eqb word "infinity" then
    Ok (if neg then neg_infinity else infinity)
  else if String.eqb word "nan" then Ok nan
  else
    let '(ip, r1) := digitpart body in
    let '(fp, r2) :=
      match r1 with
      | c :: r => if code c =? 46 then digitpart r else ([], r1)
      | [] => ([], [])
      end in
    match ip, fp with
    | [], [] => Raise (ValueError "could not convert string to float")
    | _, _ =>
        match exponent_of r2 with
        | Some (e, []) =>
            Ok (float_of_decimal neg (digits_value (ip ++ fp))
                  (e - Z.of_nat (length fp)))
        | _ => Raise (ValueError "could not convert string to float")
        end
    end.

(** [repr(x)] of a float, which is also [str(x)]: the shortest decimal
    string that reads back as [x], in positional notation when the decimal
    point falls within the digits or near them, with an exponent otherwise. *)

(** [x * 10 ^ (- e)] rounded down, for [x = mx * 2 ^ ex]. *)
Definition scaled_floor (mx : positive) (ex e : Z) : Z :=
  let num := Zpos mx * (if 0 <=? ex then 2 ^ ex else 1) * (if 0 <=? e then 1 else 10 ^ (- e)) in
  let den := (if 0 <=? ex then 1 else 2 ^ (- ex)) * (if 0 <=? e then 10 ^ e else 1) in
  num / den.

(** Whether [d * 10 ^ e] is to be preferred to [(d + 1) * 10 ^ e] as the
    decimal of [x = mx * 2 ^ ex]: it is nearer to [x], or as near and even. *)
Definition lower_is_nearer (mx : positive) (ex d e : Z) : bool :=
  let num := 2 * Zpos mx * (if 0 <=? ex then 2 ^ ex else 1) * (if 0 <=? e then 1 else 10 ^ (- e)) in
  let den := (if 0 <=? ex then 1 else 2 ^ (- ex)) * (if 0 <=? e then 10 ^ e else 1) in
  match num ?= (2 * d + 1) * den with
  | Lt => true
  | Eq => Z.even d
  | Gt => false
  end.

Definition reads_back (x : float) (d e : Z) : bool :=
  PrimFloat.eqb (float_of_decimal false d e) x.

(** The digits of the shortest decimal that reads back, with the power of
    ten of its last digit; [ks] lists the lengths to try. *)
Fixpoint shortest_decimal (x : float) (mx : positive) (ex p : Z) (ks : list Z)
  : Z * Z :=
  match ks with
  | [] => (scaled_floor mx ex (p - 17), p - 17)
  | k :: ks' =>
      let e := p - k in
      let lo := scaled_floor mx ex e in
      let hi := lo + 1 in
      match reads_back x lo e, reads_back x hi e with
      | true, true => if lower_is_nearer mx ex lo e then (lo, e) else (hi, e)
      | true, false => (lo, e)
      | false, true => (hi, e)
      | false, false => shortest_decimal x mx ex p ks'
      end
  end.

Fixpoint strip_zeros (fuel : nat) (d : Z) : Z :=
  match fuel with
  | O => d
  | S fuel' => if (d mod 10 =? 0) && negb (d =? 0) then strip_zeros fuel' (d / 10) else d
  end.

Definition zeros (n : Z) : string :=
  string_of_list_ascii (repeat "0"%char (Z.to_nat n)).

Definition two_digits (n : Z) : string :=
  if n <? 10 then "0" +:+ str_of_int n else str_of_int n.

(** The text of the positive decimal [0.ds * 10 ^ decpt]. *)
Definition format_repr (ds : string) (decpt : Z) : string :=
  let n := Z.of_nat (String.length ds) in
  if (16 <? decpt) || (decpt <? -3) then
    let mant :=
      if n =? 1 then ds
      else substring 0 1 ds +:+ "." +:+ substring 1 (String.length ds - 1) ds in
    let e := decpt - 1 in
    mant +:+ "e" +:+ (if e <? 0 then "-" else "+") +:+ two_digits (Z.abs e)
  else if decpt <=? 0 then "0." +:+ zeros (- decpt) +:+ ds
  else if n <=? decpt then ds +:+ zeros (decpt - n) +:+ ".0"
  else substring 0 (Z.to_nat decpt) ds +:+ "."
       +:+ substring (Z.to_nat decpt) (String.length ds - Z.to_nat decpt) ds.

Definition float_repr (x : float) : string :=
  match Prim2SF x with
  | S754_nan => "nan"
  | S754_infinity s => if s then "-inf" else "inf"
  | S754_zero s => if s then "-0.0" else "0.0"
  | S754_finite s mx ex =>
      let p := ndigits (scaled_floor mx ex (-400)) - 400 in
      let '(d, e) :=
        shortest_decimal (PrimFloat.abs x) mx ex p
          [1; 2; 3; 4; 5; 6; 7; 8; 9; 10; 11; 12; 13; 14; 15; 16; 17] in
      let decpt := ndigits d + e in
      (if s then "-" else "") +:+ format_repr (str_of_int (strip_zeros 17 d)) decpt
  end.

(** ** Python values

    The values a raw record can hold: [None], a bool, an int, a float or a
    string; with [float(v)], [int(v)] and [str(v)]. *)

Inductive pyval : Type :=
| VNone
| VBool (b : bool)
| VInt (n : Z)
| VFloat (x : float)
| VStr (s : string).

Definition py_str (v : pyval) : result string :=
  match v with
  | VNone => Ok "None"
  | VBool b => Ok (if b then "True" else "False")
  | VInt n => int_str n
  | VFloat x => Ok (float_repr x)
  | VStr s => Ok s
  end.

Definition py_float (v : pyval) : result float :=
  match v with
  | VNone => Raise (TypeError "float() argument must be a string or a real number")
  | VBool b => Ok (if b then 1%float else 0%float)
  | VInt n => float_of_int n
  | VFloat x => Ok x
  | VStr s => float_of_string s
  end.

(** The integer part of a float, rounding toward zero. *)
Definition trunc_float (x : float) : result Z :=
  match Prim2SF x with
  | S754_nan => Raise (ValueError "cannot convert float NaN to integer")
  | S754_infinity _ => Raise (OverflowError "cannot convert float infinity to integer")
  | S754_zero _ => Ok 0
  | S754_finite s m e =>
      let a := if 0 <=? e then Zpos m * 2 ^ e else Zpos m / 2 ^ (- e) in
      Ok (if s then - a else a)
  end.

Definition py_int (v : pyval) : result Z :=
  match v with
  | VNone => Raise (TypeError "int() argument must be a string or a real number")
  | VBool b => Ok (if b then 1 else 0)
  | VInt n => Ok n
  | VFloat x => trunc_float x
  | VStr s => int_of_string s
  end.

(** ** Dates ([datetime.strptime(s, '%Y-%m-%d')], [strftime('%Y-%m')]) *)

Record date : Type := { year : Z; month : Z; day : Z }.

Definition is_leap (y : Z) : bool :=
  (y mod 4 =? 0) && (negb (y mod 100 =? 0) || (y mod 400 =? 0)).

Definition days_in_month (y m : Z) : Z :=
  if m =? 2 then (if is_leap y then 29 else 28)
  else if (m =? 4) || (m =? 6) || (m =? 9) || (m =? 11) then 30
  else 31.

(** [%Y]: four digits. *)
Definition parse_year (s : list ascii) : option (Z * list ascii) :=
  match s with
  | a :: b :: c :: d :: r =>
      if is_digit a && is_digit b && is_digit c && is_digit d then
        Some (digits_value [digit_val a; digit_val b; digit_val c; digit_val d], r)
      else None
  | _ => None
  end.

Definition is_digit_in (lo hi : Z) (c : ascii) : bool :=
  is_digit c && (lo <=? digit_val c) && (digit_val c <=? hi).

(** [%m]: the alternatives [1[0-2]], [0[1-9]], [[1-9]], tried in this order. *)
Definition parse_month (s : list ascii) : option (Z * list ascii) :=
  match s with
  | a :: r =>
      match r with
      | b :: r' =>
          if is_digit_in 1 1 a && is_digit_in 0 2 b then Some (10 + digit_val b, r')
          else if is_digit_in 0 0 a && is_digit_in 1 9 b then Some (digit_val b, r')
          else if is_digit_in 1 9 a then Some (digit_val a, r)
          else None
      | [] => if is_digit_in 1 9 a then Some (digit_val a, r) else None
      end
  | [] => None
  end.

(** [%d]: the alternatives [3[01]], [[12]\d], [0[1-9]], [[1-9]] and a space
    followed by [[1-9]], tried in this order. *)
Definition parse_day (s : list ascii) : option (Z * list ascii) :=
  match s with
  | a :: r =>
      match r with
      | b :: r' =>
          if is_digit_in 3 3 a && is_digit_in 0 1 b then Some (30 + digit_val b, r')
          else if is_digit_in 1 2 a && is_digit b then
            Some (10 * digit_val a + digit_val b, r')
          else if is_digit_in 0 0 a && is_digit_in 1 9 b then Some (digit_val b, r')
          else if is_digit_in 1 9 a then Some (digit_val a, r)
          else if (code a =? 32) && is_digit_in 1 9 b then Some (digit_val b, r')
          else None
      | [] => if is_digit_in 1 9 a then Some (digit_val a, r) else None
      end
  | [] => None
  end.

Definition expect_dash (s : list ascii) : option (list ascii) :=
  match s with
  | c :: r => if code c =? 45 then Some r else None
  | [] => None
  end.

Definition match_format (s : list ascii) : option (Z * Z * Z * list ascii) :=
  match parse_year s with
  | Some (y, r1) =>
      match expect_dash r1 with
      | Some r2 =>
          match parse_month r2 with
          | Some (m, r3) =>
              match expect_dash r3 with
              | Some r4 =>
                  match parse_day r4 with
                  | Some (d, r5) => Some (y, m, d, r5)
                  | None => None
                  end
              | None => None
              end
          | None => None
          end
      | None => None
      end
  | None => None
  end.

(** [datetime.strptime(s, '%Y-%m-%d')]; the time of day is midnight and is
    left out. *)
Definition strptime (s : string) : result date :=
  match match_format (list_ascii_of_string s) with
  | None => Raise (ValueError "time data does not match format '%Y-%m-%d'")
  | Some (y, m, d, rest) =>
      match rest with
      | _ :: _ => Raise (ValueError "unconverted data remains")
      | [] =>
          if y <? 1 then Raise (ValueError "year 0 is out of range")
          else if days_in_month y m <? d then
            Raise (ValueError "day is out of range for month")
          else Ok {| year := y; month := m; day := d |}
      end
  end.

Definition pad_left (width : nat) (s : string) : string :=
  string_of_list_ascii (repeat "0"%char (width - String.length s)) +:+ s.

(** [strftime] hands the format to the C library, and the libraries differ
    on [%Y] for the years before 1000: glibc writes the year as it is
    ([999]), others pad it with zeros to four digits ([0999]).  From the year
    1000 on they agree.  [pads_year] says which library runs. *)
Class Strftime : Type := { pads_year : bool }.

Definition glibc : Strftime := {| pads_year := false |}.
Definition padding_libc : Strftime := {| pads_year := true |}.

Definition strftime_Y {libc : Strftime} (y : Z) : string :=
  if pads_year then pad_left 4 (str_of_int y) else str_of_int y.

(** [d.strftime('%Y-%m')] *)
Definition strftime_Y_m {libc : Strftime} (d : date) : string :=
  strftime_Y (year d) +:+ "-" +:+ pad_left 2 (str_of_int (month d)).

(** ** The cleaner ([DataTransformer.clean_sales_data]) *)

Definition raw_record : Type := gmap string pyval.

(** The body of the [try] for one record: [Ok None] is [continue] after
    counting the record invalid. *)
Definition clean_body (record : raw_record) : result (option (sales_record float)) :=
  match record !! "product_name", record !! "sales_amount", record !! "sale_date" with
  | Some name, Some amount, Some date =>
      name_text <- py_str name ;;
      let product_name := str_title (str_strip name_text) in
      sales_amount <- py_float amount ;;
      region_text <- py_str (default (VStr "Unknown") (record !! "region")) ;;
      let region := str_title (str_strip region_text) in
      customer_text <- py_str (default (VStr "") (record !! "customer_id")) ;;
      let customer_id := str_strip customer_text in
      quantity <- py_int (default (VInt 1) (record !! "quantity")) ;;
      if fleb sales_amount 0%float then Ok None
      else
        let quantity := if quantity <=? 0 then 1 else quantity in
        match date with
        | VStr sale_date =>
            match strptime sale_date with
            | Raise (ValueError _) => Ok None
            | Raise e => Raise e
            | Ok _ =>
                Ok (Some {| product_name := product_name;
                            sales_amount := sales_amount;
                            sale_date := sale_date;
                            region := region;
                            customer_id := customer_id;
                            quantity := quantity;
                            total_value := None; sale_month := None;
                            sale_year := None; sale_quarter := None |})
            end
        | _ => Raise (TypeError "strptime() argument 1 must be str")
        end
  | _, _, _ => Ok None
  end.

(** The [try] with its [except (ValueError, TypeError)]. *)
Definition clean_record (record : raw_record) : result (option (sales_record float)) :=
  match clean_body record with
  | Raise (ValueError _) | Raise (TypeError _) => Ok None
  | r => r
  end.

(** The loop, on the pair [(cleaned_data, invalid_records)]. *)
Fixpoint clean_loop (data : list raw_record)
    (cleaned_data : list (sales_record float)) (invalid_records : Z)
  : result (list (sales_record float) * Z) :=
  match data with
  | [] => Ok (cleaned_data, invalid_records)
  | record :: rest =>
      o <- clean_record record ;;
      match o with
      | Some cleaned_record =>
          clean_loop rest (cleaned_data ++ [cleaned_record]) invalid_records
      | None => clean_loop rest cleaned_data (invalid_records + 1)
      end
  end.

Definition clean_sales_data (data : list raw_record)
  : result (list (sales_record float)) :=
  st <- clean_loop data [] 0 ;; Ok (fst st).

(** ** The enricher ([DataTransformer.add_calculated_fields]) *)

Section Enrichment.
Context {F : Type} {AF : Arith F} {libc : Strftime}.

Definition add_fields (record : sales_record F) : result (sales_record F) :=
  total <- float_mul_int (sales_amount record) (quantity record) ;;
  match strptime (sale_date record) with
  | Ok d =>
      Ok {| product_name := product_name record;
            sales_amount := sales_amount record;
            sale_date := sale_date record;
            region := region record;
            customer_id := customer_id record;
            quantity := quantity record;
            total_value := Some total;
            sale_month := Some (strftime_Y_m d);
            sale_year := Some (year d);
            sale_quarter := Some ("Q" +:+ str_of_int ((month d - 1) / 3 + 1)) |}
  | Raise (ValueError _) =>
      Ok {| product_name := product_name record;
            sales_amount := sales_amount record;
            sale_date := sale_date record;
            region := region record;
            customer_id := customer_id record;
            quantity := quantity record;
            total_value := Some total;
            sale_month := None; sale_year := None; sale_quarter := None |}
  | Raise e => Raise e
  end.

Definition add_calculated_fields (data : list (sales_record F))
  : result (list (sales_record F)) :=
  mapM add_fields data.
End Enrichment.

(** ** Storage

    The three tables [create_tables] declares.  A table is the list of its
    rows, each with the [id] the table's sequence gave it, and the next value
    of that sequence.  The constraints are the declared ones: [id] is the
    primary key of each table, [region] is unique in [region_aggregates],
    [product_name] is unique in [product_aggregates], and [sales_data] has no
    other unique column.  A row stores the values the statement was given:
    column types (lengths, decimal precision) and the two timestamp columns
    are outside the model.  Every statement is committed on its own, as
    [execute_command] does. *)

Record table (R : Type) : Type := { rows : list (Z * R); next_id : Z }.
Arguments rows {R} _.
Arguments next_id {R} _.

Record database (F : Type) : Type := {
  sales_data : option (table (sales_record F));
  region_aggregates : option (table (region_aggregate F));
  product_aggregates : option (table (product_aggregate F))
}.
Arguments sales_data {F} _.
Arguments region_aggregates {F} _.
Arguments product_aggregates {F} _.

Definition empty_table {R : Type} : table R := {| rows := []; next_id := 1 |}.

(** [CREATE TABLE IF NOT EXISTS] *)
Definition create_if_absent {R : Type} (t : option (table R)) : option (table R) :=
  match t with
  | Some _ => t
  | None => Some empty_table
  end.

(** Whether a new row with this [id] and these values breaks the primary
    key, or the unique column when the table has one. *)
Definition violates {R : Type} (unique : option (R -> string)) (id : Z) (v : R)
    (t : table R) : bool :=
  existsb (fun row =>
             (fst row =? id)
             || match unique with
                | Some col => String.eqb (col (snd row)) (col v)
                | None => false
                end) (rows t).

(** [INSERT INTO t ... VALUES v], with or without [ON CONFLICT DO NOTHING]:
    the sequence advances, then the row is stored unless it breaks a
    constraint, which is an error without the clause and a skip with it.  The
    result is the number of rows affected. *)
Definition insert_row {R : Type} (unique : option (R -> string))
    (on_conflict_do_nothing : bool) (v : R) (t : table R) : result Z * table R :=
  let id := next_id t in
  let advanced := {| rows := rows t; next_id := id + 1 |} in
  if violates unique id v t then
    (if on_conflict_do_nothing then Ok 0
     else Raise (DatabaseError "duplicate key value violates unique constraint"),
     advanced)
  else (Ok 1, {| rows := rows t ++ [(id, v)]; next_id := id + 1 |}).

(** [DELETE FROM t] *)
Definition delete_all {R : Type} (t : table R) : result Z * table R :=
  (Ok (Z.of_nat (length (rows t))), {| rows := []; next_id := next_id t |}).

Definition missing {A : Type} (name : string) : result A :=
  Raise (DatabaseError ("relation does not exist: " +:+ name)).

(** ** The loader ([DataLoader]) *)

Section Loader.
Context {F : Type} {AF : Arith F}.

Definition create_tables (db : database F) : result unit * database F :=
  (Ok tt,
   {| sales_data := create_if_absent (sales_data db);
      region_aggregates := create_if_absent (region_aggregates db);
      product_aggregates := create_if_absent (product_aggregates db) |}).

(** The parameters of the sales insert: [customer_id] and the four derived
    columns come from [record.get].  The default of [total_value],
    [sales_amount * quantity], is an argument of [get]: it is computed for
    every record, whether or not the record has a [total_value]. *)
Definition sales_params (record : sales_record F) : result (sales_record F) :=
  fallback <- float_mul_int (sales_amount record) (quantity record) ;;
  Ok {| product_name := product_name record;
        sales_amount := sales_amount record;
        sale_date := sale_date record;
        region := region record;
        customer_id := customer_id record;
        quantity := quantity record;
        total_value := Some (default fallback (total_value record));
        sale_month := sale_month record;
        sale_year := sale_year record;
        sale_quarter := sale_quarter record |}.

(** The parameters are built before the statement is sent. *)
Definition insert_sales (record : sales_record F) (db : database F)
  : result Z * database F :=
  match sales_params record with
  | Raise e => (Raise e, db)
  | Ok params =>
      match sales_data db with
      | None => (missing "sales_data", db)
      | Some t =>
          let '(r, t') := insert_row None true params t in
          (r, {| sales_data := Some t';
                 region_aggregates := region_aggregates db;
                 product_aggregates := product_aggregates db |})
      end
  end.

Definition insert_region (record : region_aggregate F) (db : database F)
  : result Z * database F :=
  match region_aggregates db with
  | None => (missing "region_aggregates", db)
  | Some t =>
      let '(r, t') := insert_row (Some rg_region) false record t in
      (r, {| sales_data := sales_data db;
             region_aggregates := Some t';
             product_aggregates := product_aggregates db |})
  end.

Definition insert_product (record : product_aggregate F) (db : database F)
  : result Z * database F :=
  match product_aggregates db with
  | None => (missing "product_aggregates", db)
  | Some t =>
      let '(r, t') := insert_row (Some pd_product_name) false record t in
      (r, {| sales_data := sales_data db;
             region_aggregates := region_aggregates db;
             product_aggregates := Some t' |})
  end.

Definition delete_regions (db : database F) : result Z * database F :=
  match region_aggregates db with
  | None => (missing "region_aggregates", db)
  | Some t =>
      let '(r, t') := delete_all t in
      (r, {| sales_data := sales_data db;
             region_aggregates := Some t';
             product_aggregates := product_aggregates db |})
  end.

Definition delete_products (db : database F) : result Z * database F :=
  match product_aggregates db with
  | None => (missing "product_aggregates", db)
  | Some t =>
      let '(r, t') := delete_all t in
      (r, {| sales_data := sales_data db;
             region_aggregates := region_aggregates db;
             product_aggregates := Some t' |})
  end.

(** The insert loop the three loads share: one statement per record,
    counting the records submitted; an error stops the loop and is raised
    again, what was stored before it stays. *)
Fixpoint load_loop {R : Type} (insert : R -> database F -> result Z * database F)
    (data : list R) (loaded_count : Z) (db : database F)
  : result Z * database F :=
  match data with
  | [] => (Ok loaded_count, db)
  | record :: rest =>
      match insert record db with
      | (Ok _, db') => load_loop insert rest (loaded_count + 1) db'
      | (Raise e, db') => (Raise e, db')
      end
  end.

Definition load_sales_data (data : list (sales_record F)) (db : database F)
  : result Z * database F :=
  load_loop insert_sales data 0 db.

Definition load_region_aggregates (data : list (region_aggregate F))
    (confirm_delete : bool) (db : database F) : result Z * database F :=
  if confirm_delete then
    match delete_regions db with
    | (Ok _, db') => load_loop insert_region data 0 db'
    | (Raise e, db') => (Raise e, db')
    end
  else load_loop insert_region data 0 db.

Definition load_product_aggregates (data : list (product_aggregate F))
    (confirm_delete : bool) (db : database F) : result Z * database F :=
  if confirm_delete then
    match delete_products db with
    | (Ok _, db') => load_loop insert_product data 0 db'
    | (Raise e, db') => (Raise e, db')
    end
  else (Raise (ValueError "Delete operation requires explicit confirmation."), db).

(** The number of rows of a table, [0] for a table that does not exist. *)
Definition row_count {R : Type} (t : option (table R)) : Z :=
  match t with
  | Some t => Z.of_nat (length (rows t))
  | None => 0
  end.
End Loader.

(** ** The validator ([validate_data])

    The summary is what [loader.get_data_summary()] returned: the row counts
    of the three tables and the revenue total as a float. *)

Record pipeline_summary : Type := {
  sales_records : Z;
  regions : Z;
  products : Z;
  total_revenue : float
}.

Definition validate_data (summary : pipeline_summary) : result string :=
  if sales_records summary =? 0 then
    Raise (ValueError "No sales records found in database")
  else if fleb (total_revenue summary) 0%float then
    Raise (ValueError "Total revenue should be positive")
  else if regions summary =? 0 then
    Raise (ValueError "No regional data found")
  else if products summary =? 0 then
    Raise (ValueError "No product data found")
  else Ok "Data validation successful".

(** ** The summary ([DataLoader.get_data_summary])

    Four queries, in this order: the row counts of [sales_data],
    [region_aggregates] and [product_aggregates], then
    [COALESCE(SUM(sales_amount), 0)] over [sales_data]; a query on a table
    that does not exist raises.  The sum is the database's, taken over the
    stored column: [stored_sum] stands for [float(SUM(sales_amount))] of a
    table with at least one row, and the properties hold whatever it is.
    [COALESCE] gives [0] for a table without rows, and a total that is zero
    is reported as [0.0]. *)

Section Summary.
Context {F : Type}.
Variable stored_sum : list F -> float.

Definition get_data_summary (db : database F) : result pipeline_summary :=
  match sales_data db with
  | None => missing "sales_data"
  | Some sales =>
      match region_aggregates db with
      | None => missing "region_aggregates"
      | Some by_region =>
          match product_aggregates db with
          | None => missing "product_aggregates"
          | Some by_product =>
              let total_revenue :=
                match rows sales with
                | [] => 0%float
                | _ => stored_sum (List.map (fun row => sales_amount (snd row))
                                            (rows sales))
                end in
              Ok {| sales_records := Z.of_nat (length (rows sales));
                    regions := Z.of_nat (length (rows by_region));
                    products := Z.of_nat (length (rows by_product));
                    total_revenue :=
                      if PrimFloat.eqb total_revenue 0%float then 0%float
                      else total_revenue |}
          end
      end
  end.
End Summary.

(** ** Steps on the storage

    A step of the pipeline takes the storage and returns a result and the
    storage it leaves; a step that raises ends the sequence, and what earlier
    steps stored stays, every statement being committed on its own. *)

Definition action (F A : Type) : Type := database F -> result A * database F.

Definition and_then {F A B : Type} (m : action F A) (k : A -> action F B)
  : action F B :=
  fun db =>
    match m db with
    | (Ok a, db') => k a db'
    | (Raise e, db') => (Raise e, db')
    end.

(** A computation that does not touch the storage, and a query. *)
Definition lift {F A : Type} (r : result A) : action F A := fun db => (r, db).
Definition query {F A : Type} (q : database F -> result A) : action F A :=
  fun db => (q db, db).

Notation "x <~ m ;; k" := (and_then m (fun x => k))
  (at level 100, m at next level, right associativity).

(** ** The pipeline ([run_etl_pipeline])

    The records come from the extractor, which draws the sample at random:
    here they are the argument [raw_data].  The loads are called as the
    source calls them, with the default [confirm_delete] of each:
    [False] for the regions and [True] for the products. *)

Section Pipeline.
Context {libc : Strftime}.
Variable stored_sum : list float -> float.

Definition run_etl_pipeline (raw_data : list raw_record)
  : action float pipeline_summary :=
  cleaned_data <~ lift (clean_sales_data raw_data) ;;
  enhanced_data <~ lift (add_calculated_fields cleaned_data) ;;
  region_aggregates <~ lift (aggregate_sales_by_region enhanced_data) ;;
  product_aggregates <~ lift (aggregate_sales_by_product enhanced_data) ;;
  _ <~ create_tables ;;
  sales_loaded <~ load_sales_data enhanced_data ;;
  region_loaded <~ load_region_aggregates region_aggregates false ;;
  product_loaded <~ load_product_aggregates product_aggregates true ;;
  summary <~ query (get_data_summary stored_sum) ;;
  lift (Ok summary).

(** ** The tasks of the DAG ([transform_data], [load_data], [validate_data])

    A task returns what the next task pulls: the value passes unchanged. *)

Record transformed : Type := {
  xcom_sales_data : list (sales_record float);
  xcom_region_aggregates : list (region_aggregate float);
  xcom_product_aggregates : list (product_aggregate float)
}.

Definition transform_data (raw_data : list raw_record) : result transformed :=
  cleaned_data <- clean_sales_data raw_data ;;
  enhanced_data <- add_calculated_fields cleaned_data ;;
  region_aggregates <- aggregate_sales_by_region enhanced_data ;;
  product_aggregates <- aggregate_sales_by_product enhanced_data ;;
  Ok {| xcom_sales_data := enhanced_data;
        xcom_region_aggregates := region_aggregates;
        xcom_product_aggregates := product_aggregates |}.

Definition load_data (transformed_data : transformed)
  : action float pipeline_summary :=
  _ <~ create_tables ;;
  sales_loaded <~ load_sales_data (xcom_sales_data transformed_data) ;;
  region_loaded <~
    load_region_aggregates (xcom_region_aggregates transformed_data) false ;;
  product_loaded <~
    load_product_aggregates (xcom_product_aggregates transformed_data) true ;;
  summary <~ query (get_data_summary stored_sum) ;;
  lift (Ok summary).

(** The task [validate_data]: the summary is read, then checked. *)
Definition validate_task : action float string :=
  summary <~ query (get_data_summary stored_sum) ;;
  lift (validate_data summary).
End Pipeline.

(** ** The date of a sample record ([sale_date.strftime("%Y-%m-%d")])

    The year is written with four digits, as every C library writes the
    years from 1000 on, the years of the sample among them. *)

Definition strftime_Y_m_d (d : date) : string :=
  pad_left 4 (str_of_int (year d)) +:+ "-" +:+ pad_left 2 (str_of_int (month d))
  +:+ "-" +:+ pad_left 2 (str_of_int (day d)).

(** ** Configuration ([DatabaseConfig], [get_database_config])

    The environment, after [load_dotenv()], is a map from names to text. *)

Record DatabaseConfig : Type := {
  host : string;
  port : Z;
  dbname : string;
  user : string;
  password : string
}.

Definition environment : Type := gmap string string.

(** [os.getenv(name, fallback)] *)
Definition getenv (env : environment) (name fallback : string) : string :=
  default fallback (env !! name).

Definition from_env (env : environment) : result DatabaseConfig :=
  let host := getenv env "SUPABASE_HOST" "" in
  port <- int_of_string (getenv env "SUPABASE_PORT" "5432") ;;
  Ok {| host := host;
        port := port;
        dbname := getenv env "SUPABASE_DBNAME" "postgres";
        user := getenv env "SUPABASE_USER" "postgres";
        password := getenv env "SUPABASE_PASSWORD" "" |}.

Definition connection_string (config : DatabaseConfig) : result string :=
  port_text <- int_str (port config) ;;
  Ok ("postgresql://" +:+ user config +:+ ":" +:+ password config +:+ "@"
      +:+ host config +:+ ":" +:+ port_text +:+ "/" +:+ dbname config).

(** The truth value of a string: whether it is not empty. *)
Definition truthy (s : string) : bool :=
  match s with EmptyString => false | String _ _ => true end.

Definition validate (config : DatabaseConfig) : bool :=
  forallb (fun field => truthy (str_strip field)) [host config; password config].

Definition get_database_config (env : environment) : result DatabaseConfig :=
  config <- from_env env ;;
  if negb (validate config) then
    Raise (ValueError
             ("Missing required database configuration. "
              +:+ "Please check your .env file and ensure SUPABASE_HOST "
              +:+ "and SUPABASE_PASSWORD are set."))
  else Ok config.

(** * Vocabulary of the properties

    The functions and predicates in which the properties below are stated:
    what the loops compute written as functions of the input, the order on
    floats, and the sample data of the examples. *)

(** ** Keys, groups and sums *)

(** The keys in the order of their first occurrence. *)
Definition add_key (ks : list string) (k : string) : list string :=
  if existsb (String.eqb k) ks then ks else ks ++ [k].

Definition first_seen (ks : list string) : list string :=
  fold_left add_key ks [].

(** One turn of the loop that both aggregations run: the entry of the
    record's key is created when the key is new, then updated. *)
Definition group_step {R V : Type} (key : R -> string) (init : string -> V)
    (add : R -> V -> V) (d : pydict V) (r : R) : pydict V :=
  let k := key r in
  dict_update k (add r) (if dict_mem k d then d else dict_set k (init k) d).

(** The records of a key, in input order. *)
Definition group {R : Type} (key : R -> string) (k : string) (l : list R) : list R :=
  List.filter (fun r => String.eqb (key r) k) l.

Definition accumulate {R V : Type} (add : R -> V -> V) (g : list R) (a : V) : V :=
  fold_left (fun a r => add r a) g a.

(** The sum of ints. *)
Definition zsum (xs : list Z) : Z := fold_right Z.add 0 xs.

(** The sum of floats, added from left to right starting from [0.0], which
    is how the aggregation loops add them. *)
Definition fsum {F : Type} `{Arith F} (xs : list F) : F := fold_left fadd xs fzero.

(** The row of a key in a list of rows. *)
Definition find_key {A : Type} (key : A -> string) (k : string) (l : list A)
  : option A :=
  List.find (fun a => String.eqb (key a) k) l.

(** ** Rows as functions of the records *)

Section Rows.
Context {F : Type} {AF : Arith F} {libc : Strftime}.

(** The average of a group, when it can be taken. *)
Definition mean_float (total : F) (n : Z) : pynum F :=
  if 0 <? n then NumFloat (fdiv total (of_int n)) else NumInt 0.

Definition mean_int (total n : Z) : pynum F :=
  if 0 <? n then NumFloat (int_truediv total n) else NumInt 0.

(** Whether the averages of a group of [n] records with this total quantity
    cannot be taken: the count is too large for a float, or the quotient of
    the two ints is. *)
Definition averages_overflow (total_quantity n : Z) : bool :=
  (0 <? n) && (overflows (of_int n) || overflows (int_truediv total_quantity n)).

(** The error Python raises then: that of the first average,
    [total_revenue / total_sales], when the count has no float, and
    otherwise that of the second, [total_quantity / total_sales]. *)
Definition averages_error (n : Z) : exn :=
  OverflowError
    (if overflows (of_int n) then "int too large to convert to float"
     else "integer division result too large for a float").

(** Whether the averages of the records of key [k] cannot be taken. *)
Definition group_overflows (key : sales_record F -> string) (k : string)
    (data : list (sales_record F)) : bool :=
  averages_overflow (zsum (List.map quantity (group key k data)))
    (Z.of_nat (length (group key k data))).

Definition region_row (a : region_totals F) : region_aggregate F :=
  {| rg_region := rt_region a;
     rg_total_sales := rt_total_sales a;
     rg_total_revenue := rt_total_revenue a;
     rg_total_quantity := rt_total_quantity a;
     rg_product_count := rt_product_count a;
     rg_avg_sale_amount := mean_float (rt_total_revenue a) (rt_total_sales a);
     rg_avg_quantity := mean_int (rt_total_quantity a) (rt_total_sales a) |}.

Definition product_row (a : product_totals F) : product_aggregate F :=
  {| pd_product_name := pt_product_name a;
     pd_total_sales := pt_total_sales a;
     pd_total_revenue := pt_total_revenue a;
     pd_total_quantity := pt_total_quantity a;
     pd_region_count := Z.of_nat (size (pt_regions a));
     pd_avg_sale_amount := mean_float (pt_total_revenue a) (pt_total_sales a);
     pd_avg_quantity := mean_int (pt_total_quantity a) (pt_total_sales a) |}.

(** The totals of a group of records. *)
Definition region_group_totals (k : string) (g : list (sales_record F))
  : region_totals F :=
  {| rt_region := k;
     rt_total_sales := Z.of_nat (length g);
     rt_total_revenue := fsum (List.map sales_amount g);
     rt_total_quantity := zsum (List.map quantity g);
     rt_product_count := Z.of_nat (length g) |}.

Definition product_group_totals (k : string) (g : list (sales_record F))
  : product_totals F :=
  {| pt_product_name := k;
     pt_total_sales := Z.of_nat (length g);
     pt_total_revenue := fsum (List.map sales_amount g);
     pt_total_quantity := zsum (List.map quantity g);
     pt_regions := list_to_set (List.map region g) |}.

Definition region_of_group (k : string) (g : list (sales_record F)) :=
  region_row (region_group_totals k g).

Definition product_of_group (k : string) (g : list (sales_record F)) :=
  product_row (product_group_totals k g).

(** The rows of the region aggregation, and the rows of the product
    aggregation before the sort. *)
Definition region_rows (data : list (sales_record F)) : list (region_aggregate F) :=
  List.map (fun k => region_row (region_group_totals k (group region k data)))
    (first_seen (List.map region data)).

Definition product_rows (data : list (sales_record F)) : list (product_aggregate F) :=
  List.map (fun k => product_row (product_group_totals k (group product_name k data)))
    (first_seen (List.map product_name data)).

(** What [add_fields] stores, when the product can be taken. *)
Definition enriched (record : sales_record F) : sales_record F :=
  let derived :=
    match strptime (sale_date record) with
    | Ok d => (Some (strftime_Y_m d), Some (year d),
               Some ("Q" +:+ str_of_int ((month d - 1) / 3 + 1)))
    | Raise _ => (None, None, None)
    end in
  {| product_name := product_name record;
     sales_amount := sales_amount record;
     sale_date := sale_date record;
     region := region record;
     customer_id := customer_id record;
     quantity := quantity record;
     total_value := Some (fmul (sales_amount record) (of_int (quantity record)));
     sale_month := fst (fst derived);
     sale_year := snd (fst derived);
     sale_quarter := snd derived |}.

(** The row of [sales_data] a record is stored as. *)
Definition sales_row (record : sales_record F) : sales_record F :=
  {| product_name := product_name record;
     sales_amount := sales_amount record;
     sale_date := sale_date record;
     region := region record;
     customer_id := customer_id record;
     quantity := quantity record;
     total_value :=
       Some (default (fmul (sales_amount record) (of_int (quantity record)))
               (total_value record));
     sale_month := sale_month record;
     sale_year := sale_year record;
     sale_quarter := sale_quarter record |}.

(** The storage with another [product_aggregates] table. *)
Definition with_products (db : database F) (t : table (product_aggregate F))
  : database F :=
  {| sales_data := sales_data db;
     region_aggregates := region_aggregates db;
     product_aggregates := Some t |}.
End Rows.

(** The part of a row that is computed on ints. *)
Definition region_counts {F : Type} (row : region_aggregate F)
  : string * Z * Z * Z * pynum F :=
  (rg_region row, rg_total_sales row, rg_total_quantity row,
   rg_product_count row, rg_avg_quantity row).

Definition product_counts {F : Type} (row : product_aggregate F)
  : string * Z * Z * Z * pynum F :=
  (pd_product_name row, pd_total_sales row, pd_total_quantity row,
   pd_region_count row, pd_avg_quantity row).

(** ** Order

    A list is descending when each element's key is below or equal to the
    keys of the elements before it. *)

Definition descending {A K : Type} (key : A -> K) (le : K -> K -> bool)
    (a b : A) : Prop :=
  le (key b) (key a) = true.

(** The comparisons of primitive floats are specified on [spec_float], where
    they compare sign, exponent and mantissa in this order.  A float that is
    not NaN has a rank in the lexicographic order of integer triples. *)
Definition SFrank (x : spec_float) : option (Z * Z * Z) :=
  match x with
  | S754_nan => None
  | S754_zero _ => Some (0, 0, 0)
  | S754_infinity s => Some (if s then -2 else 2, 0, 0)
  | S754_finite s m e => Some (if s then (-1, - e, Zneg m) else (1, e, Zpos m))
  end.

Definition lex3 (a b : Z * Z * Z) : comparison :=
  let '(a1, a2, a3) := a in
  let '(b1, b2, b3) := b in
  match a1 ?= b1 with
  | Eq => match a2 ?= b2 with Eq => a3 ?= b3 | c => c end
  | c => c
  end.

Definition lex3_lt (a b : Z * Z * Z) : Prop :=
  let '(a1, a2, a3) := a in
  let '(b1, b2, b3) := b in
  a1 < b1 \/ (a1 = b1 /\ (a2 < b2 \/ (a2 = b2 /\ a3 < b3))).

(** A float that is not NaN. *)
Definition comparable (x : float) : Prop := SFrank (Prim2SF x) <> None.

(** A float that is not NaN and not below zero. *)
Definition SFnonneg (x : spec_float) : Prop :=
  match x with
  | S754_zero _ | S754_infinity false | S754_finite false _ _ => True
  | _ => False
  end.

(** Records whose amount is positive, as the cleaner's check intends. *)
Definition positive_amounts (data : list (sales_record float)) : Prop :=
  Forall (fun r => (0 <? sales_amount r)%float = true) data.

(** ** Sums that do not round

    A finite binary64 number is an integer multiple of [2 ^ -1074]:
    [scaled x] is that integer.  A list of floats is added exactly when the
    floats and their float sum, taken from left to right, are finite and the
    float sum is the exact sum: no addition has rounded, or the roundings
    have cancelled. *)
Definition is_finite (x : float) : bool :=
  match Prim2SF x with
  | S754_zero _ | S754_finite _ _ _ => true
  | _ => false
  end.

Definition scaled (x : float) : Z :=
  match Prim2SF x with
  | S754_finite s m e => (if s then -1 else 1) * Zpos m * 2 ^ (e + 1074)
  | _ => 0
  end.

Definition added_exactly (xs : list float) : bool :=
  forallb is_finite xs && is_finite (fsum xs)
  && (scaled (fsum xs) =? zsum (List.map scaled xs)).

(** ** Text *)

(** A check of every integer of a range. *)
Definition all_below (n : nat) (P : Z -> bool) : bool :=
  forallb P (List.map Z.of_nat (seq 0 n)).

Definition digit_char (v : Z) : ascii := ascii_of_N (Z.to_N (48 + v)).

(** ** The cleaner *)

(** The records the loop keeps and the number it counts invalid, when no
    record makes it raise. *)
Definition kept_of (data : list raw_record) : list (sales_record float) :=
  flat_map (fun record =>
              match clean_record record with
              | Ok (Some cleaned) => [cleaned]
              | _ => []
              end) data.

Definition invalid_of (data : list raw_record) : Z :=
  zsum (List.map (fun record =>
                    match clean_record record with
                    | Ok None => 1
                    | _ => 0
                    end) data).

(** The errors a conversion raises. *)
Definition conversion_error (e : exn) : Prop :=
  match e with
  | ValueError _ | TypeError _ | OverflowError _ => True
  | _ => False
  end.

(** ** Sample data *)

Definition raw_of (fields : list (string * pyval)) : raw_record :=
  list_to_map fields.

(** A sale whose quantity is missing in the source ([None]), one whose
    quantity is not a number, and one whose quantity is negative. *)
Definition sale_without_quantity : raw_record :=
  raw_of [ ("product_name", VStr "Widget"); ("sales_amount", VFloat 19.99%float);
           ("sale_date", VStr "2024-03-17"); ("quantity", VNone) ].

Definition sale_with_text_quantity : raw_record :=
  raw_of [ ("product_name", VStr "Widget"); ("sales_amount", VFloat 19.99%float);
           ("sale_date", VStr "2024-03-17"); ("quantity", VStr "two") ].

Definition sale_with_negative_quantity : raw_record :=
  raw_of [ ("product_name", VStr "widget"); ("sales_amount", VStr "19.99");
           ("sale_date", VStr "2024-03-17"); ("quantity", VInt (-3)) ].

(** A sale whose amount is NaN, and one whose quantity is infinite. *)
Definition sale_with_nan_amount : raw_record :=
  raw_of [ ("product_name", VStr "Widget"); ("sales_amount", VFloat nan);
           ("sale_date", VStr "2024-03-17"); ("quantity", VInt 2) ].

Definition sale_with_infinite_quantity : raw_record :=
  raw_of [ ("product_name", VStr "Widget"); ("sales_amount", VFloat 19.99%float);
           ("sale_date", VStr "2024-03-17"); ("quantity", VFloat infinity) ].

(** Three sales of one region and two products, with amounts whose sums
    round, and with amounts whose sums do not. *)
Definition rounding_sales : list (sales_record float) :=
  [ mk_sale "Widget" 0.1%float "2024-01-05" "North" "C1" 1;
    mk_sale "Gadget" 0.2%float "2024-01-06" "North" "C2" 1;
    mk_sale "Widget" 0.4%float "2024-01-07" "North" "C3" 1 ].

Definition exact_sales : list (sales_record float) :=
  [ mk_sale "Widget" 19.5%float "2024-01-05" "North" "C1" 1;
    mk_sale "Gadget" 0.25%float "2024-01-06" "North" "C2" 1;
    mk_sale "Widget" 1024%float "2024-01-07" "North" "C3" 1 ].

(** A sale the cleaner keeps, whose quantity is an int beyond the double
    range, as a raw record and as the cleaned record. *)
Definition sale_with_huge_quantity : raw_record :=
  raw_of [ ("product_name", VStr "Widget"); ("sales_amount", VFloat 19.99%float);
           ("sale_date", VStr "2024-03-17"); ("region", VStr "North");
           ("customer_id", VStr "CUST_1001"); ("quantity", VInt (10 ^ 400)) ].

Definition huge_sale : sales_record float :=
  mk_sale "Widget" 19.99%float "2024-03-17" "North" "CUST_1001" (10 ^ 400).


(** Three sales of one product in one region, and the same sales in the
    opposite order. *)
Definition ordered_sales : list (sales_record float) :=
  [ mk_sale "Widget" 0.1%float "2024-01-05" "North" "C1" 1;
    mk_sale "Widget" 0.2%float "2024-01-06" "North" "C2" 2;
    mk_sale "Widget" 0.3%float "2024-01-07" "North" "C3" 3 ].

Definition reordered_sales : list (sales_record float) := List.rev ordered_sales.

(** The storage after [create_tables], and one sale. *)
Definition fresh_database : database float :=
  {| sales_data := Some empty_table;
     region_aggregates := Some empty_table;
     product_aggregates := Some empty_table |}.

Definition one_sale : sales_record float :=
  mk_sale "Widget" 19.99%float "2024-03-17" "North" "CUST_1001" 2.

(** ** Text of the cleaned fields *)

(** [str(v).strip().title()], as the cleaner writes names and regions. *)
Definition normalise (s : string) : string := str_title (str_strip s).

(** [s.lower()] *)
Definition str_lower (s : string) : string := lower_string (list_ascii_of_string s).

(** Text made of white space only. *)
Definition whitespace (s : string) : Prop :=
  Forall (fun c => is_space c = true) (list_ascii_of_string s).

(** What [title] writes for one character, given whether the character
    before it is a letter; and whether a character is a letter. *)
Definition cased (c : ascii) : bool := is_lower c || is_upper c.

Definition title_char (previous_is_cased : bool) (c : ascii) : ascii :=
  if cased c then (if previous_is_cased then to_lower c else to_upper c) else c.

(** The 256 characters. *)
Definition all_ascii : list ascii := List.map ascii_of_nat (seq 0 256).

(** ** Dates *)

(** A date of the calendar, in the years that are written with four digits. *)
Definition calendar_date (d : date) : Prop :=
  1 <= year d <= 9999 /\ 1 <= month d <= 12
  /\ 1 <= day d <= days_in_month (year d) (month d).

(** ** Cleaned records *)

(** A cleaned record read again as a raw record: the dictionary the cleaner
    built, with its six keys. *)
Definition as_raw (cleaned : sales_record float) : raw_record :=
  raw_of [ ("product_name", VStr (product_name cleaned));
           ("sales_amount", VFloat (sales_amount cleaned));
           ("sale_date", VStr (sale_date cleaned));
           ("region", VStr (region cleaned));
           ("customer_id", VStr (customer_id cleaned));
           ("quantity", VInt (quantity cleaned)) ].

(** The values the cleaner converts to text, with the defaults of
    [record.get]. *)
Definition region_value (record : raw_record) : pyval :=
  default (VStr "Unknown") (record !! "region").

Definition customer_value (record : raw_record) : pyval :=
  default (VStr "") (record !! "customer_id").

(** What the cleaner writes for a record it keeps. *)
Definition cleaned_from (record : raw_record) (cleaned : sales_record float) : Prop :=
  exists name amount text name_text region_text customer_text a q d,
    record !! "product_name" = Some name
    /\ record !! "sales_amount" = Some amount
    /\ record !! "sale_date" = Some (VStr text)
    /\ py_str name = Ok name_text
    /\ py_float amount = Ok a
    /\ py_str (region_value record) = Ok region_text
    /\ py_str (customer_value record) = Ok customer_text
    /\ py_int (default (VInt 1) (record !! "quantity")) = Ok q
    /\ (a <=? 0)%float = false
    /\ strptime text = Ok d
    /\ cleaned
       = {| product_name := normalise name_text;
            sales_amount := a;
            sale_date := text;
            region := normalise region_text;
            customer_id := str_strip customer_text;
            quantity := if q <=? 0 then 1 else q;
            total_value := None; sale_month := None; sale_year := None;
            sale_quarter := None |}.

(** A record on which a conversion of the cleaner overflows.  The
    conversions run in the order of the fields: the name is written, the
    amount converted, the region and the customer written, the quantity
    converted; the first that raises ends the record.  The record overflows
    when the name can be written and the amount is an int too large for a
    float, or when the amount converts, the region and the customer can be
    written, and the quantity is an infinite float. *)
Definition overflowing (record : raw_record) : Prop :=
  exists name amount date name_text,
    record !! "product_name" = Some name
    /\ record !! "sales_amount" = Some amount
    /\ record !! "sale_date" = Some date
    /\ py_str name = Ok name_text
    /\ ((exists n, amount = VInt n /\ is_infinity (of_int n) = true)
        \/ (exists a region_text customer_text x,
              py_float amount = Ok a
              /\ py_str (region_value record) = Ok region_text
              /\ py_str (customer_value record) = Ok customer_text
              /\ record !! "quantity" = Some (VFloat x)
              /\ is_infinity x = true)).

(** Text of characters below 128, and a value whose text, if it is a
    string, is such. *)
Definition ascii_text (s : string) : Prop :=
  Forall (fun c => code c < 128) (list_ascii_of_string s).

Definition ascii_value (v : pyval) : Prop :=
  match v with
  | VStr s => ascii_text s
  | _ => True
  end.

(** A raw record whose name, region and customer are ASCII text or are not
    strings. *)
Definition ascii_record (record : raw_record) : Prop :=
  forall k v, In k ["product_name"; "region"; "customer_id"] ->
    record !! k = Some v -> ascii_value v.

(** The same product written in capitals, with white space around the
    region and the customer, and written in small letters, without region,
    customer and quantity. *)
Definition sale_in_capitals : raw_record :=
  raw_of [ ("product_name", VStr "LAPTOP"); ("sales_amount", VFloat 1299.99%float);
           ("sale_date", VStr "2024-01-15"); ("region", VStr " north ");
           ("customer_id", VStr " CUST_1001 "); ("quantity", VInt 2) ].

Definition sale_in_small_letters : raw_record :=
  raw_of [ ("product_name", VStr "laptop"); ("sales_amount", VInt 1300);
           ("sale_date", VStr "2024-01-16"); ("region", VNone);
           ("customer_id", VNone) ].

(** ** Tables *)

(** A table whose ids all came from its sequence. *)
Definition sequenced {R : Type} (t : table R) : Prop :=
  Forall (fun row => fst row < next_id t) (rows t).

(** Values with the consecutive ids the sequence gives them. *)
Fixpoint numbered {R : Type} (id : Z) (vs : list R) : list (Z * R) :=
  match vs with
  | [] => []
  | v :: vs' => (id, v) :: numbered (id + 1) vs'
  end.

(** The table after the values were inserted, after its rows were deleted,
    and after an insert was refused. *)
Definition appended {R : Type} (t : table R) (vs : list R) : table R :=
  {| rows := rows t ++ numbered (next_id t) vs;
     next_id := next_id t + Z.of_nat (length vs) |}.

Definition emptied {R : Type} (t : table R) : table R :=
  {| rows := []; next_id := next_id t |}.

Definition refused {R : Type} (t : table R) : table R :=
  {| rows := rows t; next_id := next_id t + 1 |}.

(** The storage with another [sales_data] or [region_aggregates] table. *)
Definition with_sales {F : Type} (db : database F) (t : table (sales_record F))
  : database F :=
  {| sales_data := Some t;
     region_aggregates := region_aggregates db;
     product_aggregates := product_aggregates db |}.

Definition with_regions {F : Type} (db : database F) (t : table (region_aggregate F))
  : database F :=
  {| sales_data := sales_data db;
     region_aggregates := Some t;
     product_aggregates := product_aggregates db |}.

(** The values can be inserted one after the other without breaking the
    unique column, when the table has one. *)
Definition insertable {R : Type} (unique : option (R -> string)) (vs : list R)
    (t : table R) : Prop :=
  match unique with
  | None => True
  | Some col =>
      List.NoDup (List.map col vs)
      /\ forall row, In row (rows t) -> ~ In (col (snd row)) (List.map col vs)
  end.

Definition duplicate_key : exn :=
  DatabaseError "duplicate key value violates unique constraint".

(** The values a table holds, in the order of insertion; nothing for a table
    that does not exist. *)
Definition contents {R : Type} (t : option (table R)) : list R :=
  match t with
  | Some t => List.map snd (rows t)
  | None => []
  end.

(** A storage in which no table has a row: each table is absent or empty. *)
Definition without_rows {R : Type} (t : option (table R)) : Prop :=
  match t with
  | Some t => rows t = []
  | None => True
  end.

Definition pristine {F : Type} (db : database F) : Prop :=
  without_rows (sales_data db) /\ without_rows (region_aggregates db)
  /\ without_rows (product_aggregates db).

(** A storage without tables, and two region rows. *)
Definition no_tables : database float :=
  {| sales_data := None; region_aggregates := None; product_aggregates := None |}.

Definition north_row : region_aggregate float :=
  {| rg_region := "North"; rg_total_sales := 2; rg_total_revenue := 150%float;
     rg_total_quantity := 3; rg_product_count := 2;
     rg_avg_sale_amount := NumFloat 75%float; rg_avg_quantity := NumFloat 1.5%float |}.

Definition south_row : region_aggregate float :=
  {| rg_region := "South"; rg_total_sales := 1; rg_total_revenue := 20%float;
     rg_total_quantity := 1; rg_product_count := 1;
     rg_avg_sale_amount := NumFloat 20%float; rg_avg_quantity := NumFloat 1%float |}.

(** The storage after [create_tables]. *)
Definition created {F : Type} (db : database F) : database F := snd (create_tables db).

(** What the transform task hands to the load task for cleaned records. *)
Definition handed_over {libc : Strftime} (cleaned_data : list (sales_record float))
    (by_region : list (region_aggregate float))
    (by_product : list (product_aggregate float)) : transformed :=
  {| xcom_sales_data := List.map enriched cleaned_data;
     xcom_region_aggregates := by_region;
     xcom_product_aggregates := by_product |}.

(** A table that is absent, or whose ids came from its sequence. *)
Definition sequenced_if_present {R : Type} (t : option (table R)) : Prop :=
  match t with
  | Some t => sequenced t
  | None => True
  end.

(** A storage that takes the rows of a run on these regions: the ids of
    [sales_data] and [region_aggregates] came from their sequences, and no
    row of [region_aggregates] has one of the regions. *)
Definition accepts {F : Type} (db : database F) (regions : list string) : Prop :=
  sequenced_if_present (sales_data db)
  /\ sequenced_if_present (region_aggregates db)
  /\ forall row, In row (contents (region_aggregates db)) ->
       ~ In (rg_region row) regions.

(** ** Configuration *)

(** The environment in which the five variables hold the fields of a
    configuration, the port as its decimal text. *)
Definition env_of (config : DatabaseConfig) : environment :=
  list_to_map [ ("SUPABASE_HOST", host config);
                ("SUPABASE_PORT", str_of_int (port config));
                ("SUPABASE_DBNAME", dbname config);
                ("SUPABASE_USER", user config);
                ("SUPABASE_PASSWORD", password config) ].

(** The digits of a decimal number, most significant first. *)
Fixpoint uint_digits (d : Decimal.uint) : list Z :=
  match d with
  | Decimal.Nil => []
  | Decimal.D0 d' => 0 :: uint_digits d'
  | Decimal.D1 d' => 1 :: uint_digits d'
  | Decimal.D2 d' => 2 :: uint_digits d'
  | Decimal.D3 d' => 3 :: uint_digits d'
  | Decimal.D4 d' => 4 :: uint_digits d'
  | Decimal.D5 d' => 5 :: uint_digits d'
  | Decimal.D6 d' => 6 :: uint_digits d'
  | Decimal.D7 d' => 7 :: uint_digits d'
  | Decimal.D8 d' => 8 :: uint_digits d'
  | Decimal.D9 d' => 9 :: uint_digits d'
  end.

Definition sample_config : DatabaseConfig :=
  {| host := "db.example.supabase.co"; port := 6543; dbname := "postgres";
     user := "postgres"; password := "s3cret" |}.

(** * Properties *)

(** ** Results *)

Lemma mapM_total {A B : Type} (f : A -> result B) (g : A -> B) (l : list A) :
  (forall x, f x = Ok (g x)) -> mapM f l = Ok (List.map g l).
Proof.
  intros Hf. induction l as [|x l IH]; simpl.
  - reflexivity.
  - rewrite Hf, IH. reflexivity.
Qed.

Lemma mapM_map {A B C : Type} (f : B -> result C) (h : A -> B) (l : list A) :
  mapM f (List.map h l) = mapM (fun x => f (h x)) l.
Proof. induction l as [|x l IH]; simpl; [| rewrite IH]; reflexivity. Qed.

(** A loop whose turns raise on the elements that satisfy [bad] and return
    otherwise: it raises the error of the first bad element. *)
Lemma mapM_checked {A B : Type} (f : A -> result B) (bad : A -> bool)
    (err : A -> exn) (g : A -> B) (l : list A) :
  (forall x, f x = if bad x then Raise (err x) else Ok (g x)) ->
  mapM f l = match List.find bad l with
             | Some x => Raise (err x)
             | None => Ok (List.map g l)
             end.
Proof.
  intros Hf. induction l as [|x l IH]; simpl; [reflexivity |].
  rewrite Hf. destruct (bad x); [reflexivity |]. simpl. rewrite IH.
  destruct (List.find bad l); reflexivity.
Qed.

Lemma find_none_iff {A : Type} (bad : A -> bool) (l : list A) :
  List.find bad l = None <-> forall x, In x l -> bad x = false.
Proof.
  split; [apply List.find_none |].
  intros H. destruct (List.find bad l) as [x|] eqn:E; [| reflexivity].
  apply List.find_some in E as [Hin Hbad]. rewrite (H x Hin) in Hbad. discriminate.
Qed.

(** ** Dictionaries *)

Section PyDictFacts.
Context {V : Type}.
Implicit Types (d : pydict V) (k : string).

Lemma dict_mem_keys k d : dict_mem k d = existsb (String.eqb k) (dict_keys d).
Proof.
  unfold dict_mem. induction d as [|[k' v] d IH]; simpl.
  - reflexivity.
  - destruct (String.eqb k k'); simpl; [reflexivity | exact IH].
Qed.

Lemma dict_mem_In k d : dict_mem k d = true <-> In k (dict_keys d).
Proof.
  rewrite dict_mem_keys, existsb_exists. split.
  - intros [x [Hx He]]. apply String.eqb_eq in He. subst. exact Hx.
  - intros H. exists k. split; [exact H | apply String.eqb_refl].
Qed.

Lemma dict_get_set_eq k v d : dict_get k (dict_set k v d) = Some v.
Proof.
  induction d as [|[k' v'] d IH]; simpl.
  - rewrite String.eqb_refl. reflexivity.
  - destruct (String.eqb k k') eqn:E; simpl.
    + rewrite String.eqb_refl. reflexivity.
    + rewrite E. exact IH.
Qed.

Lemma dict_get_set_ne k k' v d :
  k <> k' -> dict_get k' (dict_set k v d) = dict_get k' d.
Proof.
  intros Hne. induction d as [|[k0 v0] d IH]; simpl.
  - destruct (String.eqb_spec k' k); [congruence | reflexivity].
  - destruct (String.eqb_spec k k0) as [->|Hk]; simpl.
    + destruct (String.eqb_spec k' k0); [congruence | reflexivity].
    + destruct (String.eqb k' k0); [reflexivity | exact IH].
Qed.

Lemma dict_get_update_eq k f d :
  dict_get k (dict_update k f d) = option_map f (dict_get k d).
Proof.
  induction d as [|[k' v'] d IH]; simpl.
  - reflexivity.
  - destruct (String.eqb k k') eqn:E; simpl; rewrite E; [reflexivity | exact IH].
Qed.

Lemma dict_get_update_ne k k' f d :
  k <> k' -> dict_get k' (dict_update k f d) = dict_get k' d.
Proof.
  intros Hne. induction d as [|[k0 v0] d IH]; simpl.
  - reflexivity.
  - destruct (String.eqb_spec k k0) as [->|Hk]; simpl.
    + destruct (String.eqb_spec k' k0); [congruence | reflexivity].
    + destruct (String.eqb k' k0); [reflexivity | exact IH].
Qed.

Lemma dict_keys_update k f d : dict_keys (dict_update k f d) = dict_keys d.
Proof.
  unfold dict_keys. induction d as [|[k' v'] d IH]; simpl.
  - reflexivity.
  - destruct (String.eqb k k'); simpl; [reflexivity | rewrite IH; reflexivity].
Qed.

Lemma dict_keys_set_new k v d :
  dict_mem k d = false -> dict_keys (dict_set k v d) = dict_keys d ++ [k].
Proof.
  unfold dict_mem, dict_keys. induction d as [|[k' v'] d IH]; simpl.
  - reflexivity.
  - destruct (String.eqb k k'); [discriminate |].
    intros H. simpl. rewrite IH by exact H. reflexivity.
Qed.

(** A dictionary is its keys, each with the value stored under it. *)
Lemma dict_values_by_key (get : string -> V) d :
  List.NoDup (dict_keys d) ->
  (forall k v, dict_get k d = Some v -> get k = v) ->
  dict_values d = List.map get (dict_keys d).
Proof.
  unfold dict_values, dict_keys.
  induction d as [|[k v] d IH]; simpl; intros Hnd Hget.
  - reflexivity.
  - apply List.NoDup_cons_iff in Hnd as [Hnotin Hnd']. f_equal.
    + symmetry. apply Hget. rewrite String.eqb_refl. reflexivity.
    + apply IH; [exact Hnd' |]. intros k0 v0 H0. apply Hget.
      destruct (String.eqb_spec k0 k) as [->|_]; [| exact H0].
      exfalso. apply Hnotin. apply dict_mem_In. unfold dict_mem.
      rewrite H0. reflexivity.
Qed.
End PyDictFacts.

(** ** Keys in the order of their first occurrence *)

Lemma add_key_NoDup ks k : List.NoDup ks -> List.NoDup (add_key ks k).
Proof.
  intros Hnd. unfold add_key. destruct (existsb (String.eqb k) ks) eqn:E.
  - exact Hnd.
  - apply (Permutation_NoDup (Permutation_cons_append ks k)).
    constructor; [| exact Hnd]. intros Hin.
    assert (existsb (String.eqb k) ks = true) as E'.
    { apply existsb_exists. exists k. split; [exact Hin | apply String.eqb_refl]. }
    congruence.
Qed.

Lemma add_key_In ks k x : In x (add_key ks k) <-> In x ks \/ x = k.
Proof.
  unfold add_key. destruct (existsb (String.eqb k) ks) eqn:E.
  - split; [auto |]. intros [H | ->]; [exact H |].
    apply existsb_exists in E as [y [Hy He]].
    apply String.eqb_eq in He. subst. exact Hy.
  - rewrite in_app_iff. simpl. intuition.
Qed.

Lemma fold_add_key_NoDup (l : list string) : forall ks,
  List.NoDup ks -> List.NoDup (fold_left add_key l ks).
Proof.
  induction l as [|k l IH]; intros ks Hnd; simpl.
  - exact Hnd.
  - apply IH, add_key_NoDup, Hnd.
Qed.

Lemma fold_add_key_In (l : list string) : forall ks x,
  In x (fold_left add_key l ks) <-> In x ks \/ In x l.
Proof.
  induction l as [|k l IH]; intros ks x; simpl.
  - intuition.
  - rewrite IH, add_key_In. intuition.
Qed.

Lemma first_seen_NoDup ks : List.NoDup (first_seen ks).
Proof. apply fold_add_key_NoDup. constructor. Qed.

Lemma first_seen_In ks x : In x (first_seen ks) <-> In x ks.
Proof. unfold first_seen. rewrite fold_add_key_In. simpl. intuition. Qed.

(** Read from the front: the first key, then the keys first seen in the
    rest, without the first key. *)
Lemma fold_add_key_cons (k : string) (ks : list string) : forall acc,
  fold_left add_key ks (k :: acc)
  = k :: fold_left add_key
           (List.filter (fun x => negb (String.eqb x k)) ks) acc.
Proof.
  induction ks as [|x ks IH]; intros acc; simpl.
  - reflexivity.
  - unfold add_key at 2. simpl.
    destruct (String.eqb_spec x k) as [->|Hne]; simpl.
    + apply IH.
    + rewrite <- IH. f_equal. unfold add_key.
      destruct (existsb (String.eqb x) acc); reflexivity.
Qed.

Lemma existsb_without (k x : string) (acc : list string) :
  x <> k ->
  existsb (String.eqb x) (List.filter (fun y => negb (String.eqb y k)) acc)
  = existsb (String.eqb x) acc.
Proof.
  intros Hne. induction acc as [|y acc IH]; simpl.
  - reflexivity.
  - destruct (String.eqb_spec y k) as [->|Hy]; simpl.
    + destruct (String.eqb_spec x k); [contradiction | exact IH].
    + rewrite IH. reflexivity.
Qed.

Lemma fold_add_key_without (k : string) (ks : list string) : forall acc,
  List.filter (fun x => negb (String.eqb x k)) (fold_left add_key ks acc)
  = fold_left add_key (List.filter (fun x => negb (String.eqb x k)) ks)
      (List.filter (fun x => negb (String.eqb x k)) acc).
Proof.
  induction ks as [|x ks IH]; intros acc; simpl.
  - reflexivity.
  - rewrite IH. destruct (String.eqb_spec x k) as [->|Hne]; simpl.
    + f_equal. unfold add_key.
      destruct (existsb (String.eqb k) acc); [reflexivity |].
      rewrite List.filter_app. simpl. rewrite String.eqb_refl. simpl.
      apply app_nil_r.
    + f_equal. unfold add_key. rewrite (existsb_without k x acc Hne).
      destruct (existsb (String.eqb x) acc); [reflexivity |].
      rewrite List.filter_app. simpl.
      destruct (String.eqb_spec x k); [contradiction | reflexivity].
Qed.

Lemma first_seen_cons (k : string) (ks : list string) :
  first_seen (k :: ks)
  = k :: List.filter (fun x => negb (String.eqb x k)) (first_seen ks).
Proof.
  unfold first_seen. simpl. change (add_key [] k) with [k].
  rewrite fold_add_key_cons, fold_add_key_without. reflexivity.
Qed.

(** ** Grouping

    Both aggregations run the same loop: the entry of the record's key is
    created when the key is new, then updated.  The dictionary after the loop
    holds, for each key in the order of its first record, the fold of the
    key's records in input order. *)

Section Grouping.
Context {R V : Type}.
Variable key : R -> string.
Variable init : string -> V.
Variable add : R -> V -> V.

Lemma group_step_get_eq d r :
  dict_get (key r) (group_step key init add d r)
  = Some (add r (default (init (key r)) (dict_get (key r) d))).
Proof.
  unfold group_step. cbv zeta. rewrite dict_get_update_eq.
  unfold dict_mem. destruct (dict_get (key r) d) as [a|] eqn:E.
  - rewrite E. reflexivity.
  - rewrite dict_get_set_eq. reflexivity.
Qed.

Lemma group_step_get_ne d r k :
  key r <> k -> dict_get k (group_step key init add d r) = dict_get k d.
Proof.
  intros Hne. unfold group_step. cbv zeta.
  rewrite dict_get_update_ne by exact Hne.
  destruct (dict_mem (key r) d); [reflexivity |].
  apply dict_get_set_ne. exact Hne.
Qed.

Lemma group_step_keys d r :
  dict_keys (group_step key init add d r) = add_key (dict_keys d) (key r).
Proof.
  unfold group_step, add_key. cbv zeta. rewrite dict_keys_update.
  rewrite <- dict_mem_keys. destruct (dict_mem (key r) d) eqn:E.
  - reflexivity.
  - apply dict_keys_set_new. exact E.
Qed.

Lemma fold_group_get (l : list R) : forall d k,
  dict_get k (fold_left (group_step key init add) l d)
  = match dict_get k d, group key k l with
    | Some a, g => Some (accumulate add g a)
    | None, [] => None
    | None, g => Some (accumulate add g (init k))
    end.
Proof.
  induction l as [|r l IH]; intros d k; simpl.
  - destruct (dict_get k d); reflexivity.
  - rewrite IH. destruct (String.eqb_spec (key r) k) as [<-|Hne].
    + rewrite group_step_get_eq. simpl.
      destruct (dict_get (key r) d); reflexivity.
    + rewrite group_step_get_ne by exact Hne. reflexivity.
Qed.

Lemma fold_group_keys (l : list R) : forall d,
  dict_keys (fold_left (group_step key init add) l d)
  = fold_left add_key (List.map key l) (dict_keys d).
Proof.
  induction l as [|r l IH]; intros d; simpl.
  - reflexivity.
  - rewrite IH, group_step_keys. reflexivity.
Qed.

Lemma group_nonempty k l : In k (List.map key l) -> group key k l <> [].
Proof.
  intros Hin Hg. apply in_map_iff in Hin as [r [Hk Hr]].
  assert (In r (group key k l)) as H.
  { apply filter_In. split; [exact Hr |]. apply String.eqb_eq. exact Hk. }
  rewrite Hg in H. exact H.
Qed.

(** The values of the dictionary the loop builds. *)
Theorem fold_group_values (l : list R) :
  dict_values (fold_left (group_step key init add) l [])
  = List.map (fun k => accumulate add (group key k l) (init k))
             (first_seen (List.map key l)).
Proof.
  pose proof (fold_group_keys l []) as Hkeys. simpl in Hkeys.
  fold (first_seen (List.map key l)) in Hkeys.
  rewrite <- Hkeys. apply dict_values_by_key.
  - rewrite Hkeys. apply first_seen_NoDup.
  - intros k v H. rewrite fold_group_get in H. simpl in H. cbv beta.
    destruct (group key k l); [discriminate |]. injection H as <-. reflexivity.
Qed.
End Grouping.

(** ** Sums *)

Lemma zsum_app xs ys : zsum (xs ++ ys) = zsum xs + zsum ys.
Proof. induction xs as [|x xs IH]; simpl; [reflexivity | rewrite IH; lia]. Qed.

Lemma zsum_Permutation xs ys : Permutation xs ys -> zsum xs = zsum ys.
Proof. induction 1; simpl; lia. Qed.

(** ** Aggregation: what the loops compute *)

Section AggregationFacts.
Context {F : Type} {AF : Arith F}.

Lemma float_div_int_pos (x : F) n :
  0 < n ->
  float_div_int x n
  = if overflows (of_int n)
    then Raise (OverflowError "int too large to convert to float")
    else Ok (fdiv x (of_int n)).
Proof.
  intros Hn. unfold float_div_int, float_of_int.
  destruct (overflows (of_int n)); [reflexivity |]. cbn [bind].
  destruct (Z.eqb_spec n 0); [lia | reflexivity].
Qed.

Lemma int_div_int_pos a n :
  0 < n ->
  int_div_int a n
  = if overflows (int_truediv a n)
    then Raise (OverflowError "integer division result too large for a float")
    else Ok (int_truediv a n).
Proof.
  intros Hn. unfold int_div_int. destruct (Z.eqb_spec n 0); [lia | reflexivity].
Qed.

(** The guard keeps the division away from a zero divisor: an average is
    the quotient, or [0], or the error of a quotient that is out of range. *)
Lemma avg_float_spec total n :
  avg_float total n
  = if (0 <? n) && overflows (of_int n)
    then Raise (OverflowError "int too large to convert to float")
    else Ok (mean_float total n).
Proof.
  unfold avg_float, mean_float.
  destruct (Z.ltb_spec 0 n) as [Hn|Hn]; [| reflexivity].
  rewrite (float_div_int_pos _ _ Hn). simpl.
  destruct (overflows (of_int n)); reflexivity.
Qed.

Lemma avg_int_spec total n :
  avg_int total n
  = if (0 <? n) && overflows (int_truediv total n)
    then Raise (OverflowError "integer division result too large for a float")
    else Ok (mean_int total n).
Proof.
  unfold avg_int, mean_int.
  destruct (Z.ltb_spec 0 n) as [Hn|Hn]; [| reflexivity].
  rewrite (int_div_int_pos _ _ Hn). simpl.
  destruct (overflows (int_truediv total n)); reflexivity.
Qed.

Lemma region_averages_spec a :
  region_averages a
  = if averages_overflow (rt_total_quantity a) (rt_total_sales a)
    then Raise (averages_error (rt_total_sales a))
    else Ok (region_row a).
Proof.
  unfold region_averages, averages_overflow, averages_error.
  rewrite avg_float_spec, avg_int_spec.
  destruct (0 <? rt_total_sales a); simpl; [| reflexivity].
  destruct (overflows (of_int (rt_total_sales a))); simpl; [reflexivity |].
  destruct (overflows (int_truediv _ _)); reflexivity.
Qed.

Lemma product_averages_spec a :
  product_averages a
  = if averages_overflow (pt_total_quantity a) (pt_total_sales a)
    then Raise (averages_error (pt_total_sales a))
    else Ok (product_row a).
Proof.
  unfold product_averages, averages_overflow, averages_error.
  rewrite avg_float_spec, avg_int_spec.
  destruct (0 <? pt_total_sales a); simpl; [| reflexivity].
  destruct (overflows (of_int (pt_total_sales a))); simpl; [reflexivity |].
  destruct (overflows (int_truediv _ _)); reflexivity.
Qed.

Lemma averages_raise_OverflowError n : exists msg, averages_error n = OverflowError msg.
Proof. unfold averages_error. eauto. Qed.

Lemma accumulate_region (g : list (sales_record F)) : forall a,
  accumulate region_add g a
  = {| rt_region := rt_region a;
       rt_total_sales := rt_total_sales a + Z.of_nat (length g);
       rt_total_revenue := fold_left fadd (List.map sales_amount g) (rt_total_revenue a);
       rt_total_quantity := rt_total_quantity a + zsum (List.map quantity g);
       rt_product_count := rt_product_count a + Z.of_nat (length g) |}.
Proof.
  induction g as [|r g IH]; intros a.
  - destruct a; simpl. f_equal; lia.
  - change (accumulate region_add (r :: g) a)
      with (accumulate region_add g (region_add r a)).
    rewrite IH. simpl. f_equal; lia.
Qed.

Lemma accumulate_product (g : list (sales_record F)) : forall a,
  accumulate product_add g a
  = {| pt_product_name := pt_product_name a;
       pt_total_sales := pt_total_sales a + Z.of_nat (length g);
       pt_total_revenue := fold_left fadd (List.map sales_amount g) (pt_total_revenue a);
       pt_total_quantity := pt_total_quantity a + zsum (List.map quantity g);
       pt_regions := pt_regions a ∪ list_to_set (List.map region g) |}.
Proof.
  induction g as [|r g IH]; intros a.
  - destruct a; simpl. rewrite (right_id_L ∅ (∪)). f_equal; lia.
  - change (accumulate product_add (r :: g) a)
      with (accumulate product_add g (product_add r a)).
    rewrite IH. simpl. rewrite (assoc_L (∪)). f_equal; lia.
Qed.

(** The totals the first loop leaves: one entry for each key, in the order
    of the keys' first records. *)
Lemma region_loop (data : list (sales_record F)) :
  dict_values (fold_left region_step data [])
  = List.map (fun k => region_group_totals k (group region k data))
      (first_seen (List.map region data)).
Proof.
  change region_step with (group_step (V:=region_totals F) region region_init region_add).
  rewrite fold_group_values. apply map_ext. intros k.
  rewrite accumulate_region. reflexivity.
Qed.

Lemma product_loop (data : list (sales_record F)) :
  dict_values (fold_left product_step data [])
  = List.map (fun k => product_group_totals k (group product_name k data))
      (first_seen (List.map product_name data)).
Proof.
  change product_step
    with (group_step (V:=product_totals F) product_name product_init product_add).
  rewrite fold_group_values. apply map_ext. intros k.
  rewrite accumulate_product. unfold product_group_totals. simpl.
  rewrite (left_id_L ∅ (∪)). reflexivity.
Qed.

(** What the region aggregation does: it raises at the first region whose
    averages cannot be taken, and returns one row for each region, in the
    order of the regions' first records, when there is none. *)
Theorem aggregate_sales_by_region_spec (data : list (sales_record F)) :
  aggregate_sales_by_region data
  = match List.find (fun k => group_overflows region k data)
            (first_seen (List.map region data)) with
    | Some k => Raise (averages_error (Z.of_nat (length (group region k data))))
    | None => Ok (region_rows data)
    end.
Proof.
  unfold aggregate_sales_by_region. rewrite region_loop, mapM_map.
  rewrite (mapM_checked _ (fun k => group_overflows region k data)
             (fun k => averages_error (Z.of_nat (length (group region k data))))
             (fun k => region_row (region_group_totals k (group region k data)))).
  - reflexivity.
  - intros k. apply region_averages_spec.
Qed.

Theorem aggregate_sales_by_product_spec (data : list (sales_record F)) :
  aggregate_sales_by_product data
  = match List.find (fun k => group_overflows product_name k data)
            (first_seen (List.map product_name data)) with
    | Some k => Raise (averages_error (Z.of_nat (length (group product_name k data))))
    | None => Ok (sort_reverse pd_total_revenue fltb (product_rows data))
    end.
Proof.
  unfold aggregate_sales_by_product. rewrite product_loop, mapM_map.
  rewrite (mapM_checked _ (fun k => group_overflows product_name k data)
             (fun k => averages_error (Z.of_nat (length (group product_name k data))))
             (fun k => product_row (product_group_totals k (group product_name k data)))).
  - destruct (List.find _ _); reflexivity.
  - intros k. apply product_averages_spec.
Qed.

(** The rows, when the aggregation returns. *)
Lemma aggregate_sales_by_region_rows (data : list (sales_record F)) rows :
  aggregate_sales_by_region data = Ok rows -> rows = region_rows data.
Proof.
  rewrite aggregate_sales_by_region_spec.
  destruct (List.find _ _); [discriminate | intros [= <-]; reflexivity].
Qed.

Lemma aggregate_sales_by_product_rows (data : list (sales_record F)) rows :
  aggregate_sales_by_product data = Ok rows ->
  rows = sort_reverse pd_total_revenue fltb (product_rows data).
Proof.
  rewrite aggregate_sales_by_product_spec.
  destruct (List.find _ _); [discriminate | intros [= <-]; reflexivity].
Qed.

(** The aggregation returns exactly when the averages of every group can be
    taken, and raises an [OverflowError] otherwise. *)
Lemma aggregate_sales_by_region_returns (data : list (sales_record F)) :
  (exists rows, aggregate_sales_by_region data = Ok rows)
  <-> forall k, In k (List.map region data) -> group_overflows region k data = false.
Proof.
  rewrite aggregate_sales_by_region_spec.
  destruct (List.find _ _) as [k|] eqn:E.
  - split; [intros [rows H]; discriminate |]. intros H.
    apply List.find_some in E as [Hin Hbad].
    rewrite (H k (proj1 (first_seen_In _ _) Hin)) in Hbad. discriminate.
  - split; [| eauto]. intros _ k Hk.
    exact (proj1 (find_none_iff _ _) E k (proj2 (first_seen_In _ _) Hk)).
Qed.

Lemma aggregate_sales_by_product_returns (data : list (sales_record F)) :
  (exists rows, aggregate_sales_by_product data = Ok rows)
  <-> forall k, In k (List.map product_name data) ->
        group_overflows product_name k data = false.
Proof.
  rewrite aggregate_sales_by_product_spec.
  destruct (List.find _ _) as [k|] eqn:E.
  - split; [intros [rows H]; discriminate |]. intros H.
    apply List.find_some in E as [Hin Hbad].
    rewrite (H k (proj1 (first_seen_In _ _) Hin)) in Hbad. discriminate.
  - split; [| eauto]. intros _ k Hk.
    exact (proj1 (find_none_iff _ _) E k (proj2 (first_seen_In _ _) Hk)).
Qed.

Lemma aggregate_sales_by_region_raises (data : list (sales_record F)) e :
  aggregate_sales_by_region data = Raise e ->
  exists k msg,
    In k (List.map region data) /\ group_overflows region k data = true
    /\ e = OverflowError msg.
Proof.
  rewrite aggregate_sales_by_region_spec.
  destruct (List.find _ _) as [k|] eqn:E; [| discriminate]. intros [= <-].
  apply List.find_some in E as [Hin Hbad].
  destruct (averages_raise_OverflowError (Z.of_nat (length (group region k data))))
    as [msg Hmsg].
  exists k, msg. split; [exact (proj1 (first_seen_In _ _) Hin) |]. split; assumption.
Qed.

Lemma aggregate_sales_by_product_raises (data : list (sales_record F)) e :
  aggregate_sales_by_product data = Raise e ->
  exists k msg,
    In k (List.map product_name data) /\ group_overflows product_name k data = true
    /\ e = OverflowError msg.
Proof.
  rewrite aggregate_sales_by_product_spec.
  destruct (List.find _ _) as [k|] eqn:E; [| discriminate]. intros [= <-].
  apply List.find_some in E as [Hin Hbad].
  destruct (averages_raise_OverflowError
              (Z.of_nat (length (group product_name k data)))) as [msg Hmsg].
  exists k, msg. split; [exact (proj1 (first_seen_In _ _) Hin) |]. split; assumption.
Qed.
End AggregationFacts.

(** ** The region aggregation *)

Section RegionFacts.
Context {F : Type} {AF : Arith F}.

Lemma region_rows_keys (data : list (sales_record F)) rows :
  aggregate_sales_by_region data = Ok rows ->
  List.map rg_region rows = first_seen (List.map region data).
Proof.
  intros H. rewrite (aggregate_sales_by_region_rows _ _ H). unfold region_rows.
  rewrite map_map. simpl. apply map_id.
Qed.

Lemma region_rows_In (data : list (sales_record F)) rows row :
  aggregate_sales_by_region data = Ok rows -> In row rows ->
  In (rg_region row) (List.map region data)
  /\ row = region_row (region_group_totals (rg_region row)
                         (group region (rg_region row) data)).
Proof.
  intros H. rewrite (aggregate_sales_by_region_rows _ _ H). unfold region_rows.
  intros Hin. apply in_map_iff in Hin as [k [<- Hk]]. simpl.
  split; [| reflexivity]. exact (proj1 (first_seen_In _ _) Hk).
Qed.
End RegionFacts.

Lemma length_pos_of_nonempty {A : Type} (l : list A) :
  l <> [] -> 0 < Z.of_nat (length l).
Proof. destruct l; [congruence | simpl; lia]. Qed.

(** C3, as amended.  Whenever [aggregate_sales_by_region] returns, it
    returns exactly one row for each region present.  In the row of a
    region, [total_sales] and [product_count] are the number of the region's
    records, [total_revenue] is the sum of their [sales_amount],
    [total_quantity] the sum of their [quantity], [avg_sale_amount] is
    [total_revenue / total_sales] and [avg_quantity] is
    [total_quantity / total_sales].  It returns exactly when, for every
    region, neither the count nor the quotient [total_quantity / total_sales]
    is beyond the double range, and raises an [OverflowError] otherwise.  The
    second loop divides only when [total_sales > 0] and stores [0] otherwise,
    so it never divides by zero.  Two records of region North with amounts
    100 and 50 and quantities 1 and 2 give the one row North, 2, 150, 3, 75,
    1.5. *)
Theorem C3_aggregate_sales_by_region (data : list (sales_record float)) :
  (forall rows,
      aggregate_sales_by_region data = Ok rows ->
      List.NoDup (List.map rg_region rows)
      /\ (forall k, In k (List.map rg_region rows) <-> In k (List.map region data))
      /\ (forall row, In row rows ->
            let g := group region (rg_region row) data in
            g <> []
            /\ rg_total_sales row = Z.of_nat (length g)
            /\ rg_total_revenue row = fsum (List.map sales_amount g)
            /\ rg_total_quantity row = zsum (List.map quantity g)
            /\ rg_product_count row = Z.of_nat (length g)
            /\ rg_avg_sale_amount row
               = NumFloat (rg_total_revenue row / of_int (rg_total_sales row))%float
            /\ rg_avg_quantity row
               = NumFloat (int_truediv (rg_total_quantity row) (rg_total_sales row))))
  /\ ((exists rows, aggregate_sales_by_region data = Ok rows)
      <-> forall k, In k (List.map region data) ->
            group_overflows region k data = false)
  /\ (forall e, aggregate_sales_by_region data = Raise e ->
        exists k msg,
          In k (List.map region data) /\ group_overflows region k data = true
          /\ e = OverflowError msg)
  /\ (forall totals : region_totals float,
        (rt_total_sales totals <= 0 ->
         exists row,
           region_averages totals = Ok row
           /\ rg_avg_sale_amount row = NumInt 0 /\ rg_avg_quantity row = NumInt 0)
        /\ (forall e, region_averages totals = Raise e ->
              exists msg, e = OverflowError msg))
  /\ (forall p1 d1 c1 v1 m1 y1 q1 p2 d2 c2 v2 m2 y2 q2,
        aggregate_sales_by_region
          [ {| product_name := p1; sales_amount := 100%float; sale_date := d1;
               region := "North"; customer_id := c1; quantity := 1;
               total_value := v1; sale_month := m1; sale_year := y1;
               sale_quarter := q1 |};
            {| product_name := p2; sales_amount := 50%float; sale_date := d2;
               region := "North"; customer_id := c2; quantity := 2;
               total_value := v2; sale_month := m2; sale_year := y2;
               sale_quarter := q2 |} ]
        = Ok [ {| rg_region := "North"; rg_total_sales := 2;
                  rg_total_revenue := 150%float; rg_total_quantity := 3;
                  rg_product_count := 2;
                  rg_avg_sale_amount := NumFloat 75%float;
                  rg_avg_quantity := NumFloat 1.5%float |} ]).
Proof.
  split; [| split; [| split; [| split]]].
  - intros rows Hrows. split; [| split].
    + rewrite (region_rows_keys _ _ Hrows). apply first_seen_NoDup.
    + intros k. rewrite (region_rows_keys _ _ Hrows). apply first_seen_In.
    + intros row Hin g.
      destruct (region_rows_In _ _ _ Hrows Hin) as [Hk Hrow].
      fold g in Hrow.
      assert (g <> []) as Hg by (apply group_nonempty; exact Hk).
      pose proof (length_pos_of_nonempty g Hg) as Hpos.
      apply Z.ltb_lt in Hpos.
      split; [exact Hg |]. rewrite Hrow. simpl.
      unfold mean_float, mean_int. simpl. rewrite Hpos.
      repeat split; reflexivity.
  - apply aggregate_sales_by_region_returns.
  - apply aggregate_sales_by_region_raises.
  - intros totals. split.
    + intros Hle. exists (region_row totals). rewrite region_averages_spec.
      unfold averages_overflow, region_row, mean_float, mean_int.
      destruct (Z.ltb_spec 0 (rt_total_sales totals)); [lia |]. simpl.
      repeat split.
    + intros e. rewrite region_averages_spec.
      destruct (averages_overflow _ _); [| discriminate]. intros [= <-].
      apply averages_raise_OverflowError.
  - intros. vm_compute. reflexivity.
Qed.

(** The claim C3 fails as stated: the cleaner keeps a record whose quantity
    is the int [10 ** 400], and on that record the aggregation raises, since
    the average of the quantities has no float. *)
Lemma C3_counterexample :
  clean_sales_data [sale_with_huge_quantity] = Ok [huge_sale]
  /\ aggregate_sales_by_region [huge_sale]
     = Raise (OverflowError "integer division result too large for a float").
Proof. split; vm_compute; reflexivity. Qed.

(** ** The sort *)

Section SortFacts.
Context {A K : Type}.
Variable key : A -> K.
Variable lt : K -> K -> bool.

Lemma insert_desc_Permutation x s : Permutation (insert_desc key lt x s) (x :: s).
Proof.
  induction s as [|y s IH]; simpl.
  - reflexivity.
  - destruct (lt (key x) (key y)).
    + rewrite IH. apply perm_swap.
    + reflexivity.
Qed.

Lemma sort_reverse_Permutation l : Permutation (sort_reverse key lt l) l.
Proof.
  induction l as [|x l IH]; simpl.
  - reflexivity.
  - rewrite insert_desc_Permutation. apply perm_skip. exact IH.
Qed.

(** Stability: the elements whose key satisfies [tied], a property that no
    two keys in strict order share, keep their order. *)
Section Stable.
Variable tied : K -> bool.
Hypothesis tied_not_lt :
  forall x y, tied x = true -> tied y = true -> lt x y = false.

Lemma insert_desc_stable x s :
  List.filter (fun a => tied (key a)) (insert_desc key lt x s)
  = List.filter (fun a => tied (key a)) (x :: s).
Proof.
  induction s as [|y s IH].
  - reflexivity.
  - cbn [insert_desc]. destruct (lt (key x) (key y)) eqn:Hlt; [| reflexivity].
    cbn [List.filter] in *. rewrite IH.
    destruct (tied (key x)) eqn:Hx; [| reflexivity].
    destruct (tied (key y)) eqn:Hy; [| reflexivity].
    rewrite (tied_not_lt _ _ Hx Hy) in Hlt. discriminate.
Qed.

Lemma sort_reverse_stable l :
  List.filter (fun a => tied (key a)) (sort_reverse key lt l)
  = List.filter (fun a => tied (key a)) l.
Proof.
  induction l as [|x l IH].
  - reflexivity.
  - cbn [sort_reverse fold_right]. rewrite insert_desc_stable.
    cbn [List.filter]. fold (sort_reverse key lt l). rewrite IH. reflexivity.
Qed.
End Stable.

(** Order: when [lt] and [le] are the strict and the weak side of a total
    preorder on the keys that occur, the sorted list is descending. *)
Section Sorted.
Variable le : K -> K -> bool.
Variable ok : K -> Prop.
Hypothesis lt_le : forall x y, lt x y = true -> le x y = true.
Hypothesis not_lt_le : forall x y, ok x -> ok y -> lt x y = false -> le y x = true.
Hypothesis le_trans : forall x y z, le x y = true -> le y z = true -> le x z = true.

Lemma insert_desc_sorted x s :
  ok (key x) -> Forall (fun a => ok (key a)) s ->
  StronglySorted (descending key le) s ->
  StronglySorted (descending key le) (insert_desc key lt x s).
Proof.
  intros Hx Hok Hs. induction s as [|y s IH]; simpl.
  - constructor; constructor.
  - apply StronglySorted_inv in Hs as [Hs Hy].
    apply Forall_cons_iff in Hok as [Hoky Hok].
    destruct (lt (key x) (key y)) eqn:Hlt.
    + constructor; [apply IH; assumption |].
      apply (Permutation_Forall (Permutation_sym (insert_desc_Permutation x s))).
      constructor; [| exact Hy]. apply lt_le. exact Hlt.
    + assert (le (key y) (key x) = true) as Hyx by (apply not_lt_le; assumption).
      constructor; [constructor; assumption |].
      constructor; [exact Hyx |].
      eapply List.Forall_impl; [| exact Hy]. intros z Hz.
      unfold descending in *. eapply le_trans; eassumption.
Qed.

Lemma sort_reverse_sorted l :
  Forall (fun a => ok (key a)) l ->
  StronglySorted (descending key le) (sort_reverse key lt l).
Proof.
  induction l as [|x l IH]; intros Hok; simpl.
  - constructor.
  - apply Forall_cons_iff in Hok as [Hx Hok].
    apply insert_desc_sorted; [exact Hx | | apply IH; exact Hok].
    apply (Permutation_Forall (Permutation_sym (sort_reverse_Permutation l))).
    exact Hok.
Qed.
End Sorted.
End SortFacts.

(** ** The order of binary64 numbers

    The comparisons of primitive floats are specified on [spec_float], where
    they compare sign, exponent and mantissa in this order.  A float that is
    not NaN therefore has a rank in the lexicographic order of integer
    triples, and the comparisons are the comparisons of ranks. *)

Lemma SFcompare_rank x y :
  SFcompare x y
  = match SFrank x, SFrank y with
    | Some a, Some b => Some (lex3 a b)
    | _, _ => None
    end.
Proof.
  destruct x as [sx|sx| |sx mx ex], y as [sy|sy| |sy my ey];
    try destruct sx; try destruct sy; try reflexivity.
  simpl. rewrite Z.compare_opp, (Z.compare_antisym ex ey).
  destruct (ex ?= ey); reflexivity.
Qed.

Lemma lex3_spec a b :
  match lex3 a b with
  | Lt => lex3_lt a b
  | Eq => a = b
  | Gt => lex3_lt b a
  end.
Proof.
  destruct a as [[a1 a2] a3], b as [[b1 b2] b3]. unfold lex3, lex3_lt.
  destruct (Z.compare_spec a1 b1); [| lia | lia].
  destruct (Z.compare_spec a2 b2); [| lia | lia].
  destruct (Z.compare_spec a3 b3); [congruence | lia | lia].
Qed.

Lemma lex3_lt_irrefl a : ~ lex3_lt a a.
Proof. destruct a as [[a1 a2] a3]. unfold lex3_lt. lia. Qed.

Lemma lex3_lt_trans a b c : lex3_lt a b -> lex3_lt b c -> lex3_lt a c.
Proof.
  destruct a as [[a1 a2] a3], b as [[b1 b2] b3], c as [[c1 c2] c3].
  unfold lex3_lt. lia.
Qed.

Section Binary64Order.
Local Open Scope float_scope.

Lemma ltb_rank x y :
  (x <? y) = match SFrank (Prim2SF x), SFrank (Prim2SF y) with
             | Some a, Some b => match lex3 a b with Lt => true | _ => false end
             | _, _ => false
             end.
Proof.
  rewrite FloatAxioms.ltb_spec. unfold SFltb. rewrite SFcompare_rank.
  destruct (SFrank (Prim2SF x)), (SFrank (Prim2SF y)); reflexivity.
Qed.

Lemma leb_rank x y :
  (x <=? y) = match SFrank (Prim2SF x), SFrank (Prim2SF y) with
              | Some a, Some b => match lex3 a b with Gt => false | _ => true end
              | _, _ => false
              end.
Proof.
  rewrite FloatAxioms.leb_spec. unfold SFleb. rewrite SFcompare_rank.
  destruct (SFrank (Prim2SF x)), (SFrank (Prim2SF y)); [| reflexivity ..].
  destruct (lex3 p p0); reflexivity.
Qed.

Lemma eqb_rank x y :
  (x =? y) = match SFrank (Prim2SF x), SFrank (Prim2SF y) with
             | Some a, Some b => match lex3 a b with Eq => true | _ => false end
             | _, _ => false
             end.
Proof.
  rewrite FloatAxioms.eqb_spec. unfold SFeqb. rewrite SFcompare_rank.
  destruct (SFrank (Prim2SF x)), (SFrank (Prim2SF y)); reflexivity.
Qed.

Lemma float_lt_le x y : (x <? y) = true -> (x <=? y) = true.
Proof.
  rewrite ltb_rank, leb_rank.
  destruct (SFrank (Prim2SF x)), (SFrank (Prim2SF y)); try discriminate.
  destruct (lex3 p p0); congruence.
Qed.

Lemma float_not_lt_le x y :
  comparable x -> comparable y -> (x <? y) = false -> (y <=? x) = true.
Proof.
  unfold comparable. rewrite ltb_rank, leb_rank.
  destruct (SFrank (Prim2SF x)) as [a|], (SFrank (Prim2SF y)) as [b|];
    try congruence.
  intros _ _. pose proof (lex3_spec a b) as Hab. pose proof (lex3_spec b a) as Hba.
  destruct (lex3 a b); [| discriminate |]; intros _.
  - subst b. destruct (lex3 a a); try reflexivity.
    exfalso. exact (lex3_lt_irrefl _ Hba).
  - destruct (lex3 b a); try reflexivity.
    exfalso. exact (lex3_lt_irrefl _ (lex3_lt_trans _ _ _ Hab Hba)).
Qed.

Lemma float_le_trans x y z :
  (x <=? y) = true -> (y <=? z) = true -> (x <=? z) = true.
Proof.
  rewrite !leb_rank.
  destruct (SFrank (Prim2SF x)) as [a|], (SFrank (Prim2SF y)) as [b|],
    (SFrank (Prim2SF z)) as [c|]; try discriminate.
  pose proof (lex3_spec a b) as Hab. pose proof (lex3_spec b c) as Hbc.
  pose proof (lex3_spec a c) as Hac.
  destruct (lex3 a b); [| | discriminate]; intros _;
    (destruct (lex3 b c); [| | discriminate]); intros _;
    destruct (lex3 a c); try reflexivity; exfalso; subst.
  - exact (lex3_lt_irrefl _ Hac).
  - exact (lex3_lt_irrefl _ (lex3_lt_trans _ _ _ Hbc Hac)).
  - exact (lex3_lt_irrefl _ (lex3_lt_trans _ _ _ Hab Hac)).
  - exact (lex3_lt_irrefl _
             (lex3_lt_trans _ _ _ (lex3_lt_trans _ _ _ Hab Hbc) Hac)).
Qed.

(** Two floats equal to a third are not in strict order. *)
Lemma float_tied_not_lt v x y :
  (x =? v) = true -> (y =? v) = true -> (x <? y) = false.
Proof.
  rewrite !eqb_rank, ltb_rank.
  destruct (SFrank (Prim2SF x)) as [a|], (SFrank (Prim2SF y)) as [b|],
    (SFrank (Prim2SF v)) as [c|]; try discriminate.
  pose proof (lex3_spec a c) as Hac. pose proof (lex3_spec b c) as Hbc.
  pose proof (lex3_spec a b) as Hab.
  destruct (lex3 a c); try discriminate. intros _.
  destruct (lex3 b c); try discriminate. intros _.
  destruct (lex3 a b); try reflexivity.
  exfalso. subst. exact (lex3_lt_irrefl _ Hab).
Qed.
End Binary64Order.

(** ** Sums of positive floats

    Adding a positive float to a float that is not negative gives a float
    that is not negative: the sum may round, and may overflow to infinity,
    but it is never NaN. *)

Lemma shr_1_nonneg mrs : 0 <= shr_m mrs -> 0 <= shr_m (shr_1 mrs).
Proof.
  destruct mrs as [m r s]. simpl. intros Hm.
  destruct m as [|[p|p|]|p]; simpl; lia.
Qed.

Lemma iter_pos_shr_1_nonneg p : forall mrs,
  0 <= shr_m mrs -> 0 <= shr_m (SpecFloat.iter_pos shr_1 p mrs).
Proof.
  induction p as [p IH|p IH|]; intros mrs Hm; simpl.
  - apply IH, IH, shr_1_nonneg, Hm.
  - apply IH, IH, Hm.
  - apply shr_1_nonneg, Hm.
Qed.

Lemma shr_nonneg mrs e n : 0 <= shr_m mrs -> 0 <= shr_m (fst (shr mrs e n)).
Proof.
  intros Hm. unfold shr. destruct n; simpl; try exact Hm.
  apply iter_pos_shr_1_nonneg, Hm.
Qed.

Lemma shr_fexp_nonneg m e l :
  0 <= m -> 0 <= shr_m (fst (shr_fexp prec emax m e l)).
Proof.
  intros Hm. unfold shr_fexp. apply shr_nonneg.
  destruct l as [|[| |]]; exact Hm.
Qed.

Lemma round_nearest_even_nonneg m l : 0 <= m -> 0 <= round_nearest_even m l.
Proof.
  intros Hm. destruct l as [|[| |]]; simpl; try lia.
  destruct (Z.even m); lia.
Qed.

Lemma binary_round_aux_nonneg m e l :
  0 <= m -> SFnonneg (binary_round_aux prec emax false m e l).
Proof.
  intros Hm. unfold binary_round_aux.
  pose proof (shr_fexp_nonneg m e l Hm) as H1.
  destruct (shr_fexp prec emax m e l) as [mrs' e']. simpl in H1.
  pose proof (round_nearest_even_nonneg (shr_m mrs') (loc_of_shr_record mrs') H1) as H2.
  pose proof (shr_fexp_nonneg _ e' loc_Exact H2) as H3.
  destruct (shr_fexp prec emax _ e' loc_Exact) as [mrs'' e'']. simpl in H3.
  destruct (shr_m mrs'') as [|p|p]; [exact I | | lia].
  destruct (e'' <=? emax - prec); exact I.
Qed.

Lemma SFadd_nonneg x y :
  SFnonneg x -> SFnonneg y -> SFnonneg (SFadd prec emax x y).
Proof.
  destruct x as [sx|[|]| |[|] mx ex], y as [sy|[|]| |[|] my ey];
    simpl; try tauto.
  - intros _ _. destruct sx, sy; exact I.
  - intros _ _. unfold binary_normalize, binary_round.
    destruct (shl_align _ _ _) as [mz ez]. apply binary_round_aux_nonneg. lia.
Qed.

Section Binary64Sums.
Local Open Scope float_scope.

Lemma nonneg_spec x : (0 <=? x) = true <-> SFnonneg (Prim2SF x).
Proof.
  rewrite FloatAxioms.leb_spec.
  change (Prim2SF 0) with (S754_zero false).
  destruct (Prim2SF x) as [s|[|]| |[|] m e]; simpl; intuition discriminate.
Qed.

Lemma positive_nonneg x : (0 <? x) = true -> (0 <=? x) = true.
Proof. apply float_lt_le. Qed.

Lemma add_nonneg x y :
  (0 <=? x) = true -> (0 <? y) = true -> (0 <=? x + y) = true.
Proof.
  intros Hx Hy. apply positive_nonneg in Hy.
  apply nonneg_spec. rewrite add_spec. apply SFadd_nonneg; apply nonneg_spec; assumption.
Qed.

Lemma nonneg_comparable x : (0 <=? x) = true -> comparable x.
Proof.
  intros Hx. apply nonneg_spec in Hx. unfold comparable.
  destruct (Prim2SF x) as [s|[|]| |[|] m e]; simpl in *; try discriminate; tauto.
Qed.

Lemma fold_add_nonneg (xs : list float) : forall acc,
  (0 <=? acc) = true -> Forall (fun x => (0 <? x) = true) xs ->
  (0 <=? fold_left PrimFloat.add xs acc) = true.
Proof.
  induction xs as [|x xs IH]; intros acc Hacc Hxs; simpl.
  - exact Hacc.
  - apply Forall_cons_iff in Hxs as [Hx Hxs].
    apply IH; [apply add_nonneg; assumption | exact Hxs].
Qed.

(** The total of positive amounts is not negative, hence not NaN. *)
Lemma fsum_nonneg (xs : list float) :
  Forall (fun x => (0 <? x) = true) xs -> (0 <=? fsum xs) = true.
Proof. intros Hxs. apply fold_add_nonneg; [reflexivity | exact Hxs]. Qed.
End Binary64Sums.

(** ** The product aggregation *)

Section ProductFacts.
Context {F : Type} {AF : Arith F}.

Lemma product_rows_keys (data : list (sales_record F)) :
  List.map pd_product_name (product_rows data)
  = first_seen (List.map product_name data).
Proof. unfold product_rows. rewrite map_map. simpl. apply map_id. Qed.

Lemma product_rows_In (data : list (sales_record F)) row :
  In row (product_rows data) ->
  In (pd_product_name row) (List.map product_name data)
  /\ row = product_row (product_group_totals (pd_product_name row)
                          (group product_name (pd_product_name row) data)).
Proof.
  unfold product_rows. intros Hin.
  apply in_map_iff in Hin as [k [<- Hk]]. simpl.
  split; [| reflexivity]. exact (proj1 (first_seen_In _ _) Hk).
Qed.
End ProductFacts.

Lemma group_revenue_comparable (data : list (sales_record float)) row :
  positive_amounts data -> In row (product_rows data) ->
  comparable (pd_total_revenue row).
Proof.
  intros Hpos Hin. apply product_rows_In in Hin as [_ ->]. simpl.
  apply nonneg_comparable, fsum_nonneg.
  apply List.Forall_forall. intros x Hx.
  apply in_map_iff in Hx as [r [<- Hr]].
  apply filter_In in Hr as [Hr _].
  unfold positive_amounts in Hpos. rewrite List.Forall_forall in Hpos.
  apply Hpos. exact Hr.
Qed.

(** C4, as amended.  Whenever [aggregate_sales_by_product] returns, it
    returns one row for each product name present, and [region_count] of a
    row is the cardinality of the set of regions of the product's records.
    When the amounts are positive, as they are in clean records, the rows are
    in descending order of [total_revenue], and rows of equal [total_revenue]
    are in the order in which their products were first encountered.  It
    returns exactly when, for every product, neither the count nor the
    quotient [total_quantity / total_sales] is beyond the double range, and
    raises an [OverflowError] otherwise. *)
Theorem C4_aggregate_sales_by_product (data : list (sales_record float)) :
  (forall rows,
      aggregate_sales_by_product data = Ok rows ->
      List.NoDup (List.map pd_product_name rows)
      /\ (forall k, In k (List.map pd_product_name rows)
                    <-> In k (List.map product_name data))
      /\ (forall row, In row rows ->
            pd_region_count row
            = Z.of_nat (size (list_to_set
                                (List.map region
                                   (group product_name (pd_product_name row) data))
                              : gset string)))
      /\ (positive_amounts data ->
          StronglySorted
            (fun a b => (pd_total_revenue b <=? pd_total_revenue a)%float = true) rows
          /\ exists encountered,
              List.map pd_product_name encountered
              = first_seen (List.map product_name data)
              /\ Permutation rows encountered
              /\ forall v,
                  List.filter (fun r => (pd_total_revenue r =? v)%float) rows
                  = List.filter (fun r => (pd_total_revenue r =? v)%float) encountered))
  /\ ((exists rows, aggregate_sales_by_product data = Ok rows)
      <-> forall k, In k (List.map product_name data) ->
            group_overflows product_name k data = false)
  /\ (forall e, aggregate_sales_by_product data = Raise e ->
        exists k msg,
          In k (List.map product_name data)
          /\ group_overflows product_name k data = true
          /\ e = OverflowError msg).
Proof.
  split; [| split; [apply aggregate_sales_by_product_returns
                   | apply aggregate_sales_by_product_raises]].
  intros rows Hrows. rewrite (aggregate_sales_by_product_rows _ _ Hrows).
  pose proof (sort_reverse_Permutation pd_total_revenue fltb (product_rows data))
    as Hperm.
  split; [| split; [| split]].
  - apply (Permutation_NoDup (Permutation_map _ (Permutation_sym Hperm))).
    rewrite product_rows_keys. apply first_seen_NoDup.
  - intros k. split; intros H.
    + apply (proj1 (first_seen_In _ _)). rewrite <- product_rows_keys.
      exact (Permutation_in _ (Permutation_map _ Hperm) H).
    + apply (Permutation_in _ (Permutation_map _ (Permutation_sym Hperm))).
      rewrite product_rows_keys. exact (proj2 (first_seen_In _ _) H).
  - intros row Hin. apply (Permutation_in _ Hperm) in Hin.
    apply product_rows_In in Hin as [_ ->]. reflexivity.
  - intros Hpos. split.
    + apply (sort_reverse_sorted pd_total_revenue fltb PrimFloat.leb comparable).
      * exact float_lt_le.
      * exact float_not_lt_le.
      * exact float_le_trans.
      * apply List.Forall_forall. intros row Hin.
        apply (group_revenue_comparable data); assumption.
    + exists (product_rows data). split; [apply product_rows_keys |].
      split; [exact Hperm |]. intros v.
      apply (sort_reverse_stable pd_total_revenue fltb (fun x => PrimFloat.eqb x v)).
      intros x y. apply float_tied_not_lt.
Qed.

(** The claim C4 fails as stated: on the record that the cleaner keeps with
    the quantity [10 ** 400] the aggregation raises. *)
Lemma C4_counterexample :
  clean_sales_data [sale_with_huge_quantity] = Ok [huge_sale]
  /\ aggregate_sales_by_product [huge_sale]
     = Raise (OverflowError "integer division result too large for a float").
Proof. split; vm_compute; reflexivity. Qed.

(** Four products, two of them sold twice: the two products with revenue
    100 come before the two with revenue 60, each pair in the order of first
    encounter, and [region_count] counts a region once however often it
    occurs. *)
Example product_aggregation_example :
  List.map (fun row => (pd_product_name row, pd_total_sales row,
                        pd_total_revenue row, pd_region_count row))
    (match aggregate_sales_by_product
             [ mk_sale "Cable" 60%float "2024-01-02" "North" "C1" 1;
               mk_sale "Widget" 50%float "2024-01-03" "North" "C2" 1;
               mk_sale "Gadget" 100%float "2024-01-04" "South" "C3" 2;
               mk_sale "Widget" 50%float "2024-01-05" "North" "C4" 3;
               mk_sale "Adapter" 30%float "2024-01-06" "East" "C5" 1;
               mk_sale "Adapter" 30%float "2024-01-07" "West" "C6" 1 ]
     with Ok rows => rows | Raise _ => [] end)
  = [ ("Widget", 2, 100%float, 1); ("Gadget", 1, 100%float, 1);
      ("Cable", 1, 60%float, 1); ("Adapter", 2, 60%float, 2) ].
Proof. vm_compute. reflexivity. Qed.

(** ** Groups partition the input *)

Section Partition.
Context {R : Type}.
Variable key : R -> string.

Lemma group_Permutation k (l l' : list R) :
  Permutation l l' -> Permutation (group key k l) (group key k l').
Proof.
  unfold group. induction 1 as [|x l l' _ IH|x y l|l l' l'' _ IH1 _ IH2]; simpl.
  - constructor.
  - destruct (String.eqb (key x) k); [apply perm_skip |]; exact IH.
  - destruct (String.eqb (key x) k), (String.eqb (key y) k);
      try reflexivity. apply perm_swap.
  - etransitivity; eassumption.
Qed.

Lemma group_of_rest k k' (l : list R) :
  k <> k' ->
  group key k' (List.filter (fun r => negb (String.eqb (key r) k)) l)
  = group key k' l.
Proof.
  intros Hne. unfold group. induction l as [|r l IH]; simpl.
  - reflexivity.
  - destruct (String.eqb_spec (key r) k) as [Hk|Hk]; simpl.
    + destruct (String.eqb_spec (key r) k'); [congruence | exact IH].
    + destruct (String.eqb (key r) k'); [f_equal |]; exact IH.
Qed.

Lemma split_Permutation (f : R -> bool) (l : list R) :
  Permutation l (List.filter f l ++ List.filter (fun r => negb (f r)) l).
Proof.
  induction l as [|r l IH]; simpl.
  - constructor.
  - destruct (f r); simpl.
    + apply perm_skip. exact IH.
    + apply Permutation_cons_app. exact IH.
Qed.

(** The input is, up to order, its groups one after the other. *)
Lemma groups_Permutation (ks : list string) : forall l : list R,
  List.NoDup ks -> (forall r, In r l -> In (key r) ks) ->
  Permutation l (concat (List.map (fun k => group key k l) ks)).
Proof.
  induction ks as [|k ks IH]; intros l Hnd Hin.
  - destruct l as [|r l]; [constructor |]. destruct (Hin r (or_introl eq_refl)).
  - apply List.NoDup_cons_iff in Hnd as [Hk Hnd]. simpl.
    rewrite (split_Permutation (fun r => String.eqb (key r) k) l) at 1.
    apply Permutation_app_head.
    set (rest := List.filter (fun r => negb (String.eqb (key r) k)) l).
    rewrite (IH rest Hnd).
    + apply Permutation_refl'. f_equal. apply map_ext_in. intros k' Hk'.
      apply group_of_rest. intros ->. contradiction.
    + intros r Hr. apply filter_In in Hr as [Hr Hne].
      destruct (Hin r Hr) as [Heq|H]; [| exact H].
      cbv beta in Hne. rewrite <- Heq, String.eqb_refl in Hne. discriminate.
Qed.

Lemma groups_of_first_seen (l : list R) :
  Permutation l
    (concat (List.map (fun k => group key k l) (first_seen (List.map key l)))).
Proof.
  apply groups_Permutation; [apply first_seen_NoDup |].
  intros r Hr. apply first_seen_In, in_map, Hr.
Qed.
End Partition.

Lemma zsum_concat_lengths {A : Type} (gs : list (list A)) :
  zsum (List.map (fun g => Z.of_nat (length g)) gs) = Z.of_nat (length (concat gs)).
Proof.
  induction gs as [|g gs IH]; simpl; [reflexivity |].
  rewrite IH, length_app. lia.
Qed.

(** ** Sums that do not round *)

Lemma digits2_pos_bounds m :
  2 ^ (Zpos (digits2_pos m) - 1) <= Zpos m < 2 ^ Zpos (digits2_pos m).
Proof.
  induction m as [m IH|m IH|]; cbn [digits2_pos].
  - rewrite Pos2Z.inj_succ.
    replace (Z.succ (Zpos (digits2_pos m)) - 1)
      with (Z.succ (Zpos (digits2_pos m) - 1)) by lia.
    rewrite !Z.pow_succ_r by lia. lia.
  - rewrite Pos2Z.inj_succ.
    replace (Z.succ (Zpos (digits2_pos m)) - 1)
      with (Z.succ (Zpos (digits2_pos m) - 1)) by lia.
    rewrite !Z.pow_succ_r by lia. lia.
  - simpl. lia.
Qed.

(** The mantissa and the exponent of a finite float: the exponent is at
    least -1074, the mantissa has at most 53 bits, and exactly 53 above the
    least exponent. *)
Lemma finite_canonical x s m e :
  Prim2SF x = S754_finite s m e ->
  -1074 <= e /\ Zpos m < 2 ^ 53 /\ (-1074 < e -> 2 ^ 52 <= Zpos m).
Proof.
  intros Hx. pose proof (Prim2SF_valid x) as Hv. rewrite Hx in Hv.
  unfold SpecFloat.valid_binary, bounded, canonical_mantissa, fexp in Hv.
  apply andb_true_iff in Hv as [Hc _]. apply Z.eqb_eq in Hc.
  change (SpecFloat.emin prec emax) with (-1074) in Hc.
  change prec with 53 in Hc.
  pose proof (digits2_pos_bounds m) as [Hlo Hhi].
  set (d := Zpos (digits2_pos m)) in *.
  assert (0 < d) as Hd by (unfold d; lia).
  split; [lia |]. split.
  - assert (d <= 53) as Hle by lia.
    eapply Z.lt_le_trans; [exact Hhi |]. apply Z.pow_le_mono_r; lia.
  - intros He. assert (d = 53) as Hd53 by lia. rewrite Hd53 in Hlo. exact Hlo.
Qed.

(** Two finite floats with the same value are equal for [==]. *)
Lemma scaled_eqb x y :
  is_finite x = true -> is_finite y = true -> scaled x = scaled y ->
  (x =? y)%float = true.
Proof.
  unfold is_finite, scaled. rewrite FloatAxioms.eqb_spec. unfold SFeqb.
  destruct (Prim2SF x) as [sx|sx| |sx mx ex] eqn:Hx; try discriminate;
    destruct (Prim2SF y) as [sy|sy| |sy my ey] eqn:Hy; try discriminate;
    intros _ _ Hv.
  - reflexivity.
  - exfalso. destruct (finite_canonical y _ _ _ Hy) as (He & _).
    assert (0 < 2 ^ (ey + 1074)) by (apply Z.pow_pos_nonneg; lia).
    destruct sy; nia.
  - exfalso. destruct (finite_canonical x _ _ _ Hx) as (He & _).
    assert (0 < 2 ^ (ex + 1074)) by (apply Z.pow_pos_nonneg; lia).
    destruct sx; nia.
  - destruct (finite_canonical x _ _ _ Hx) as (Hex & Hmx & Hnx).
    destruct (finite_canonical y _ _ _ Hy) as (Hey & Hmy & Hny).
    assert (0 < 2 ^ (ex + 1074)) as Hpx by (apply Z.pow_pos_nonneg; lia).
    assert (0 < 2 ^ (ey + 1074)) as Hpy by (apply Z.pow_pos_nonneg; lia).
    assert (sx = sy) as <- by (destruct sx, sy; try reflexivity; exfalso; nia).
    assert (Zpos mx * 2 ^ (ex + 1074) = Zpos my * 2 ^ (ey + 1074)) as Hm
      by (destruct sx; lia).
    assert (ex = ey) as <-.
    { destruct (Z.lt_trichotomy ex ey) as [Hlt|[Heq|Hgt]]; [| exact Heq |]; exfalso.
      - replace (ey + 1074) with ((ex + 1074) + (ey - ex)) in Hm by lia.
        rewrite (Z.pow_add_r 2 (ex + 1074) (ey - ex)) in Hm by lia.
        assert (2 ^ 1 <= 2 ^ (ey - ex)) as H2 by (apply Z.pow_le_mono_r; lia).
        specialize (Hny ltac:(lia)).
        assert (Zpos mx = Zpos my * 2 ^ (ey - ex)) as Hmx'.
        { apply (Z.mul_reg_r _ _ (2 ^ (ex + 1074))); [lia |]. rewrite Hm. ring. }
        change (2 ^ 1) with 2 in H2. change (2 ^ 53) with (2 * 2 ^ 52) in Hmx. nia.
      - replace (ex + 1074) with ((ey + 1074) + (ex - ey)) in Hm by lia.
        rewrite (Z.pow_add_r 2 (ey + 1074) (ex - ey)) in Hm by lia.
        assert (2 ^ 1 <= 2 ^ (ex - ey)) as H2 by (apply Z.pow_le_mono_r; lia).
        specialize (Hnx ltac:(lia)).
        assert (Zpos my = Zpos mx * 2 ^ (ex - ey)) as Hmy'.
        { apply (Z.mul_reg_r _ _ (2 ^ (ey + 1074))); [lia |]. rewrite <- Hm. ring. }
        change (2 ^ 1) with 2 in H2. change (2 ^ 53) with (2 * 2 ^ 52) in Hmy. nia. }
    assert (mx = my) as <-.
    { apply Z.mul_reg_r in Hm; [congruence | lia]. }
    simpl. rewrite Z.compare_refl, Pos.compare_cont_refl.
    destruct sx; reflexivity.
Qed.

Lemma added_exactly_spec xs :
  added_exactly xs = true ->
  is_finite (fsum xs) = true /\ scaled (fsum xs) = zsum (List.map scaled xs).
Proof.
  unfold added_exactly. intros H.
  apply andb_true_iff in H as [H Hsum]. apply andb_true_iff in H as [_ Hfin].
  apply Z.eqb_eq in Hsum. auto.
Qed.

(** Two lists of floats that are added exactly and have the same terms, in
    any order, have equal sums. *)
Lemma added_exactly_Permutation xs ys :
  Permutation xs ys -> added_exactly xs = true -> added_exactly ys = true ->
  (fsum ys =? fsum xs)%float = true.
Proof.
  intros Hperm Hx Hy.
  apply added_exactly_spec in Hx as [Hfx Hsx], Hy as [Hfy Hsy].
  apply scaled_eqb; [assumption | assumption |].
  rewrite Hsx, Hsy. symmetry. apply zsum_Permutation, Permutation_map, Hperm.
Qed.

Lemma zsum_concat (gs : list (list Z)) :
  zsum (List.map zsum gs) = zsum (concat gs).
Proof.
  induction gs as [|g gs IH]; simpl; [reflexivity |].
  rewrite zsum_app, IH. reflexivity.
Qed.

(** ** Totals over the rows of an aggregation *)

Section Totals.
Context {F : Type} {AF : Arith F}.

Lemma region_rows_total_sales (data : list (sales_record F)) :
  zsum (List.map rg_total_sales (region_rows data)) = Z.of_nat (length data).
Proof.
  unfold region_rows. rewrite map_map. simpl.
  rewrite <- (map_map (fun k => group region k data)
                      (fun g => Z.of_nat (length g))).
  rewrite zsum_concat_lengths. f_equal. symmetry.
  apply Permutation_length, groups_of_first_seen.
Qed.

Lemma product_rows_total_sales (data : list (sales_record F)) :
  zsum (List.map pd_total_sales (product_rows data)) = Z.of_nat (length data).
Proof.
  unfold product_rows. rewrite map_map. simpl.
  rewrite <- (map_map (fun k => group product_name k data)
                      (fun g => Z.of_nat (length g))).
  rewrite zsum_concat_lengths. f_equal. symmetry.
  apply Permutation_length, groups_of_first_seen.
Qed.

(** A sum over the records is the sum of its parts over the groups. *)
Lemma zsum_by_group (key : sales_record F -> string) (h : sales_record F -> Z)
    (data : list (sales_record F)) :
  zsum (List.map (fun k => zsum (List.map h (group key k data)))
          (first_seen (List.map key data)))
  = zsum (List.map h data).
Proof.
  rewrite <- (map_map (fun k => List.map h (group key k data)) zsum).
  rewrite zsum_concat.
  rewrite <- (map_map (fun k => group key k data) (List.map h)).
  rewrite <- concat_map.
  apply zsum_Permutation, Permutation_map, Permutation_sym, groups_of_first_seen.
Qed.
End Totals.

(** The revenues of the groups, each added exactly, add up exactly to the
    revenue of the input. *)
Lemma exact_totals (key : sales_record float -> string)
    (data : list (sales_record float)) (totals : list float) :
  Permutation totals
    (List.map (fun k => fsum (List.map sales_amount (group key k data)))
       (first_seen (List.map key data))) ->
  added_exactly (List.map sales_amount data) = true ->
  (forall k, In k (List.map key data) ->
     added_exactly (List.map sales_amount (group key k data)) = true) ->
  added_exactly totals = true ->
  (fsum totals =? fsum (List.map sales_amount data))%float = true.
Proof.
  intros Hperm Hdata Hgroups Htotals.
  apply added_exactly_spec in Hdata as [Hfd Hsd], Htotals as [Hft Hst].
  apply scaled_eqb; [assumption | assumption |].
  rewrite Hst, Hsd, (zsum_Permutation _ _ (Permutation_map scaled Hperm)).
  rewrite !map_map.
  rewrite <- (zsum_by_group key (fun r => scaled (sales_amount r)) data).
  f_equal. apply map_ext_in. intros k Hk.
  rewrite <- (map_map sales_amount scaled).
  apply (added_exactly_spec _ (Hgroups k (proj1 (first_seen_In _ _) Hk))).
Qed.

(** C10, as amended.  Whenever the two aggregations return, the
    [total_sales] of the rows of the region aggregation add up to the number
    of records, and so do those of the product aggregation.  The
    [total_revenue] of the rows of either aggregation add up to the sum of
    [sales_amount] over the records, equal for [==], when the float sums
    involved are exact: the sum over the records, the sum of each group, and
    the sum over the rows. *)
Theorem C10_totals_of_rows (data : list (sales_record float))
    (by_region : list (region_aggregate float))
    (by_product : list (product_aggregate float)) :
  aggregate_sales_by_region data = Ok by_region ->
  aggregate_sales_by_product data = Ok by_product ->
  zsum (List.map rg_total_sales by_region) = Z.of_nat (length data)
  /\ zsum (List.map pd_total_sales by_product) = Z.of_nat (length data)
  /\ (added_exactly (List.map sales_amount data) = true ->
      (forall row, In row by_region ->
         added_exactly
           (List.map sales_amount (group region (rg_region row) data)) = true) ->
      added_exactly (List.map rg_total_revenue by_region) = true ->
      (fsum (List.map rg_total_revenue by_region)
       =? fsum (List.map sales_amount data))%float = true)
  /\ (added_exactly (List.map sales_amount data) = true ->
      (forall row, In row by_product ->
         added_exactly
           (List.map sales_amount
              (group product_name (pd_product_name row) data)) = true) ->
      added_exactly (List.map pd_total_revenue by_product) = true ->
      (fsum (List.map pd_total_revenue by_product)
       =? fsum (List.map sales_amount data))%float = true).
Proof.
  intros Hr Hp.
  rewrite (aggregate_sales_by_region_rows _ _ Hr),
    (aggregate_sales_by_product_rows _ _ Hp).
  pose proof (sort_reverse_Permutation pd_total_revenue fltb (product_rows data))
    as Hperm.
  split; [apply region_rows_total_sales |]. split; [| split].
  - rewrite (zsum_Permutation _ _ (Permutation_map pd_total_sales Hperm)).
    apply product_rows_total_sales.
  - intros Hdata Hgroups Hrows.
    apply (exact_totals region); try assumption.
    + unfold region_rows. rewrite map_map. reflexivity.
    + intros k Hk.
      specialize (Hgroups (region_row (region_group_totals k (group region k data)))).
      apply Hgroups. unfold region_rows. apply in_map_iff. exists k.
      split; [reflexivity | apply first_seen_In, Hk].
  - intros Hdata Hgroups Hrows.
    apply (exact_totals product_name); try assumption.
    + rewrite (Permutation_map pd_total_revenue Hperm).
      unfold product_rows. rewrite map_map. reflexivity.
    + intros k Hk.
      specialize (Hgroups (product_row (product_group_totals k
                                          (group product_name k data)))).
      apply Hgroups.
      apply (Permutation_in _ (Permutation_sym Hperm)).
      unfold product_rows. apply in_map_iff. exists k.
      split; [reflexivity | apply first_seen_In, Hk].
Qed.

(** The claim C10 fails as stated: in binary64 the revenue of the one region
    row is 0.1 + 0.2 + 0.4 = 0.7000000000000001, the revenues of the two
    product rows are 0.5 and 0.2 and add up to 0.7. *)
Lemma C10_counterexample :
  exists by_region by_product,
    aggregate_sales_by_region rounding_sales = Ok by_region
    /\ aggregate_sales_by_product rounding_sales = Ok by_product
    /\ fsum (List.map rg_total_revenue by_region) = 0.70000000000000007%float
    /\ fsum (List.map pd_total_revenue by_product) = 0.7%float
    /\ PrimFloat.eqb (fsum (List.map rg_total_revenue by_region))
                     (fsum (List.map pd_total_revenue by_product)) = false.
Proof.
  eexists. eexists.
  split; [vm_compute; reflexivity |].
  split; [vm_compute; reflexivity |].
  repeat split; vm_compute; reflexivity.
Qed.

(** Amounts whose sums do not round: 19.5, 0.25 and 1024. *)
Lemma C10_witness :
  zsum (List.map rg_total_sales (region_rows exact_sales)) = 3
  /\ zsum (List.map pd_total_sales
             (sort_reverse pd_total_revenue fltb (product_rows exact_sales))) = 3
  /\ (fsum (List.map rg_total_revenue (region_rows exact_sales))
      =? fsum (List.map sales_amount exact_sales))%float = true
  /\ (fsum (List.map pd_total_revenue
              (sort_reverse pd_total_revenue fltb (product_rows exact_sales)))
      =? fsum (List.map sales_amount exact_sales))%float = true.
Proof.
  destruct (C10_totals_of_rows exact_sales (region_rows exact_sales)
              (sort_reverse pd_total_revenue fltb (product_rows exact_sales)))
    as (H1 & H2 & H3 & H4); [vm_compute; reflexivity .. |].
  split; [exact H1 |]. split; [exact H2 |]. split.
  - apply H3; [vm_compute; reflexivity | | vm_compute; reflexivity].
    intros row [<-|[]]. vm_compute. reflexivity.
  - apply H4; [vm_compute; reflexivity | | vm_compute; reflexivity].
    intros row [<-|[<-|[]]]; vm_compute; reflexivity.
Defined.

(** ** Rows by key, and the order of the input *)

Section FindByKey.
Context {A : Type}.
Variable key : A -> string.

Lemma find_key_map (f : string -> A) (k : string) (ks : list string) :
  (forall k', key (f k') = k') ->
  find_key key k (List.map f ks)
  = if existsb (String.eqb k) ks then Some (f k) else None.
Proof.
  intros Hf. unfold find_key. induction ks as [|k0 ks IH]; simpl.
  - reflexivity.
  - rewrite Hf, (String.eqb_sym k k0).
    destruct (String.eqb_spec k0 k) as [->|_]; [reflexivity | exact IH].
Qed.

Lemma find_key_Permutation (k : string) (l l' : list A) :
  Permutation l l' -> List.NoDup (List.map key l) ->
  find_key key k l = find_key key k l'.
Proof.
  unfold find_key.
  induction 1 as [|x l l' _ IH|x y l|l l' l'' H1 IH1 _ IH2]; intros Hnd.
  - reflexivity.
  - simpl in *. apply List.NoDup_cons_iff in Hnd as [_ Hnd].
    destruct (String.eqb (key x) k); [reflexivity | apply IH, Hnd].
  - simpl in *. apply List.NoDup_cons_iff in Hnd as [Hy _].
    destruct (String.eqb_spec (key x) k) as [Hx|_];
      destruct (String.eqb_spec (key y) k) as [Hy'|_]; try reflexivity.
    exfalso. apply Hy. left. congruence.
  - rewrite IH1 by exact Hnd. apply IH2.
    exact (Permutation_NoDup (Permutation_map key H1) Hnd).
Qed.
End FindByKey.

Lemma existsb_Permutation {A : Type} (f : A -> bool) (l l' : list A) :
  Permutation l l' -> existsb f l = existsb f l'.
Proof.
  induction 1 as [|x l l' _ IH|x y l|l l' l'' _ IH1 _ IH2]; simpl.
  - reflexivity.
  - rewrite IH. reflexivity.
  - destruct (f x), (f y); reflexivity.
  - congruence.
Qed.

Lemma existsb_first_seen (k : string) (ks : list string) :
  existsb (String.eqb k) (first_seen ks) = existsb (String.eqb k) ks.
Proof.
  apply eq_true_iff_eq. rewrite !existsb_exists. split.
  - intros [x [Hx He]]. exists x. split; [| exact He].
    exact (proj1 (first_seen_In _ _) Hx).
  - intros [x [Hx He]]. exists x. split; [| exact He].
    exact (proj2 (first_seen_In _ _) Hx).
Qed.

Section OrderOfInput.
Context {F : Type} {AF : Arith F}.
Implicit Types data : list (sales_record F).

Lemma region_row_by_key data rows k :
  aggregate_sales_by_region data = Ok rows ->
  find_key rg_region k rows
  = if existsb (String.eqb k) (List.map region data)
    then Some (region_of_group k (group region k data)) else None.
Proof.
  intros H. rewrite (aggregate_sales_by_region_rows _ _ H). unfold region_rows.
  rewrite (find_key_map rg_region
             (fun k => region_row (region_group_totals k (group region k data))))
    by reflexivity.
  rewrite existsb_first_seen. reflexivity.
Qed.

Lemma product_row_by_key data rows k :
  aggregate_sales_by_product data = Ok rows ->
  find_key pd_product_name k rows
  = if existsb (String.eqb k) (List.map product_name data)
    then Some (product_of_group k (group product_name k data)) else None.
Proof.
  intros H. rewrite (aggregate_sales_by_product_rows _ _ H).
  rewrite (find_key_Permutation pd_product_name k _ (product_rows data)).
  - unfold product_rows.
    rewrite (find_key_map pd_product_name
               (fun k => product_row
                           (product_group_totals k (group product_name k data))))
      by reflexivity.
    rewrite existsb_first_seen. reflexivity.
  - apply sort_reverse_Permutation.
  - apply (Permutation_NoDup
             (Permutation_map _ (Permutation_sym
                (sort_reverse_Permutation pd_total_revenue fltb (product_rows data))))).
    rewrite product_rows_keys. apply first_seen_NoDup.
Qed.

Lemma region_counts_Permutation k (g g' : list (sales_record F)) :
  Permutation g g' ->
  region_counts (region_of_group k g) = region_counts (region_of_group k g').
Proof.
  intros Hg. unfold region_counts, region_of_group. simpl.
  rewrite (Permutation_length Hg),
    (zsum_Permutation _ _ (Permutation_map quantity Hg)).
  reflexivity.
Qed.

Lemma product_counts_Permutation k (g g' : list (sales_record F)) :
  Permutation g g' ->
  product_counts (product_of_group k g) = product_counts (product_of_group k g').
Proof.
  intros Hg. unfold product_counts, product_of_group. simpl.
  rewrite (Permutation_length Hg),
    (zsum_Permutation _ _ (Permutation_map quantity Hg)).
  rewrite (list_to_set_perm_L (C:=gset string) _ _ (Permutation_map region Hg)).
  reflexivity.
Qed.

(** Whether the averages of a group can be taken does not depend on the
    order of the records, so an aggregation that returns for a list returns
    for its permutations. *)
Lemma group_overflows_Permutation (key : sales_record F -> string) k data data' :
  Permutation data data' ->
  group_overflows key k data' = group_overflows key k data.
Proof.
  intros Hperm. unfold group_overflows.
  pose proof (group_Permutation key k _ _ Hperm) as Hg.
  rewrite (Permutation_length Hg),
    (zsum_Permutation _ _ (Permutation_map quantity Hg)).
  reflexivity.
Qed.

Lemma aggregate_sales_by_region_Permutation data data' rows :
  Permutation data data' -> aggregate_sales_by_region data = Ok rows ->
  exists rows', aggregate_sales_by_region data' = Ok rows'.
Proof.
  intros Hperm H. apply aggregate_sales_by_region_returns. intros k Hk.
  rewrite (group_overflows_Permutation region k _ _ Hperm).
  apply (proj1 (aggregate_sales_by_region_returns data)); [eauto |].
  exact (Permutation_in _ (Permutation_sym (Permutation_map region Hperm)) Hk).
Qed.

Lemma aggregate_sales_by_product_Permutation data data' rows :
  Permutation data data' -> aggregate_sales_by_product data = Ok rows ->
  exists rows', aggregate_sales_by_product data' = Ok rows'.
Proof.
  intros Hperm H. apply aggregate_sales_by_product_returns. intros k Hk.
  rewrite (group_overflows_Permutation product_name k _ _ Hperm).
  apply (proj1 (aggregate_sales_by_product_returns data)); [eauto |].
  exact (Permutation_in _ (Permutation_sym (Permutation_map product_name Hperm)) Hk).
Qed.
End OrderOfInput.

(** The revenue and its average in the row of a key. *)
Lemma region_revenue_by_key (data : list (sales_record float)) rows k row :
  aggregate_sales_by_region data = Ok rows ->
  find_key rg_region k rows = Some row ->
  rg_total_revenue row = fsum (List.map sales_amount (group region k data))
  /\ rg_total_sales row = Z.of_nat (length (group region k data))
  /\ rg_avg_sale_amount row
     = NumFloat (rg_total_revenue row / of_int (rg_total_sales row))%float.
Proof.
  intros H Hfind. rewrite (region_row_by_key _ _ k H) in Hfind.
  destruct (existsb _ _) eqn:E; [| discriminate]. injection Hfind as <-.
  apply existsb_exists in E as [k' [Hk' He]]. apply String.eqb_eq in He. subst k'.
  pose proof (length_pos_of_nonempty _ (group_nonempty region k data Hk')) as Hpos.
  apply Z.ltb_lt in Hpos.
  unfold region_of_group, region_row, mean_float. simpl. rewrite Hpos.
  repeat split.
Qed.

Lemma product_revenue_by_key (data : list (sales_record float)) rows k row :
  aggregate_sales_by_product data = Ok rows ->
  find_key pd_product_name k rows = Some row ->
  pd_total_revenue row = fsum (List.map sales_amount (group product_name k data))
  /\ pd_total_sales row = Z.of_nat (length (group product_name k data))
  /\ pd_avg_sale_amount row
     = NumFloat (pd_total_revenue row / of_int (pd_total_sales row))%float.
Proof.
  intros H Hfind. rewrite (product_row_by_key _ _ k H) in Hfind.
  destruct (existsb _ _) eqn:E; [| discriminate]. injection Hfind as <-.
  apply existsb_exists in E as [k' [Hk' He]]. apply String.eqb_eq in He. subst k'.
  pose proof (length_pos_of_nonempty _ (group_nonempty product_name k data Hk'))
    as Hpos.
  apply Z.ltb_lt in Hpos.
  unfold product_of_group, product_row, mean_float. simpl. rewrite Hpos.
  repeat split.
Qed.

(** C9, as amended.  For every list of records on which the aggregations
    return and every permutation of it, both aggregations return on the
    permutation, and return, for each key, rows that agree on the key, on
    [total_sales], [total_quantity], [product_count] or [region_count], and
    on [avg_quantity].  The row of a key is the same, [total_revenue] and
    [avg_sale_amount] included, when the permutation keeps the records of
    that key in their order.  In general [total_revenue] is the float sum of
    the key's amounts in the order of the list, and [avg_sale_amount] its
    quotient by [total_sales]: the two revenues of a key are equal for [==]
    when both sums are exact. *)
Theorem C9_order_of_input (data data' : list (sales_record float))
    (by_region : list (region_aggregate float))
    (by_product : list (product_aggregate float)) :
  Permutation data data' ->
  aggregate_sales_by_region data = Ok by_region ->
  aggregate_sales_by_product data = Ok by_product ->
  exists by_region' by_product',
    aggregate_sales_by_region data' = Ok by_region'
    /\ aggregate_sales_by_product data' = Ok by_product'
    /\ (forall k,
          option_map region_counts (find_key rg_region k by_region')
          = option_map region_counts (find_key rg_region k by_region))
    /\ (forall k,
          option_map product_counts (find_key pd_product_name k by_product')
          = option_map product_counts (find_key pd_product_name k by_product))
    /\ (forall k,
          group region k data' = group region k data ->
          find_key rg_region k by_region' = find_key rg_region k by_region)
    /\ (forall k,
          group product_name k data' = group product_name k data ->
          find_key pd_product_name k by_product'
          = find_key pd_product_name k by_product)
    /\ (forall k row row',
          find_key rg_region k by_region = Some row ->
          find_key rg_region k by_region' = Some row' ->
          rg_total_revenue row = fsum (List.map sales_amount (group region k data))
          /\ rg_total_revenue row'
             = fsum (List.map sales_amount (group region k data'))
          /\ rg_avg_sale_amount row
             = NumFloat (rg_total_revenue row / of_int (rg_total_sales row))%float
          /\ rg_avg_sale_amount row'
             = NumFloat (rg_total_revenue row' / of_int (rg_total_sales row))%float
          /\ (added_exactly (List.map sales_amount (group region k data)) = true ->
              added_exactly (List.map sales_amount (group region k data')) = true ->
              (rg_total_revenue row' =? rg_total_revenue row)%float = true))
    /\ (forall k row row',
          find_key pd_product_name k by_product = Some row ->
          find_key pd_product_name k by_product' = Some row' ->
          pd_total_revenue row
          = fsum (List.map sales_amount (group product_name k data))
          /\ pd_total_revenue row'
             = fsum (List.map sales_amount (group product_name k data'))
          /\ pd_avg_sale_amount row
             = NumFloat (pd_total_revenue row / of_int (pd_total_sales row))%float
          /\ pd_avg_sale_amount row'
             = NumFloat (pd_total_revenue row' / of_int (pd_total_sales row))%float
          /\ (added_exactly
                (List.map sales_amount (group product_name k data)) = true ->
              added_exactly
                (List.map sales_amount (group product_name k data')) = true ->
              (pd_total_revenue row' =? pd_total_revenue row)%float = true)).
Proof.
  intros Hperm Hrr Hpr.
  destruct (aggregate_sales_by_region_Permutation _ _ _ Hperm Hrr) as [rr' Hrr'].
  destruct (aggregate_sales_by_product_Permutation _ _ _ Hperm Hpr) as [pr' Hpr'].
  exists rr', pr'. split; [exact Hrr' |]. split; [exact Hpr' |].
  assert (forall k, existsb (String.eqb k) (List.map region data')
                    = existsb (String.eqb k) (List.map region data)) as Hreg.
  { intros k. apply existsb_Permutation, Permutation_map, Permutation_sym, Hperm. }
  assert (forall k, existsb (String.eqb k) (List.map product_name data')
                    = existsb (String.eqb k) (List.map product_name data)) as Hprod.
  { intros k. apply existsb_Permutation, Permutation_map, Permutation_sym, Hperm. }
  assert (forall k, Permutation (group region k data') (group region k data)) as Hgr.
  { intros k. apply group_Permutation, Permutation_sym, Hperm. }
  assert (forall k, Permutation (group product_name k data')
                                (group product_name k data)) as Hgp.
  { intros k. apply group_Permutation, Permutation_sym, Hperm. }
  split; [| split; [| split; [| split; [| split]]]].
  - intros k. rewrite (region_row_by_key _ _ k Hrr), (region_row_by_key _ _ k Hrr'), Hreg.
    destruct (existsb _ _); [| reflexivity]. simpl. f_equal.
    apply region_counts_Permutation, Hgr.
  - intros k.
    rewrite (product_row_by_key _ _ k Hpr), (product_row_by_key _ _ k Hpr'), Hprod.
    destruct (existsb _ _); [| reflexivity]. simpl. f_equal.
    apply product_counts_Permutation, Hgp.
  - intros k Hk.
    rewrite (region_row_by_key _ _ k Hrr), (region_row_by_key _ _ k Hrr'), Hreg, Hk.
    reflexivity.
  - intros k Hk.
    rewrite (product_row_by_key _ _ k Hpr), (product_row_by_key _ _ k Hpr'), Hprod, Hk.
    reflexivity.
  - intros k row row' Hrow Hrow'.
    destruct (region_revenue_by_key _ _ _ _ Hrr Hrow) as (H1 & H2 & H3).
    destruct (region_revenue_by_key _ _ _ _ Hrr' Hrow') as (H1' & H2' & H3').
    rewrite H2', (Permutation_length (Hgr k)), <- H2 in H3'.
    repeat (split; [assumption |]).
    intros He He'. rewrite H1, H1'.
    apply added_exactly_Permutation; [| assumption | assumption].
    apply Permutation_map, Permutation_sym, Hgr.
  - intros k row row' Hrow Hrow'.
    destruct (product_revenue_by_key _ _ _ _ Hpr Hrow) as (H1 & H2 & H3).
    destruct (product_revenue_by_key _ _ _ _ Hpr' Hrow') as (H1' & H2' & H3').
    rewrite H2', (Permutation_length (Hgp k)), <- H2 in H3'.
    repeat (split; [assumption |]).
    intros He He'. rewrite H1, H1'.
    apply added_exactly_Permutation; [| assumption | assumption].
    apply Permutation_map, Permutation_sym, Hgp.
Qed.

(** The claim C9 fails as stated: in binary64 the revenue of region North is
    0.1 + 0.2 + 0.3 = 0.6000000000000001 for the list and
    0.3 + 0.2 + 0.1 = 0.6 for the list in the opposite order, and so for the
    product. *)
Lemma C9_counterexample :
  Permutation ordered_sales reordered_sales
  /\ exists a a' b b',
      aggregate_sales_by_region ordered_sales = Ok [a]
      /\ aggregate_sales_by_region reordered_sales = Ok [a']
      /\ aggregate_sales_by_product ordered_sales = Ok [b]
      /\ aggregate_sales_by_product reordered_sales = Ok [b']
      /\ rg_region a = "North" /\ rg_region a' = "North"
      /\ pd_product_name b = "Widget" /\ pd_product_name b' = "Widget"
      /\ rg_total_revenue a = 0.60000000000000009%float
      /\ rg_total_revenue a' = 0.6%float
      /\ PrimFloat.eqb (rg_total_revenue a) (rg_total_revenue a') = false
      /\ PrimFloat.eqb (pd_total_revenue b) (pd_total_revenue b') = false
      /\ a <> a' /\ b <> b'.
Proof.
  split; [apply Permutation_rev |].
  do 4 eexists.
  do 4 (split; [vm_compute; reflexivity |]).
  repeat split; try (vm_compute; reflexivity); intros H.
  - apply (f_equal rg_total_revenue) in H. vm_compute in H.
    apply (f_equal (PrimFloat.eqb 0.6%float)) in H. vm_compute in H. discriminate.
  - apply (f_equal pd_total_revenue) in H. vm_compute in H.
    apply (f_equal (PrimFloat.eqb 0.6%float)) in H. vm_compute in H. discriminate.
Qed.

(** The three sales whose amounts add exactly, and the same sales in the
    opposite order: the revenue of North is 1043.75 both times. *)
Lemma C9_witness :
  added_exactly (List.map sales_amount (group region "North" exact_sales)) = true
  /\ added_exactly
       (List.map sales_amount (group region "North" (List.rev exact_sales))) = true
  /\ exists by_region' by_product',
      aggregate_sales_by_region (List.rev exact_sales) = Ok by_region'
      /\ aggregate_sales_by_product (List.rev exact_sales) = Ok by_product'
      /\ (forall k,
            option_map region_counts (find_key rg_region k by_region')
            = option_map region_counts
                (find_key rg_region k (region_rows exact_sales)))
      /\ (forall row row',
            find_key rg_region "North" (region_rows exact_sales) = Some row ->
            find_key rg_region "North" by_region' = Some row' ->
            rg_total_revenue row = 1043.75%float
            /\ (rg_total_revenue row' =? rg_total_revenue row)%float = true).
Proof.
  assert (added_exactly (List.map sales_amount (group region "North" exact_sales))
          = true) as He by (vm_compute; reflexivity).
  assert (added_exactly
            (List.map sales_amount (group region "North" (List.rev exact_sales)))
          = true) as He' by (vm_compute; reflexivity).
  split; [exact He |]. split; [exact He' |].
  destruct (C9_order_of_input exact_sales (List.rev exact_sales)
              (region_rows exact_sales)
              (sort_reverse pd_total_revenue fltb (product_rows exact_sales))
              (Permutation_rev _))
    as (rr' & pr' & H1 & H2 & H3 & _ & _ & _ & H7 & _);
    [vm_compute; reflexivity .. |].
  exists rr', pr'. repeat (split; [assumption |]).
  intros row row' Hrow Hrow'.
  destruct (H7 "North" row row' Hrow Hrow') as (Hr & _ & _ & _ & Heq).
  split; [rewrite Hr; vm_compute; reflexivity | exact (Heq He He')].
Defined.

(** ** The validator *)

(** C6. [validate_data] raises if and only if [sales_records == 0] or
    [total_revenue <= 0] or [regions == 0] or [products == 0]; the checks run
    in this order and the first that fails decides the error; otherwise the
    success message is returned.  The all-zero summary fails the first check
    and the summary 5, 120.5, 2, 3 passes. *)
Theorem C6_validate_data (summary : pipeline_summary) :
  (raises (validate_data summary) = true
   <-> sales_records summary = 0
       \/ (total_revenue summary <=? 0)%float = true
       \/ regions summary = 0
       \/ products summary = 0)
  /\ (sales_records summary = 0 ->
      validate_data summary
      = Raise (ValueError "No sales records found in database"))
  /\ (sales_records summary <> 0 ->
      (total_revenue summary <=? 0)%float = true ->
      validate_data summary = Raise (ValueError "Total revenue should be positive"))
  /\ (sales_records summary <> 0 ->
      (total_revenue summary <=? 0)%float = false ->
      regions summary = 0 ->
      validate_data summary = Raise (ValueError "No regional data found"))
  /\ (sales_records summary <> 0 ->
      (total_revenue summary <=? 0)%float = false ->
      regions summary <> 0 ->
      products summary = 0 ->
      validate_data summary = Raise (ValueError "No product data found"))
  /\ (sales_records summary <> 0 ->
      (total_revenue summary <=? 0)%float = false ->
      regions summary <> 0 ->
      products summary <> 0 ->
      validate_data summary = Ok "Data validation successful")
  /\ validate_data
       {| sales_records := 0; regions := 0; products := 0; total_revenue := 0%float |}
     = Raise (ValueError "No sales records found in database")
  /\ validate_data
       {| sales_records := 5; regions := 2; products := 3;
          total_revenue := 120.5%float |}
     = Ok "Data validation successful".
Proof.
  unfold validate_data. simpl fleb.
  destruct (Z.eqb_spec (sales_records summary) 0) as [Hs|Hs];
    destruct (total_revenue summary <=? 0)%float eqn:Hrev;
    destruct (Z.eqb_spec (regions summary) 0) as [Hr|Hr];
    destruct (Z.eqb_spec (products summary) 0) as [Hp|Hp];
    simpl; repeat split; try reflexivity; try congruence; auto;
    intros [H|[H|[H|H]]]; congruence.
Qed.

(** ** Dates *)

Lemma strptime_raises_ValueError s e :
  strptime s = Raise e -> exists msg, e = ValueError msg.
Proof.
  unfold strptime.
  destruct (match_format (list_ascii_of_string s)) as [[[[y m] d] rest]|];
    [| intros [= <-]; eauto].
  destruct rest; [| intros [= <-]; eauto].
  destruct (y <? 1); [intros [= <-]; eauto |].
  destruct (days_in_month y m <? d); [intros [= <-]; eauto | discriminate].
Qed.

Lemma is_digit_in_range lo hi c :
  is_digit_in lo hi c = true -> is_digit c = true /\ lo <= digit_val c <= hi.
Proof.
  unfold is_digit_in. intros H.
  apply andb_true_iff in H as [H Hhi]. apply andb_true_iff in H as [Hd Hlo].
  split; [exact Hd | lia].
Qed.

Lemma is_digit_range c : is_digit c = true -> 0 <= digit_val c <= 9.
Proof. unfold is_digit, digit_val. lia. Qed.

Lemma parse_year_range s y r :
  parse_year s = Some (y, r) -> 0 <= y <= 9999.
Proof.
  unfold parse_year. destruct s as [|a [|b [|c [|d s]]]]; try discriminate.
  destruct (is_digit a) eqn:Ha; [| discriminate].
  destruct (is_digit b) eqn:Hb; [| discriminate].
  destruct (is_digit c) eqn:Hc; [| discriminate].
  destruct (is_digit d) eqn:Hd; [| discriminate].
  simpl. intros [= <- _].
  apply is_digit_range in Ha, Hb, Hc, Hd. unfold digits_value. simpl. lia.
Qed.

Lemma parse_month_range s m r :
  parse_month s = Some (m, r) -> 1 <= m <= 12.
Proof.
  unfold parse_month. destruct s as [|a [|b s]]; try discriminate.
  - destruct (is_digit_in 1 9 a) eqn:Ha; [| discriminate].
    intros [= <- _]. apply is_digit_in_range in Ha. lia.
  - destruct (is_digit_in 1 1 a && is_digit_in 0 2 b) eqn:H1.
    { apply andb_true_iff in H1 as [_ Hb]. apply is_digit_in_range in Hb.
      intros [= <- _]. lia. }
    destruct (is_digit_in 0 0 a && is_digit_in 1 9 b) eqn:H2.
    { apply andb_true_iff in H2 as [_ Hb]. apply is_digit_in_range in Hb.
      intros [= <- _]. lia. }
    destruct (is_digit_in 1 9 a) eqn:Ha; [| discriminate].
    intros [= <- _]. apply is_digit_in_range in Ha. lia.
Qed.

(** A date that [strptime] returns is a calendar date. *)
Lemma strptime_range s d :
  strptime s = Ok d ->
  1 <= year d <= 9999 /\ 1 <= month d <= 12 /\ day d <= days_in_month (year d) (month d).
Proof.
  unfold strptime, match_format.
  destruct (parse_year (list_ascii_of_string s)) as [[y r1]|] eqn:Hy; [| discriminate].
  destruct (expect_dash r1) as [r2|]; [| discriminate].
  destruct (parse_month r2) as [[m r3]|] eqn:Hm; [| discriminate].
  destruct (expect_dash r3) as [r4|]; [| discriminate].
  destruct (parse_day r4) as [[dd r5]|]; [| discriminate].
  destruct r5; [| discriminate].
  destruct (Z.ltb_spec y 1); [discriminate |].
  destruct (Z.ltb_spec (days_in_month y m) dd); [discriminate |].
  intros [= <-]. simpl.
  apply parse_year_range in Hy. apply parse_month_range in Hm. lia.
Qed.

Lemma all_below_spec n P :
  all_below n P = true -> forall z, 0 <= z < Z.of_nat n -> P z = true.
Proof.
  unfold all_below. rewrite forallb_forall. intros H z Hz.
  apply H. apply in_map_iff. exists (Z.to_nat z). split; [lia |].
  apply in_seq. lia.
Qed.

Lemma quarter_text m :
  1 <= m <= 12 ->
  In ("Q" +:+ str_of_int ((m - 1) / 3 + 1)) ["Q1"; "Q2"; "Q3"; "Q4"].
Proof.
  intros Hm.
  assert (all_below 13
            (fun m => (m <? 1)
                      || existsb (String.eqb ("Q" +:+ str_of_int ((m - 1) / 3 + 1)))
                           ["Q1"; "Q2"; "Q3"; "Q4"]) = true) as Hall
    by (vm_compute; reflexivity).
  pose proof (all_below_spec _ _ Hall m ltac:(lia)) as H. cbv beta in H.
  destruct (Z.ltb_spec m 1); [lia |]. rewrite orb_false_l in H.
  apply existsb_exists in H as [q [Hq He]].
  apply String.eqb_eq in He. rewrite He. exact Hq.
Qed.

(** *** The text of a parsed date *)




Lemma four_digits_text :
  all_below 10 (fun a => all_below 10 (fun b => all_below 10 (fun c =>
    all_below 10 (fun d =>
      String.eqb (pad_left 4 (str_of_int (digits_value [a; b; c; d])))
        (string_of_list_ascii
           [digit_char a; digit_char b; digit_char c; digit_char d])))))
  = true.
Proof. vm_compute. reflexivity. Qed.







(** From the year 1000 on the year has four digits, padded or not. *)
Lemma four_digit_year y :
  1000 <= y <= 9999 -> pad_left 4 (str_of_int y) = str_of_int y.
Proof.
  intros Hy.
  assert (exists a b c e,
             (1 <= a <= 9 /\ 0 <= b <= 9 /\ 0 <= c <= 9 /\ 0 <= e <= 9)
             /\ digits_value [a; b; c; e] = y) as (a & b & c & e & Hd & <-).
  { exists (y / 1000), (y / 100 mod 10), (y / 10 mod 10), (y mod 10).
    unfold digits_value. simpl.
    pose proof (Z.div_mod y 10 ltac:(lia)).
    pose proof (Z.div_mod (y / 10) 10 ltac:(lia)).
    pose proof (Z.div_mod (y / 100) 10 ltac:(lia)).
    assert (y / 100 = y / 10 / 10) as E1 by (rewrite Z.div_div by lia; reflexivity).
    assert (y / 1000 = y / 100 / 10) as E2 by (rewrite Z.div_div by lia; reflexivity).
    pose proof (Z.mod_pos_bound y 10 ltac:(lia)).
    pose proof (Z.mod_pos_bound (y / 10) 10 ltac:(lia)).
    pose proof (Z.mod_pos_bound (y / 100) 10 ltac:(lia)).
    rewrite E2. rewrite E1 in *. lia. }
  assert (all_below 10 (fun a => all_below 10 (fun b => all_below 10 (fun c =>
            all_below 10 (fun e =>
              (a =? 0)
              || String.eqb (pad_left 4 (str_of_int (digits_value [a; b; c; e])))
                   (str_of_int (digits_value [a; b; c; e])))))) = true)
    as Hall by (vm_compute; reflexivity).
  pose proof (all_below_spec _ _ Hall a ltac:(lia)) as H. cbv beta in H.
  pose proof (all_below_spec _ _ H b ltac:(lia)) as H1. cbv beta in H1.
  pose proof (all_below_spec _ _ H1 c ltac:(lia)) as H2. cbv beta in H2.
  pose proof (all_below_spec _ _ H2 e ltac:(lia)) as H3. cbv beta in H3.
  destruct (Z.eqb_spec a 0); [lia |]. rewrite orb_false_l in H3.
  apply String.eqb_eq. exact H3.
Qed.

Lemma strftime_Y_padded {libc : Strftime} y :
  pads_year = true \/ 1000 <= y <= 9999 ->
  strftime_Y y = pad_left 4 (str_of_int y).
Proof.
  unfold strftime_Y. destruct pads_year; [reflexivity |].
  intros [H|H]; [discriminate | symmetry; apply four_digit_year; exact H].
Qed.


(** ** The enricher *)

Section EnricherFacts.
Context {F : Type} {AF : Arith F} {libc : Strftime}.

(** A record is enriched, or its quantity has no float. *)
Lemma add_fields_spec record :
  add_fields record
  = if overflows (of_int (quantity record))
    then Raise (OverflowError "int too large to convert to float")
    else Ok (enriched record).
Proof.
  unfold add_fields, float_mul_int, float_of_int, enriched.
  destruct (overflows (of_int (quantity record))); [reflexivity |]. cbn [bind].
  destruct (strptime (sale_date record)) as [d|e] eqn:Hd; [reflexivity |].
  destruct (strptime_raises_ValueError _ _ Hd) as [msg ->]. reflexivity.
Qed.

Lemma add_calculated_fields_spec (data : list (sales_record F)) :
  add_calculated_fields data
  = match List.find (fun record => overflows (of_int (quantity record))) data with
    | Some _ => Raise (OverflowError "int too large to convert to float")
    | None => Ok (List.map enriched data)
    end.
Proof.
  unfold add_calculated_fields.
  apply (mapM_checked _ (fun record => overflows (of_int (quantity record)))
           (fun _ => OverflowError "int too large to convert to float")).
  exact add_fields_spec.
Qed.

(** No record is dropped. *)
Lemma add_calculated_fields_rows (data out : list (sales_record F)) :
  add_calculated_fields data = Ok out -> out = List.map enriched data.
Proof.
  rewrite add_calculated_fields_spec.
  destruct (List.find _ _); [discriminate | intros [= <-]; reflexivity].
Qed.

Lemma add_calculated_fields_returns (data : list (sales_record F)) :
  (exists out, add_calculated_fields data = Ok out)
  <-> Forall (fun record => overflows (of_int (quantity record)) = false) data.
Proof.
  rewrite add_calculated_fields_spec, List.Forall_forall.
  destruct (List.find _ _) as [r|] eqn:E.
  - split; [intros [out H]; discriminate |]. intros H.
    apply List.find_some in E as [Hin Hbad]. rewrite (H r Hin) in Hbad. discriminate.
  - split; [| eauto]. intros _. exact (proj1 (find_none_iff _ _) E).
Qed.

Lemma add_calculated_fields_raises (data : list (sales_record F)) e :
  add_calculated_fields data = Raise e ->
  e = OverflowError "int too large to convert to float"
  /\ Exists (fun record => overflows (of_int (quantity record)) = true) data.
Proof.
  rewrite add_calculated_fields_spec.
  destruct (List.find _ _) as [r|] eqn:E; [| discriminate]. intros [= <-].
  split; [reflexivity |]. apply List.find_some in E as [Hin Hbad].
  apply List.Exists_exists. eauto.
Qed.

Lemma enriched_idem (record : sales_record F) : enriched (enriched record) = enriched record.
Proof. reflexivity. Qed.
End EnricherFacts.



(** ** The cleaner *)

Lemma float_lt_not_le x y : (x <? y)%float = true -> (y <=? x)%float = false.
Proof.
  rewrite ltb_rank, leb_rank.
  destruct (SFrank (Prim2SF x)) as [a|], (SFrank (Prim2SF y)) as [b|];
    try discriminate.
  pose proof (lex3_spec a b) as Hab. pose proof (lex3_spec b a) as Hba.
  destruct (lex3 a b); try discriminate. intros _.
  destruct (lex3 b a); try reflexivity; exfalso.
  - subst. exact (lex3_lt_irrefl _ Hab).
  - exact (lex3_lt_irrefl _ (lex3_lt_trans _ _ _ Hab Hba)).
Qed.

Lemma clean_loop_returns (data : list raw_record) :
  forall cleaned_data invalid_records out,
    clean_loop data cleaned_data invalid_records = Ok out ->
    out = (cleaned_data ++ kept_of data, invalid_records + invalid_of data).
Proof.
  induction data as [|record data IH]; intros acc n out; simpl.
  - intros [= <-]. rewrite app_nil_r. unfold invalid_of. simpl. f_equal. lia.
  - unfold invalid_of. simpl. fold (invalid_of data).
    destruct (clean_record record) as [[c|]|e]; simpl; [| | discriminate].
    + intros H. apply IH in H. rewrite H, <- app_assoc. reflexivity.
    + intros H. apply IH in H. rewrite H. f_equal. lia.
Qed.

Lemma clean_sales_data_returns (data : list raw_record) out :
  clean_sales_data data = Ok out -> out = kept_of data.
Proof.
  unfold clean_sales_data.
  destruct (clean_loop data [] 0) as [st|e] eqn:Hloop; [| discriminate].
  simpl. intros [= <-]. apply clean_loop_returns in Hloop. rewrite Hloop.
  reflexivity.
Qed.

Lemma kept_of_In (data : list raw_record) record cleaned :
  In record data -> clean_record record = Ok (Some cleaned) ->
  In cleaned (kept_of data).
Proof.
  intros Hin Hc. unfold kept_of. apply in_flat_map. exists record.
  split; [exact Hin |]. rewrite Hc. left. reflexivity.
Qed.

(** The errors of the conversions. *)
Lemma py_str_raises v e : py_str v = Raise e -> e = digit_limit_error.
Proof.
  destruct v; simpl; try discriminate. unfold int_str.
  destruct (_ <? _); [intros [= <-]; reflexivity | discriminate].
Qed.

Lemma float_of_string_raises s e :
  float_of_string s = Raise e -> exists msg, e = ValueError msg.
Proof.
  unfold float_of_string.
  destruct (sign_of _) as [neg body].
  destruct (_ || _); [discriminate |].
  destruct (String.eqb _ "nan"); [discriminate |].
  destruct (digitpart body) as [ip r1].
  destruct (match r1 with [] => _ | _ => _ end) as [fp r2].
  destruct ip, fp; try (intros [= <-]; eauto);
    destruct (exponent_of r2) as [[x [|? ?]]|]; intros [= <-]; eauto.
Qed.

Lemma int_of_string_raises s e :
  int_of_string s = Raise e -> exists msg, e = ValueError msg.
Proof.
  unfold int_of_string, invalid_literal, digit_limit_error.
  destruct (sign_of _) as [neg body].
  destruct (digitpart body) as [[|? ?] rest]; [intros [= <-]; eauto |].
  destruct (match rest with [] => _ | _ => _ end); [intros [= <-]; eauto |].
  destruct (_ <? _); [intros [= <-]; eauto |].
  destruct rest; [discriminate | intros [= <-]; eauto].
Qed.

Lemma py_float_raises v e : py_float v = Raise e -> conversion_error e.
Proof.
  destruct v; simpl; try discriminate.
  - intros [= <-]. exact I.
  - unfold float_of_int. destruct (overflows _); [intros [= <-]; exact I | discriminate].
  - intros H. apply float_of_string_raises in H as [msg ->]. exact I.
Qed.

Lemma py_int_raises v e : py_int v = Raise e -> conversion_error e.
Proof.
  destruct v; simpl; try discriminate.
  - intros [= <-]. exact I.
  - unfold trunc_float. destruct (Prim2SF x); try discriminate;
      intros [= <-]; exact I.
  - intros H. apply int_of_string_raises in H as [msg ->]. exact I.
Qed.

(** ** The cleaner, record by record *)

(** The body of the [try], conversion by conversion. *)
Lemma clean_body_fields record name amount date :
  record !! "product_name" = Some name ->
  record !! "sales_amount" = Some amount ->
  record !! "sale_date" = Some date ->
  clean_body record
  = (name_text <- py_str name ;;
     a <- py_float amount ;;
     region_text <- py_str (region_value record) ;;
     customer_text <- py_str (customer_value record) ;;
     q <- py_int (default (VInt 1) (record !! "quantity")) ;;
     if (a <=? 0)%float then Ok None
     else
       match date with
       | VStr text =>
           match strptime text with
           | Ok _ =>
               Ok (Some {| product_name := normalise name_text;
                           sales_amount := a;
                           sale_date := text;
                           region := normalise region_text;
                           customer_id := str_strip customer_text;
                           quantity := if q <=? 0 then 1 else q;
                           total_value := None; sale_month := None;
                           sale_year := None; sale_quarter := None |})
           | Raise _ => Ok None
           end
       | _ => Raise (TypeError "strptime() argument 1 must be str")
       end).
Proof.
  intros E1 E2 E3. unfold clean_body, region_value, customer_value, normalise.
  rewrite E1, E2, E3.
  destruct (py_str name) as [name_text|]; [| reflexivity]. cbn [bind].
  destruct (py_float amount) as [a|]; [| reflexivity]. cbn [bind].
  destruct (py_str _) as [region_text|]; [| reflexivity]. cbn [bind].
  destruct (py_str _) as [customer_text|]; [| reflexivity]. cbn [bind].
  destruct (py_int _) as [q|]; [| reflexivity]. cbn [bind].
  change (fleb a 0%float) with (a <=? 0)%float.
  destruct (a <=? 0)%float; [reflexivity |].
  destruct date as [| | | |text]; try reflexivity.
  destruct (strptime text) as [d|e] eqn:Hd; [reflexivity |].
  destruct (strptime_raises_ValueError _ _ Hd) as [msg ->]. reflexivity.
Qed.

Lemma clean_body_incomplete record :
  record !! "product_name" = None \/ record !! "sales_amount" = None
  \/ record !! "sale_date" = None ->
  clean_body record = Ok None.
Proof.
  unfold clean_body.
  destruct (record !! "product_name"), (record !! "sales_amount"),
    (record !! "sale_date"); try reflexivity.
  intros [H|[H|H]]; discriminate.
Qed.

Lemma clean_record_incomplete record :
  record !! "product_name" = None \/ record !! "sales_amount" = None
  \/ record !! "sale_date" = None ->
  clean_record record = Ok None.
Proof.
  intros H. unfold clean_record. rewrite (clean_body_incomplete _ H). reflexivity.
Qed.

Lemma clean_record_fields record cleaned :
  clean_record record = Ok (Some cleaned) <-> cleaned_from record cleaned.
Proof.
  unfold cleaned_from. split.
  - intros H.
    destruct (record !! "product_name") as [name|] eqn:E1;
      [| rewrite clean_record_incomplete in H by auto; discriminate].
    destruct (record !! "sales_amount") as [amount|] eqn:E2;
      [| rewrite clean_record_incomplete in H by auto; discriminate].
    destruct (record !! "sale_date") as [date|] eqn:E3;
      [| rewrite clean_record_incomplete in H by auto; discriminate].
    unfold clean_record in H. rewrite (clean_body_fields _ _ _ _ E1 E2 E3) in H.
    destruct (py_str name) as [name_text|[]] eqn:Hn; cbn [bind] in H;
      try discriminate.
    destruct (py_float amount) as [a|[]] eqn:Ha; cbn [bind] in H; try discriminate.
    destruct (py_str (region_value record)) as [region_text|[]] eqn:Hr;
      cbn [bind] in H; try discriminate.
    destruct (py_str (customer_value record)) as [customer_text|[]] eqn:Hc;
      cbn [bind] in H; try discriminate.
    destruct (py_int _) as [q|[]] eqn:Hq; cbn [bind] in H; try discriminate.
    destruct (a <=? 0)%float eqn:Hle; [discriminate |].
    destruct date as [| | | |text]; try discriminate.
    destruct (strptime text) as [d|e] eqn:Hd; [| discriminate].
    injection H as <-.
    exists name, amount, text, name_text, region_text, customer_text, a, q, d.
    repeat split; assumption.
  - intros (name & amount & text & name_text & region_text & customer_text & a & q & d
            & E1 & E2 & E3 & Hn & Ha & Hr & Hc & Hq & Hle & Hd & ->).
    unfold clean_record. rewrite (clean_body_fields _ _ _ _ E1 E2 E3).
    rewrite Hn. cbn [bind]. rewrite Ha. cbn [bind]. rewrite Hr. cbn [bind].
    rewrite Hc. cbn [bind]. rewrite Hq. cbn [bind]. rewrite Hle, Hd. reflexivity.
Qed.

(** What the checks of the loop establish for a record they keep: the
    amount is not [<= 0], the quantity is positive and the date parses. *)
Lemma clean_record_kept record cleaned :
  clean_record record = Ok (Some cleaned) ->
  (sales_amount cleaned <=? 0)%float = false
  /\ 0 < quantity cleaned
  /\ exists d, strptime (sale_date cleaned) = Ok d.
Proof.
  intros H. apply clean_record_fields in H
    as (name & amount & text & name_text & region_text & customer_text & a & q & d
        & _ & _ & _ & _ & _ & _ & _ & _ & Hle & Hd & ->).
  simpl. split; [exact Hle |]. split; [| eauto].
  destruct (Z.leb_spec q 0); lia.
Qed.

(** The only error that escapes the handler of the loop is the
    [OverflowError] of a conversion. *)
Lemma clean_record_raises record e :
  clean_record record = Raise e -> exists msg, e = OverflowError msg.
Proof.
  unfold clean_record.
  assert (forall e', clean_body record = Raise e' -> conversion_error e') as Hbody.
  { intros e'.
    destruct (record !! "product_name") as [name|] eqn:E1;
      [| rewrite clean_body_incomplete by auto; discriminate].
    destruct (record !! "sales_amount") as [amount|] eqn:E2;
      [| rewrite clean_body_incomplete by auto; discriminate].
    destruct (record !! "sale_date") as [date|] eqn:E3;
      [| rewrite clean_body_incomplete by auto; discriminate].
    rewrite (clean_body_fields _ _ _ _ E1 E2 E3).
    destruct (py_str name) as [name_text|e1] eqn:Hn; cbn [bind].
    2: { intros [= <-]. rewrite (py_str_raises _ _ Hn). exact I. }
    destruct (py_float amount) as [a|e1] eqn:Ha; cbn [bind].
    2: { intros [= <-]. exact (py_float_raises _ _ Ha). }
    destruct (py_str (region_value record)) as [region_text|e1] eqn:Hr; cbn [bind].
    2: { intros [= <-]. rewrite (py_str_raises _ _ Hr). exact I. }
    destruct (py_str (customer_value record)) as [customer_text|e1] eqn:Hc;
      cbn [bind].
    2: { intros [= <-]. rewrite (py_str_raises _ _ Hc). exact I. }
    destruct (py_int _) as [q|e2] eqn:Hq; cbn [bind].
    2: { intros [= <-]. exact (py_int_raises _ _ Hq). }
    destruct (a <=? 0)%float; [discriminate |].
    destruct date; try (intros [= <-]; exact I).
    destruct (strptime s); discriminate. }
  destruct (clean_body record) as [o|e'] eqn:Hb; [discriminate |].
  specialize (Hbody e' eq_refl).
  destruct e'; try contradiction; try discriminate.
  intros [= <-]. eauto.
Qed.

(** When no conversion overflows, the cleaner returns the records that pass
    its checks, in input order, and counts the others. *)
Lemma clean_loop_total (data : list raw_record) :
  Forall (fun record => raises (clean_record record) = false) data ->
  forall cleaned_data invalid_records,
    clean_loop data cleaned_data invalid_records
    = Ok (cleaned_data ++ kept_of data, invalid_records + invalid_of data).
Proof.
  induction 1 as [|record data Hr _ IH]; intros acc n; simpl.
  - rewrite app_nil_r. unfold invalid_of. simpl. do 2 f_equal. lia.
  - unfold invalid_of. simpl. fold (invalid_of data).
    destruct (clean_record record) as [[c|]|e]; simpl; [| | discriminate].
    + rewrite IH, <- app_assoc. reflexivity.
    + rewrite IH. do 2 f_equal. lia.
Qed.

Lemma kept_and_invalid (data : list raw_record) :
  Forall (fun record => raises (clean_record record) = false) data ->
  Z.of_nat (length (kept_of data)) + invalid_of data = Z.of_nat (length data).
Proof.
  induction 1 as [|record data Hr _ IH]; [reflexivity |].
  unfold invalid_of, kept_of in *. simpl.
  destruct (clean_record record) as [[c|]|e]; simpl in *; try discriminate;
    rewrite ?length_app; simpl; lia.
Qed.

Lemma kept_of_invariant (data : list raw_record) :
  Forall (fun cleaned =>
            (sales_amount cleaned <=? 0)%float = false
            /\ 0 < quantity cleaned
            /\ exists d, strptime (sale_date cleaned) = Ok d)
    (kept_of data).
Proof.
  apply List.Forall_forall. intros cleaned Hin.
  apply in_flat_map in Hin as [record [_ Hc]].
  destruct (clean_record record) as [[c|]|e] eqn:Hr; try contradiction.
  destruct Hc as [<-|[]]. exact (clean_record_kept _ _ Hr).
Qed.

(** The part of C7 that holds: whenever [clean_sales_data] returns, every
    record it returns has a positive quantity, a date that parses and an
    amount that is not [<= 0], which is [> 0] unless it is NaN; and an input
    whose records are all rejected gives the empty list. *)
Lemma clean_sales_data_invariant (data : list raw_record) out :
  clean_sales_data data = Ok out ->
  Forall (fun cleaned =>
            ((0 <? sales_amount cleaned)%float = true
             \/ PrimFloat.is_nan (sales_amount cleaned) = true)
            /\ 0 < quantity cleaned
            /\ exists d, strptime (sale_date cleaned) = Ok d) out.
Proof.
  intros Hout. rewrite (clean_sales_data_returns _ _ Hout).
  eapply List.Forall_impl; [| apply kept_of_invariant].
  intros c (Ha & Hq & Hd). split; [| split; assumption].
  destruct (PrimFloat.is_nan (sales_amount c)) eqn:Hnan; [right; reflexivity |].
  left. unfold PrimFloat.is_nan in Hnan. apply negb_false_iff in Hnan.
  rewrite eqb_rank in Hnan. rewrite leb_rank in Ha. rewrite ltb_rank.
  change (SFrank (Prim2SF 0)) with (Some (0, 0, 0)) in *.
  destruct (SFrank (Prim2SF (sales_amount c))) as [r|]; [| discriminate].
  pose proof (lex3_spec r (0, 0, 0)) as H1.
  pose proof (lex3_spec (0, 0, 0) r) as H2.
  destruct (lex3 r (0, 0, 0)); try discriminate.
  destruct (lex3 (0, 0, 0) r); try reflexivity; exfalso.
  - subst r. exact (lex3_lt_irrefl _ H1).
  - exact (lex3_lt_irrefl _ (lex3_lt_trans _ _ _ H1 H2)).
Qed.

Lemma clean_sales_data_all_invalid (data : list raw_record) :
  Forall (fun record => clean_record record = Ok None) data ->
  clean_sales_data data = Ok [].
Proof.
  intros Hall. unfold clean_sales_data.
  rewrite clean_loop_total.
  - simpl. f_equal. unfold kept_of.
    induction Hall as [|record data Hr _ IH]; [reflexivity |].
    simpl. rewrite Hr. exact IH.
  - eapply List.Forall_impl; [| exact Hall]. intros r Hr. rewrite Hr. reflexivity.
Qed.

(** C2, as amended.  For every raw record that has the three mandatory
    fields, whose [product_name], [region] and [customer_id] can be written
    as text, whose [sales_amount] coerces to a positive float, whose
    [sale_date] is a string that parses, and whose [quantity] is absent or
    coerces to an int, the record is kept; its quantity is the coerced
    quantity, or 1 when that is [<= 0].  (A [quantity] that does not coerce
    makes [int()] raise, and the record is then rejected or the error
    escapes.) *)
Theorem C2_quantity_is_clamped (record : raw_record) (name amount : pyval)
    (text name_text region_text customer_text : string) (a : float) (d : date)
    (q : Z) :
  record !! "product_name" = Some name ->
  record !! "sales_amount" = Some amount ->
  record !! "sale_date" = Some (VStr text) ->
  py_str name = Ok name_text ->
  py_str (region_value record) = Ok region_text ->
  py_str (customer_value record) = Ok customer_text ->
  py_float amount = Ok a ->
  (0 <? a)%float = true ->
  strptime text = Ok d ->
  py_int (default (VInt 1) (record !! "quantity")) = Ok q ->
  exists cleaned,
    clean_record record = Ok (Some cleaned)
    /\ quantity cleaned = (if q <=? 0 then 1 else q)
    /\ sales_amount cleaned = a
    /\ sale_date cleaned = text
    /\ clean_sales_data [record] = Ok [cleaned]
    /\ forall data out,
         In record data -> clean_sales_data data = Ok out -> In cleaned out.
Proof.
  intros Hname Hamount Hdate Hn Hr Hc Ha Hpos Hd Hq.
  assert (exists cleaned,
             clean_record record = Ok (Some cleaned)
             /\ quantity cleaned = (if q <=? 0 then 1 else q)
             /\ sales_amount cleaned = a /\ sale_date cleaned = text)
    as (cleaned & Hcl & Hqc & Hac & Hdc).
  { eexists. split.
    - apply clean_record_fields.
      exists name, amount, text, name_text, region_text, customer_text, a, q, d.
      repeat (split; [eassumption |]).
      split; [exact (float_lt_not_le _ _ Hpos) |]. split; [exact Hd | reflexivity].
    - repeat split. }
  exists cleaned. repeat (split; [assumption |]). split.
  - unfold clean_sales_data. simpl. rewrite Hcl. reflexivity.
  - intros data out Hin Hout. rewrite (clean_sales_data_returns _ _ Hout).
    apply (kept_of_In data record); assumption.
Qed.

(** The claim C2 fails as stated: these records have the three mandatory
    fields, a positive amount and a date that parses, and they are rejected
    because of their quantity. *)
Lemma C2_counterexample :
  sale_without_quantity !! "product_name" = Some (VStr "Widget")
  /\ sale_without_quantity !! "sales_amount" = Some (VFloat 19.99%float)
  /\ sale_without_quantity !! "sale_date" = Some (VStr "2024-03-17")
  /\ sale_without_quantity !! "quantity" = Some VNone
  /\ sale_with_text_quantity !! "quantity" = Some (VStr "two")
  /\ py_float (VFloat 19.99%float) = Ok 19.99%float
  /\ (0 <? 19.99)%float = true
  /\ strptime "2024-03-17" = Ok {| year := 2024; month := 3; day := 17 |}
  /\ clean_sales_data [sale_without_quantity] = Ok []
  /\ clean_sales_data [sale_with_text_quantity] = Ok [].
Proof. repeat split; vm_compute; reflexivity. Qed.

Lemma C2_witness :
  exists cleaned,
    clean_record sale_with_negative_quantity = Ok (Some cleaned)
    /\ quantity cleaned = 1
    /\ sales_amount cleaned = 19.99%float
    /\ sale_date cleaned = "2024-03-17"
    /\ clean_sales_data [sale_with_negative_quantity] = Ok [cleaned].
Proof.
  destruct (C2_quantity_is_clamped sale_with_negative_quantity
              (VStr "widget") (VStr "19.99") "2024-03-17" "widget" "Unknown" ""
              19.99%float {| year := 2024; month := 3; day := 17 |} (-3))
    as (cleaned & H1 & H2 & H3 & H4 & H5 & _);
    try (vm_compute; reflexivity).
  exists cleaned. repeat split; assumption.
Defined.

(** C7 (what the code does).  The check [sales_amount <= 0] is false for
    NaN, so a record whose amount is NaN is kept, and its amount is not
    [> 0]; [int()] of an infinite quantity raises [OverflowError], which the
    handler of the loop does not catch, so the cleaner raises. *)
Theorem C7_clean_sales_data_gaps :
  (exists kept,
      clean_sales_data [sale_with_nan_amount] = Ok [kept]
      /\ PrimFloat.is_nan (sales_amount kept) = true
      /\ (0 <? sales_amount kept)%float = false)
  /\ clean_sales_data [sale_with_infinite_quantity]
     = Raise (OverflowError "cannot convert float infinity to integer").
Proof.
  split.
  - eexists. split; [vm_compute; reflexivity |]. split; vm_compute; reflexivity.
  - vm_compute. reflexivity.
Qed.

(** * Further properties *)

(** ** Characters *)

Lemma all_ascii_In c : In c all_ascii.
Proof.
  unfold all_ascii. apply in_map_iff. exists (nat_of_ascii c).
  split; [apply ascii_nat_embedding |].
  apply in_seq. pose proof (nat_ascii_bounded c). lia.
Qed.

Lemma for_all_ascii (P : ascii -> bool) :
  forallb P all_ascii = true -> forall c, P c = true.
Proof. intros H c. exact (proj1 (forallb_forall P all_ascii) H c (all_ascii_In c)). Qed.

Lemma bool_eq_eqb (a b : bool) : Bool.eqb a b = true -> a = b.
Proof. destruct a, b; simpl; congruence. Qed.

Lemma title_chars_cons b c s :
  title_chars b (c :: s) = title_char b c :: title_chars (cased c) s.
Proof.
  assert (forall c, (is_lower c && is_upper c) = false) as Hex.
  { intros c0. apply negb_true_iff.
    revert c0. apply for_all_ascii. vm_compute. reflexivity. }
  assert (forall c, is_lower c = true -> to_lower c = c) as Hlow.
  { intros c0 H0.
    assert (implb (is_lower c0) (Ascii.eqb (to_lower c0) c0) = true) as H
      by (revert c0 H0; intros c0 _; revert c0; apply for_all_ascii;
          vm_compute; reflexivity).
    rewrite H0 in H. apply Ascii.eqb_eq. exact H. }
  assert (forall c, is_upper c = true -> to_upper c = c) as Hup.
  { intros c0 H0.
    assert (implb (is_upper c0) (Ascii.eqb (to_upper c0) c0) = true) as H
      by (revert c0 H0; intros c0 _; revert c0; apply for_all_ascii;
          vm_compute; reflexivity).
    rewrite H0 in H. apply Ascii.eqb_eq. exact H. }
  simpl. unfold title_char, cased.
  specialize (Hex c).
  destruct (is_lower c) eqn:El; simpl.
  - rewrite (Hlow c El). destruct b; reflexivity.
  - destruct (is_upper c) eqn:Eu; simpl; [| reflexivity].
    rewrite (Hup c Eu). destruct b; reflexivity.
Qed.

Lemma title_char_idem b c :
  title_char b (title_char b c) = title_char b c
  /\ cased (title_char b c) = cased c
  /\ is_space (title_char b c) = is_space c.
Proof.
  assert (forallb (fun c => forallb (fun b =>
            Ascii.eqb (title_char b (title_char b c)) (title_char b c)
            && Bool.eqb (cased (title_char b c)) (cased c)
            && Bool.eqb (is_space (title_char b c)) (is_space c))
            [true; false]) all_ascii = true) as H by (vm_compute; reflexivity).
  pose proof (for_all_ascii _ H c) as Hc. cbv beta in Hc.
  rewrite forallb_forall in Hc.
  assert (In b [true; false]) as Hb by (destruct b; simpl; auto).
  specialize (Hc b Hb).
  apply andb_true_iff in Hc as [Hc H3]. apply andb_true_iff in Hc as [H1 H2].
  apply Ascii.eqb_eq in H1. apply bool_eq_eqb in H2, H3. auto.
Qed.

Lemma title_char_lower b c :
  title_char b (to_lower c) = title_char b c
  /\ cased (to_lower c) = cased c
  /\ is_space (to_lower c) = is_space c.
Proof.
  assert (forallb (fun c => forallb (fun b =>
            Ascii.eqb (title_char b (to_lower c)) (title_char b c)
            && Bool.eqb (cased (to_lower c)) (cased c)
            && Bool.eqb (is_space (to_lower c)) (is_space c))
            [true; false]) all_ascii = true) as H by (vm_compute; reflexivity).
  pose proof (for_all_ascii _ H c) as Hc. cbv beta in Hc.
  rewrite forallb_forall in Hc.
  assert (In b [true; false]) as Hb by (destruct b; simpl; auto).
  specialize (Hc b Hb).
  apply andb_true_iff in Hc as [Hc H3]. apply andb_true_iff in Hc as [H1 H2].
  apply Ascii.eqb_eq in H1. apply bool_eq_eqb in H2, H3. auto.
Qed.

(** ** [title] *)

Lemma title_chars_idem s : forall b,
  title_chars b (title_chars b s) = title_chars b s.
Proof.
  induction s as [|c s IH]; intros b; [reflexivity |].
  rewrite !title_chars_cons.
  destruct (title_char_idem b c) as (H1 & H2 & _).
  rewrite H1, H2, IH. reflexivity.
Qed.

Lemma title_chars_lower s : forall s' b,
  List.map to_lower s = List.map to_lower s' ->
  title_chars b s = title_chars b s'.
Proof.
  induction s as [|c s IH]; intros [|c' s'] b H; try discriminate; [reflexivity |].
  injection H as Hc Hs. rewrite !title_chars_cons.
  destruct (title_char_lower b c) as (H1 & H2 & _).
  destruct (title_char_lower b c') as (H1' & H2' & _).
  rewrite <- H1, <- H1', <- H2, <- H2', Hc. f_equal. apply IH. exact Hs.
Qed.

Lemma title_chars_spaces s : forall b,
  List.map is_space (title_chars b s) = List.map is_space s.
Proof.
  induction s as [|c s IH]; intros b; [reflexivity |].
  rewrite title_chars_cons. simpl.
  destruct (title_char_idem b c) as (_ & _ & H3). rewrite H3, IH. reflexivity.
Qed.

(** ** [strip] *)

Section Strip.
Variable space : ascii -> bool.

Lemma lstrip_idem l : lstrip space (lstrip space l) = lstrip space l.
Proof.
  induction l as [|c l IH]; simpl; [reflexivity |].
  destruct (space c) eqn:E; [exact IH |]. simpl. rewrite E. reflexivity.
Qed.

Lemma lstrip_spaces w l :
  Forall (fun c => space c = true) w -> lstrip space (w ++ l) = lstrip space l.
Proof. induction 1 as [|c w Hc _ IH]; simpl; [reflexivity | rewrite Hc; exact IH]. Qed.

Lemma lstrip_app l w :
  lstrip space l <> [] -> lstrip space (l ++ w) = lstrip space l ++ w.
Proof.
  induction l as [|c l IH]; simpl; [congruence |].
  destruct (space c); [exact IH | reflexivity].
Qed.

Lemma lstrip_all_spaces l w :
  lstrip space l = [] -> Forall (fun c => space c = true) w ->
  lstrip space (l ++ w) = [].
Proof.
  intros Hl Hw. induction l as [|c l IH]; simpl in *.
  - rewrite <- (app_nil_r w). rewrite lstrip_spaces by exact Hw. reflexivity.
  - destruct (space c); [apply IH; exact Hl | discriminate].
Qed.

(** White space around a text does not change what [strip] returns. *)
Lemma strip_chars_spaces w1 l w2 :
  Forall (fun c => space c = true) w1 -> Forall (fun c => space c = true) w2 ->
  strip_chars space (w1 ++ l ++ w2) = strip_chars space l.
Proof.
  intros H1 H2. unfold strip_chars. rewrite lstrip_spaces by exact H1. f_equal.
  destruct (lstrip space l) as [|c m] eqn:E.
  - rewrite lstrip_all_spaces by assumption. reflexivity.
  - rewrite lstrip_app by (rewrite E; discriminate). rewrite E.
    rewrite rev_app_distr. apply lstrip_spaces.
    apply Forall_rev. exact H2.
Qed.

(** A text that starts and ends with something else than white space. *)
Lemma lstrip_fixed l :
  lstrip space l = l <-> match l with [] => True | c :: _ => space c = false end.
Proof.
  destruct l as [|c l]; simpl; [tauto |].
  destruct (space c) eqn:E; [| tauto]. split; [| discriminate].
  intros H. exfalso.
  assert (forall m, (length (lstrip space m) <= length m)%nat) as Hlen.
  { induction m as [|x m IH]; simpl; [lia |]. destruct (space x); simpl; lia. }
  specialize (Hlen l). rewrite H in Hlen. simpl in Hlen. lia.
Qed.

Lemma lstrip_last m c :
  space c = false -> exists m', lstrip space (m ++ [c]) = m' ++ [c].
Proof.
  intros Hc. induction m as [|x m IH]; simpl.
  - rewrite Hc. exists []. reflexivity.
  - destruct (space x); [exact IH |]. exists (x :: m). reflexivity.
Qed.

Lemma strip_chars_ends l :
  lstrip space (strip_chars space l) = strip_chars space l
  /\ lstrip space (rev (strip_chars space l)) = rev (strip_chars space l).
Proof.
  unfold strip_chars. rewrite rev_involutive. split; [| apply lstrip_idem].
  apply lstrip_fixed.
  pose proof (proj1 (lstrip_fixed (lstrip space l)) (lstrip_idem l)) as Hm.
  destruct (lstrip space l) as [|c m]; [simpl; exact I |].
  simpl rev. destruct (lstrip_last (rev m) c Hm) as [m' ->].
  rewrite rev_app_distr. simpl. exact Hm.
Qed.

Lemma strip_chars_fixed l :
  lstrip space l = l -> lstrip space (rev l) = rev l -> strip_chars space l = l.
Proof. intros H1 H2. unfold strip_chars. rewrite H1, H2. apply rev_involutive. Qed.

Lemma strip_chars_idem l :
  strip_chars space (strip_chars space l) = strip_chars space l.
Proof. destruct (strip_chars_ends l). apply strip_chars_fixed; assumption. Qed.

(** [strip] looks at the characters only through [space]. *)
Lemma lstrip_map (f : ascii -> ascii) l :
  (forall c, space (f c) = space c) ->
  lstrip space (List.map f l) = List.map f (lstrip space l).
Proof.
  intros Hf. induction l as [|c l IH]; simpl; [reflexivity |].
  rewrite Hf. destruct (space c); [exact IH | reflexivity].
Qed.

Lemma strip_chars_map (f : ascii -> ascii) l :
  (forall c, space (f c) = space c) ->
  strip_chars space (List.map f l) = List.map f (strip_chars space l).
Proof.
  intros Hf. unfold strip_chars.
  rewrite lstrip_map, <- map_rev, lstrip_map, <- map_rev by exact Hf. reflexivity.
Qed.

Lemma lstrip_same_spaces l : forall l',
  List.map space l = List.map space l' ->
  lstrip space l = l -> lstrip space l' = l'.
Proof.
  intros l' Hmap H. apply lstrip_fixed. apply lstrip_fixed in H.
  destruct l as [|c l], l' as [|c' l']; try discriminate; [exact I |].
  injection Hmap as Hc _. congruence.
Qed.
End Strip.

Lemma title_strip_fixed l b :
  strip_chars is_space (title_chars b (strip_chars is_space l))
  = title_chars b (strip_chars is_space l).
Proof.
  destruct (strip_chars_ends is_space l) as [H1 H2].
  apply strip_chars_fixed.
  - apply (lstrip_same_spaces is_space (strip_chars is_space l)); [| exact H1].
    symmetry. apply title_chars_spaces.
  - apply (lstrip_same_spaces is_space (rev (strip_chars is_space l))); [| exact H2].
    rewrite !map_rev. f_equal. symmetry. apply title_chars_spaces.
Qed.

Lemma str_strip_idem s : str_strip (str_strip s) = str_strip s.
Proof.
  unfold str_strip. rewrite list_ascii_of_string_of_list_ascii, strip_chars_idem.
  reflexivity.
Qed.

Lemma normalise_fixed s :
  str_strip (normalise s) = normalise s /\ str_title (normalise s) = normalise s.
Proof.
  unfold normalise, str_title, str_strip.
  rewrite !list_ascii_of_string_of_list_ascii. split.
  - rewrite title_strip_fixed. reflexivity.
  - rewrite title_chars_idem. reflexivity.
Qed.

Lemma normalise_idem s : normalise (normalise s) = normalise s.
Proof.
  destruct (normalise_fixed s) as [H1 H2].
  unfold normalise at 1. rewrite H1. exact H2.
Qed.

Lemma list_ascii_of_append s t :
  list_ascii_of_string (s +:+ t) = list_ascii_of_string s ++ list_ascii_of_string t.
Proof. induction s as [|c s IH]; simpl; [reflexivity | rewrite IH; reflexivity]. Qed.

Lemma normalise_lower s t : str_lower s = str_lower t -> normalise s = normalise t.
Proof.
  unfold str_lower, lower_string, normalise, str_title, str_strip. intros H.
  apply (f_equal list_ascii_of_string) in H.
  rewrite !list_ascii_of_string_of_list_ascii in H.
  rewrite !list_ascii_of_string_of_list_ascii. f_equal.
  apply title_chars_lower.
  rewrite <- !(strip_chars_map is_space to_lower)
    by (intros c; apply (title_char_lower true c)).
  rewrite H. reflexivity.
Qed.

Lemma normalise_spaces w1 s w2 :
  whitespace w1 -> whitespace w2 -> normalise (w1 +:+ s +:+ w2) = normalise s.
Proof.
  unfold whitespace, normalise, str_strip. intros H1 H2.
  rewrite !list_ascii_of_append, strip_chars_spaces by assumption. reflexivity.
Qed.

(** ** Dates written and read back *)

Lemma digit_char_digit v :
  0 <= v <= 9 -> is_digit (digit_char v) = true /\ digit_val (digit_char v) = v.
Proof.
  intros Hv.
  assert (all_below 10 (fun v => is_digit (digit_char v)
                                 && (digit_val (digit_char v) =? v)) = true) as H
    by (vm_compute; reflexivity).
  pose proof (all_below_spec _ _ H v ltac:(lia)) as Hd. cbv beta in Hd.
  apply andb_true_iff in Hd as [H1 H2]. apply Z.eqb_eq in H2. auto.
Qed.

Lemma parse_year_digits a b c e r :
  0 <= a <= 9 -> 0 <= b <= 9 -> 0 <= c <= 9 -> 0 <= e <= 9 ->
  parse_year (digit_char a :: digit_char b :: digit_char c :: digit_char e :: r)
  = Some (digits_value [a; b; c; e], r).
Proof.
  intros Ha Hb Hc He. unfold parse_year.
  destruct (digit_char_digit a Ha) as [-> ->].
  destruct (digit_char_digit b Hb) as [-> ->].
  destruct (digit_char_digit c Hc) as [-> ->].
  destruct (digit_char_digit e He) as [-> ->].
  reflexivity.
Qed.

Lemma year_text y :
  0 <= y <= 9999 ->
  exists a b c e,
    (0 <= a <= 9 /\ 0 <= b <= 9 /\ 0 <= c <= 9 /\ 0 <= e <= 9)
    /\ digits_value [a; b; c; e] = y
    /\ pad_left 4 (str_of_int y)
       = string_of_list_ascii [digit_char a; digit_char b; digit_char c; digit_char e].
Proof.
  intros Hy.
  exists (y / 1000), (y / 100 mod 10), (y / 10 mod 10), (y mod 10).
  assert (0 <= y / 1000 <= 9) as Ha
    by (pose proof (Z.div_pos y 1000); pose proof (Z.div_lt_upper_bound y 1000 10); lia).
  assert (0 <= y / 100 mod 10 <= 9) as Hb by (pose proof (Z.mod_pos_bound (y / 100) 10); lia).
  assert (0 <= y / 10 mod 10 <= 9) as Hc by (pose proof (Z.mod_pos_bound (y / 10) 10); lia).
  assert (0 <= y mod 10 <= 9) as He by (pose proof (Z.mod_pos_bound y 10); lia).
  assert (digits_value [y / 1000; y / 100 mod 10; y / 10 mod 10; y mod 10] = y) as Hv.
  { unfold digits_value. simpl.
    pose proof (Z.div_mod y 10 ltac:(lia)).
    pose proof (Z.div_mod (y / 10) 10 ltac:(lia)).
    assert (y / 100 = y / 10 / 10) as E1 by (rewrite Z.div_div by lia; reflexivity).
    assert (y / 1000 = y / 100 / 10) as E2 by (rewrite Z.div_div by lia; reflexivity).
    pose proof (Z.div_mod (y / 100) 10 ltac:(lia)).
    rewrite E2. rewrite E1 in *. lia. }
  split; [auto |]. split; [exact Hv |].
  rewrite <- Hv at 1.
  pose proof (all_below_spec _ _ four_digits_text (y / 1000) ltac:(lia)) as H.
  cbv beta in H.
  pose proof (all_below_spec _ _ H (y / 100 mod 10) ltac:(lia)) as H1.
  cbv beta in H1.
  pose proof (all_below_spec _ _ H1 (y / 10 mod 10) ltac:(lia)) as H2.
  cbv beta in H2.
  pose proof (all_below_spec _ _ H2 (y mod 10) ltac:(lia)) as H3.
  cbv beta in H3.
  apply String.eqb_eq in H3. exact H3.
Qed.

Lemma month_text m r :
  1 <= m <= 12 ->
  parse_month (list_ascii_of_string (pad_left 2 (str_of_int m)) ++ "-"%char :: r)
  = Some (m, "-"%char :: r).
Proof.
  intros Hm.
  assert (m = 1 \/ m = 2 \/ m = 3 \/ m = 4 \/ m = 5 \/ m = 6 \/ m = 7 \/ m = 8
          \/ m = 9 \/ m = 10 \/ m = 11 \/ m = 12) as H by lia.
  repeat (destruct H as [->|H]; [reflexivity |]). subst m. reflexivity.
Qed.

Lemma day_text n :
  1 <= n <= 31 ->
  parse_day (list_ascii_of_string (pad_left 2 (str_of_int n))) = Some (n, []).
Proof.
  intros Hn.
  assert (all_below 32
            (fun n => (n <? 1)
                      || match parse_day (list_ascii_of_string (pad_left 2 (str_of_int n))) with
                         | Some (v, []) => v =? n
                         | _ => false
                         end) = true) as H by (vm_compute; reflexivity).
  pose proof (all_below_spec _ _ H n ltac:(lia)) as Hd. cbv beta in Hd.
  destruct (Z.ltb_spec n 1); [lia |]. rewrite orb_false_l in Hd.
  destruct (parse_day _) as [[v [|? ?]]|]; try discriminate.
  apply Z.eqb_eq in Hd. subst v. reflexivity.
Qed.

Lemma days_in_month_bound y m : 28 <= days_in_month y m <= 31.
Proof.
  unfold days_in_month.
  destruct (m =? 2); [destruct (is_leap y); lia |].
  destruct (_ || _); lia.
Qed.

Lemma parse_day_range s d r : parse_day s = Some (d, r) -> 1 <= d <= 31.
Proof.
  unfold parse_day. destruct s as [|a [|b s]]; try discriminate.
  - destruct (is_digit_in 1 9 a) eqn:Ha; [| discriminate].
    intros [= <- _]. apply is_digit_in_range in Ha. lia.
  - destruct (is_digit_in 3 3 a && is_digit_in 0 1 b) eqn:H1.
    { apply andb_true_iff in H1 as [_ Hb]. apply is_digit_in_range in Hb.
      intros [= <- _]. lia. }
    destruct (is_digit_in 1 2 a && is_digit b) eqn:H2.
    { apply andb_true_iff in H2 as [Ha Hb]. apply is_digit_in_range in Ha.
      apply is_digit_range in Hb. intros [= <- _]. lia. }
    destruct (is_digit_in 0 0 a && is_digit_in 1 9 b) eqn:H3.
    { apply andb_true_iff in H3 as [_ Hb]. apply is_digit_in_range in Hb.
      intros [= <- _]. lia. }
    destruct (is_digit_in 1 9 a) eqn:Ha.
    { intros [= <- _]. apply is_digit_in_range in Ha. lia. }
    destruct ((code a =? 32) && is_digit_in 1 9 b) eqn:H4; [| discriminate].
    apply andb_true_iff in H4 as [_ Hb]. apply is_digit_in_range in Hb.
    intros [= <- _]. lia.
Qed.

Lemma strptime_calendar s d : strptime s = Ok d -> calendar_date d.
Proof.
  intros H. pose proof (strptime_range s d H) as (Hy & Hm & Hd).
  unfold calendar_date. repeat split; try lia.
  unfold strptime, match_format in H.
  destruct (parse_year (list_ascii_of_string s)) as [[y r1]|]; [| discriminate].
  destruct (expect_dash r1) as [r2|]; [| discriminate].
  destruct (parse_month r2) as [[m r3]|]; [| discriminate].
  destruct (expect_dash r3) as [r4|]; [| discriminate].
  destruct (parse_day r4) as [[dd r5]|] eqn:Hday; [| discriminate].
  destruct r5; [| discriminate].
  destruct (y <? 1); [discriminate |].
  destruct (days_in_month y m <? dd); [discriminate |].
  injection H as <-. simpl. apply parse_day_range in Hday. lia.
Qed.

Lemma strptime_strftime d : calendar_date d -> strptime (strftime_Y_m_d d) = Ok d.
Proof.
  destruct d as [y m n]. unfold calendar_date. simpl. intros (Hy & Hm & Hn).
  pose proof (days_in_month_bound y m) as Hb.
  destruct (year_text y ltac:(lia)) as (a & b & c & e & (Ha & Hb' & Hc & He) & Hv & Ht).
  unfold strptime, match_format, strftime_Y_m_d. cbn [year month day].
  rewrite Ht, !list_ascii_of_append, list_ascii_of_string_of_list_ascii.
  cbn [app list_ascii_of_string].
  rewrite parse_year_digits by assumption. cbn [expect_dash].
  change (code "-" =? 45) with true. cbv iota.
  rewrite month_text by lia. cbn [expect_dash].
  change (code "-" =? 45) with true. cbv iota.
  rewrite day_text by lia. rewrite Hv.
  destruct (Z.ltb_spec y 1); [lia |].
  destruct (Z.ltb_spec (days_in_month y m) n); [lia | reflexivity].
Qed.

(** ** Cleaning a cleaned record *)

Lemma as_raw_lookup cleaned :
  as_raw cleaned !! "product_name" = Some (VStr (product_name cleaned))
  /\ as_raw cleaned !! "sales_amount" = Some (VFloat (sales_amount cleaned))
  /\ as_raw cleaned !! "sale_date" = Some (VStr (sale_date cleaned))
  /\ as_raw cleaned !! "region" = Some (VStr (region cleaned))
  /\ as_raw cleaned !! "customer_id" = Some (VStr (customer_id cleaned))
  /\ as_raw cleaned !! "quantity" = Some (VInt (quantity cleaned)).
Proof. repeat split; vm_compute; reflexivity. Qed.

(** A record the cleaner built is kept as it is when it is cleaned again. *)
Lemma clean_record_again record cleaned :
  clean_record record = Ok (Some cleaned) ->
  clean_record (as_raw cleaned) = Ok (Some cleaned).
Proof.
  intros H. pose proof (clean_record_kept _ _ H) as (Hle & Hq & d & Hd).
  apply clean_record_fields in H
    as (name & amount & text & name_text & region_text & customer_text & a & q & d'
        & _ & _ & _ & _ & _ & _ & _ & _ & _ & _ & Hc).
  apply clean_record_fields.
  destruct (as_raw_lookup cleaned) as (L1 & L2 & L3 & L4 & L5 & L6).
  exists (VStr (product_name cleaned)), (VFloat (sales_amount cleaned)),
    (sale_date cleaned), (product_name cleaned), (region cleaned),
    (customer_id cleaned), (sales_amount cleaned), (quantity cleaned), d.
  unfold region_value, customer_value.
  rewrite L1, L2, L3, L4, L5, L6. cbn [default from_option id py_str py_float py_int].
  repeat (split; [first [reflexivity | assumption] |]).
  destruct (Z.leb_spec (quantity cleaned) 0); [lia |].
  rewrite Hc. cbn [product_name region customer_id sales_amount sale_date quantity].
  rewrite !normalise_idem, str_strip_idem. reflexivity.
Qed.

(** ** The cleaner, on lists *)

Lemma clean_loop_from (data : list raw_record) : forall cleaned_data invalid_records,
  clean_loop data cleaned_data invalid_records
  = (st <- clean_loop data [] 0 ;;
     Ok (cleaned_data ++ fst st, invalid_records + snd st)).
Proof.
  induction data as [|record data IH]; intros acc n; simpl.
  - rewrite app_nil_r, Z.add_0_r. reflexivity.
  - destruct (clean_record record) as [[c|]|e]; simpl; [| | reflexivity].
    + rewrite (IH (acc ++ [c])), (IH [c]).
      destruct (clean_loop data [] 0) as [[out m]|e]; simpl; [| reflexivity].
      rewrite <- app_assoc. reflexivity.
    + rewrite (IH acc), (IH [] (0 + 1)).
      destruct (clean_loop data [] 0) as [[out m]|e]; simpl; [| reflexivity].
      do 2 f_equal. lia.
Qed.

Lemma clean_loop_app (d1 d2 : list raw_record) : forall cleaned_data invalid_records,
  clean_loop (d1 ++ d2) cleaned_data invalid_records
  = (st <- clean_loop d1 cleaned_data invalid_records ;;
     clean_loop d2 (fst st) (snd st)).
Proof.
  induction d1 as [|record d1 IH]; intros acc n; simpl; [reflexivity |].
  destruct (clean_record record) as [[c|]|e]; simpl; [apply IH | apply IH | reflexivity].
Qed.

Lemma clean_loop_no_raise (data : list raw_record) : forall cleaned_data invalid_records st,
  clean_loop data cleaned_data invalid_records = Ok st ->
  Forall (fun record => raises (clean_record record) = false) data.
Proof.
  induction data as [|record data IH]; intros acc n st; simpl; [constructor |].
  destruct (clean_record record) as [[c|]|e] eqn:E; simpl; try discriminate;
    intros H; (constructor; [rewrite E; reflexivity | eapply IH; exact H]).
Qed.

Lemma clean_sales_data_kept (data : list raw_record) out :
  clean_sales_data data = Ok out ->
  Forall (fun cleaned => exists record,
            In record data /\ clean_record record = Ok (Some cleaned)) out.
Proof.
  intros H. rewrite (clean_sales_data_returns _ _ H).
  apply List.Forall_forall. intros c Hin.
  apply in_flat_map in Hin as [record [Hr Hc]].
  exists record. split; [exact Hr |].
  destruct (clean_record record) as [[c'|]|e]; try contradiction.
  destruct Hc as [<-|[]]. reflexivity.
Qed.

Lemma clean_loop_raises (data : list raw_record) : forall cleaned_data invalid_records,
  raises (clean_loop data cleaned_data invalid_records)
  = existsb (fun record => raises (clean_record record)) data.
Proof.
  induction data as [|record data IH]; intros acc n; simpl; [reflexivity |].
  destruct (clean_record record) as [[c|]|e]; simpl; [apply IH | apply IH | reflexivity].
Qed.

Lemma clean_sales_data_raises (data : list raw_record) e :
  clean_sales_data data = Raise e -> exists msg, e = OverflowError msg.
Proof.
  unfold clean_sales_data.
  destruct (clean_loop data [] 0) as [st|e'] eqn:Hloop; [discriminate |].
  cbn [bind]. intros He. injection He as ->. revert Hloop.
  generalize (@nil (sales_record float)) 0.
  induction data as [|record data IH]; intros acc n; simpl; [discriminate |].
  destruct (clean_record record) as [[c|]|e1] eqn:Hr; simpl; try apply IH.
  intros [= <-]. exact (clean_record_raises _ _ Hr).
Qed.

(** ** Infinite floats *)

Lemma is_infinity_spec x :
  is_infinity x = true <-> exists s, Prim2SF x = S754_infinity s.
Proof.
  unfold is_infinity. rewrite FloatAxioms.eqb_spec, FloatAxioms.abs_spec.
  change (Prim2SF infinity) with (S754_infinity false).
  destruct (Prim2SF x) as [s| s| |s m e]; simpl.
  - split; [discriminate | intros [? ?]; discriminate].
  - split; [eauto | reflexivity].
  - split; [discriminate | intros [? ?]; discriminate].
  - split; [discriminate | intros [? ?]; discriminate].
Qed.

Lemma py_float_overflows v msg :
  py_float v = Raise (OverflowError msg) ->
  exists n, v = VInt n /\ is_infinity (of_int n) = true.
Proof.
  destruct v as [| b | n | x | s]; simpl; try discriminate.
  - unfold float_of_int. change (overflows (of_int n)) with (is_infinity (of_int n)).
    destruct (is_infinity _) eqn:E; [| discriminate]. intros _. eauto.
  - intros H. apply float_of_string_raises in H as [m H]. discriminate H.
Qed.

Lemma py_int_overflows v msg :
  py_int v = Raise (OverflowError msg) ->
  exists x, v = VFloat x /\ is_infinity x = true.
Proof.
  destruct v as [| b | n | x | s]; simpl; try discriminate.
  - unfold trunc_float. intros H. exists x. split; [reflexivity |].
    apply is_infinity_spec. destruct (Prim2SF x); try discriminate. eauto.
  - intros H. apply int_of_string_raises in H as [m H]. discriminate H.
Qed.

Lemma clean_record_raises_body record e :
  clean_record record = Raise e ->
  clean_body record = Raise e /\ exists msg, e = OverflowError msg.
Proof.
  intros H. destruct (clean_record_raises _ _ H) as [msg ->].
  split; [| eauto]. unfold clean_record in H.
  destruct (clean_body record) as [o|[]]; try discriminate; exact H.
Qed.

Lemma clean_record_overflows record :
  raises (clean_record record) = true <-> overflowing record.
Proof.
  unfold overflowing. split.
  - destruct (clean_record record) as [o|e] eqn:Hr; [discriminate |]. intros _.
    destruct (record !! "product_name") as [name|] eqn:E1;
      [| rewrite clean_record_incomplete in Hr by auto; discriminate].
    destruct (record !! "sales_amount") as [amount|] eqn:E2;
      [| rewrite clean_record_incomplete in Hr by auto; discriminate].
    destruct (record !! "sale_date") as [date|] eqn:E3;
      [| rewrite clean_record_incomplete in Hr by auto; discriminate].
    destruct (clean_record_raises_body _ _ Hr) as [Hb [msg ->]].
    rewrite (clean_body_fields _ _ _ _ E1 E2 E3) in Hb.
    destruct (py_str name) as [name_text|e1] eqn:Hn; cbn [bind] in Hb.
    2: { rewrite (py_str_raises _ _ Hn) in Hb. discriminate. }
    exists name, amount, date, name_text.
    repeat (split; [first [reflexivity | exact Hn] |]).
    destruct (py_float amount) as [a|e1] eqn:Ha; cbn [bind] in Hb.
    2: { left. injection Hb as ->. exact (py_float_overflows _ _ Ha). }
    destruct (py_str (region_value record)) as [region_text|e1] eqn:Hg;
      cbn [bind] in Hb.
    2: { rewrite (py_str_raises _ _ Hg) in Hb. discriminate. }
    destruct (py_str (customer_value record)) as [customer_text|e1] eqn:Hc;
      cbn [bind] in Hb.
    2: { rewrite (py_str_raises _ _ Hc) in Hb. discriminate. }
    destruct (py_int _) as [q|e2] eqn:Hq; cbn [bind] in Hb.
    + exfalso. revert Hb. destruct (a <=? 0)%float; [discriminate |].
      destruct date; try discriminate. destruct (strptime s); discriminate.
    + right. injection Hb as ->.
      apply py_int_overflows in Hq as [x [Hx Hinf]].
      exists a, region_text, customer_text, x.
      repeat (split; [first [reflexivity | assumption] |]).
      split; [| exact Hinf].
      destruct (record !! "quantity") as [v|]; simpl in Hx; [congruence | discriminate].
  - intros (name & amount & date & name_text & E1 & E2 & E3 & Hn
            & [(n & -> & Hinf)|(a & region_text & customer_text & x
                                & Ha & Hg & Hc & Hq & Hx)]);
      unfold clean_record; rewrite (clean_body_fields _ _ _ _ E1 E2 E3), Hn;
      cbn [bind].
    + unfold py_float, float_of_int.
      change (overflows (of_int n)) with (is_infinity (of_int n)).
      rewrite Hinf. reflexivity.
    + rewrite Ha. cbn [bind]. rewrite Hg. cbn [bind]. rewrite Hc. cbn [bind].
      rewrite Hq. cbn [default from_option id py_int]. unfold trunc_float.
      apply is_infinity_spec in Hx as [s ->]. reflexivity.
Qed.

(** ** What the cleaner guarantees beyond its checks *)

(** X1. The names the cleaner writes are in normal form: for every record it
    returns for raw records whose texts are ASCII, [product_name] and
    [region] are unchanged by [strip] and by [title], and [customer_id] is
    unchanged by [strip]. *)
Theorem X1_cleaned_text_is_normal (data : list raw_record)
    (out : list (sales_record float)) :
  Forall ascii_record data ->
  clean_sales_data data = Ok out ->
  Forall (fun cleaned =>
            str_strip (product_name cleaned) = product_name cleaned
            /\ str_title (product_name cleaned) = product_name cleaned
            /\ str_strip (region cleaned) = region cleaned
            /\ str_title (region cleaned) = region cleaned
            /\ str_strip (customer_id cleaned) = customer_id cleaned) out.
Proof.
  intros _ H. eapply List.Forall_impl; [| exact (clean_sales_data_kept _ _ H)].
  intros c (record & _ & Hc).
  apply clean_record_fields in Hc
    as (name & amount & text & name_text & region_text & customer_text & a & q & d
        & _ & _ & _ & _ & _ & _ & _ & _ & _ & _ & ->).
  cbn [product_name region customer_id].
  destruct (normalise_fixed name_text) as [H1 H2].
  destruct (normalise_fixed region_text) as [H3 H4].
  repeat split; try assumption. apply str_strip_idem.
Qed.

Lemma ascii_record_sale_in_capitals : ascii_record sale_in_capitals.
Proof.
  intros k v [<-|[<-|[<-|[]]]]; vm_compute; intros [= <-];
    repeat constructor.
Qed.

Lemma ascii_record_sale_in_small_letters : ascii_record sale_in_small_letters.
Proof.
  intros k v [<-|[<-|[<-|[]]]]; vm_compute; intros [= <-];
    repeat constructor.
Qed.

Lemma X1_witness :
  Forall (fun cleaned =>
            str_strip (product_name cleaned) = product_name cleaned
            /\ str_title (product_name cleaned) = product_name cleaned
            /\ str_strip (region cleaned) = region cleaned
            /\ str_title (region cleaned) = region cleaned
            /\ str_strip (customer_id cleaned) = customer_id cleaned)
    [ mk_sale "Laptop" 1299.99%float "2024-01-15" "North" "CUST_1001" 2 ].
Proof.
  apply (X1_cleaned_text_is_normal [sale_in_capitals]).
  - constructor; [exact ascii_record_sale_in_capitals | constructor].
  - vm_compute. reflexivity.
Defined.

(** X2. Letter case and surrounding white space of a name do not reach the
    cleaned record: two kept records with ASCII texts whose [product_name]
    texts are equal after [lower()], or differ by white space around them,
    get the same cleaned [product_name]; and likewise for [region]. *)
Theorem X2_names_ignore_case_and_margins (r1 r2 : raw_record)
    (c1 c2 : sales_record float) (n1 n2 : pyval) (t1 t2 : string) :
  ascii_record r1 ->
  ascii_record r2 ->
  clean_record r1 = Ok (Some c1) ->
  clean_record r2 = Ok (Some c2) ->
  r1 !! "product_name" = Some n1 ->
  r2 !! "product_name" = Some n2 ->
  py_str n1 = Ok t1 ->
  py_str n2 = Ok t2 ->
  (str_lower t1 = str_lower t2 -> product_name c1 = product_name c2)
  /\ (forall w1 w2, whitespace w1 -> whitespace w2 ->
        t2 = w1 +:+ t1 +:+ w2 -> product_name c1 = product_name c2)
  /\ (forall g1 g2 u1 u2,
        r1 !! "region" = Some g1 -> r2 !! "region" = Some g2 ->
        py_str g1 = Ok u1 -> py_str g2 = Ok u2 ->
        (str_lower u1 = str_lower u2 -> region c1 = region c2)
        /\ (forall w1 w2, whitespace w1 -> whitespace w2 ->
              u2 = w1 +:+ u1 +:+ w2 -> region c1 = region c2)).
Proof.
  intros _ _ H1 H2 Hn1 Hn2 Ht1 Ht2.
  apply clean_record_fields in H1
    as (name1 & ? & ? & name_text1 & region_text1 & ? & ? & ? & ?
        & Hm1 & _ & _ & Hs1 & _ & Hg1 & _ & _ & _ & _ & ->).
  apply clean_record_fields in H2
    as (name2 & ? & ? & name_text2 & region_text2 & ? & ? & ? & ?
        & Hm2 & _ & _ & Hs2 & _ & Hg2 & _ & _ & _ & _ & ->).
  rewrite Hn1 in Hm1. rewrite Hn2 in Hm2.
  injection Hm1 as <-. injection Hm2 as <-.
  rewrite Ht1 in Hs1. rewrite Ht2 in Hs2.
  injection Hs1 as <-. injection Hs2 as <-.
  cbn [product_name region]. split; [| split].
  - apply normalise_lower.
  - intros w1 w2 Hw1 Hw2 ->. symmetry. apply normalise_spaces; assumption.
  - intros g1 g2 u1 u2 Hr1 Hr2 Hu1 Hu2.
    unfold region_value in Hg1, Hg2. rewrite Hr1 in Hg1. rewrite Hr2 in Hg2.
    cbn [default from_option id] in Hg1, Hg2.
    rewrite Hu1 in Hg1. rewrite Hu2 in Hg2.
    injection Hg1 as <-. injection Hg2 as <-. split.
    + apply normalise_lower.
    + intros w1 w2 Hw1 Hw2 ->. symmetry. apply normalise_spaces; assumption.
Qed.

Lemma X2_witness :
  str_lower "laptop" = str_lower "LAPTOP"
  /\ product_name (mk_sale "Laptop" 1300%float "2024-01-16" "None" "None" 1)
     = product_name
         (mk_sale "Laptop" 1299.99%float "2024-01-15" "North" "CUST_1001" 2).
Proof.
  split; [reflexivity |].
  destruct (X2_names_ignore_case_and_margins
              sale_in_small_letters sale_in_capitals
              (mk_sale "Laptop" 1300%float "2024-01-16" "None" "None" 1)
              (mk_sale "Laptop" 1299.99%float "2024-01-15" "North" "CUST_1001" 2)
              (VStr "laptop") (VStr "LAPTOP") "laptop" "LAPTOP")
    as (Hcase & _ & _);
    [exact ascii_record_sale_in_small_letters | exact ascii_record_sale_in_capitals
    | vm_compute; reflexivity .. |].
  apply Hcase. reflexivity.
Defined.

(** X3. Cleaning is idempotent on ASCII texts: when the list the cleaner
    returned for raw records whose texts are ASCII is given to the cleaner
    again, every record is kept and the result is the same list. *)
Theorem X3_cleaning_twice (data : list raw_record) (out : list (sales_record float)) :
  Forall ascii_record data ->
  clean_sales_data data = Ok out ->
  clean_sales_data (List.map as_raw out) = Ok out.
Proof.
  intros _ H. pose proof (clean_sales_data_kept _ _ H) as Hkept. clear H.
  unfold clean_sales_data.
  assert (clean_loop (List.map as_raw out) [] 0 = Ok (out, 0)) as ->; [| reflexivity].
  induction Hkept as [|c out (record & _ & Hc) _ IH]; [reflexivity |].
  cbn [List.map clean_loop]. rewrite (clean_record_again _ _ Hc). cbn [bind].
  rewrite clean_loop_from, IH. reflexivity.
Qed.

Lemma X3_witness :
  clean_sales_data
    (List.map as_raw [ mk_sale "Laptop" 1299.99%float "2024-01-15" "North" "CUST_1001" 2 ])
  = Ok [ mk_sale "Laptop" 1299.99%float "2024-01-15" "North" "CUST_1001" 2 ].
Proof.
  apply (X3_cleaning_twice [sale_in_capitals]).
  - constructor; [exact ascii_record_sale_in_capitals | constructor].
  - vm_compute. reflexivity.
Defined.

(** X4. Cleaning a list in two parts gives the same as cleaning it at once:
    the records kept from [d1 ++ d2] are those kept from [d1] followed by
    those kept from [d2], and the error of the first part that raises is the
    error of the whole. *)
Theorem X4_cleaning_in_parts (d1 d2 : list raw_record) :
  clean_sales_data (d1 ++ d2)
  = match clean_sales_data d1 with
    | Raise e => Raise e
    | Ok out1 =>
        match clean_sales_data d2 with
        | Raise e => Raise e
        | Ok out2 => Ok (out1 ++ out2)
        end
    end.
Proof.
  unfold clean_sales_data. rewrite clean_loop_app.
  destruct (clean_loop d1 [] 0) as [[out1 n1]|e]; [| reflexivity]. cbn [bind fst snd].
  rewrite clean_loop_from.
  destruct (clean_loop d2 [] 0) as [[out2 n2]|e]; reflexivity.
Qed.

(** X5. The cleaner raises exactly when a record that has the three
    mandatory fields makes a conversion overflow before another conversion
    fails: its name can be written and its [sales_amount] is an int too
    large for a float, or its [sales_amount] converts, its region and its
    customer can be written, and its [quantity] is an infinite float.  The
    error is then an [OverflowError]; every other record is kept or counted
    invalid. *)
Theorem X5_cleaner_raises (data : list raw_record) :
  (raises (clean_sales_data data) = true <-> Exists overflowing data)
  /\ (forall e, clean_sales_data data = Raise e -> exists msg, e = OverflowError msg).
Proof.
  split.
  - unfold clean_sales_data.
    assert (raises (st <- clean_loop data [] 0 ;; Ok st.1)
            = raises (clean_loop data [] 0)) as ->
      by (destruct (clean_loop data [] 0); reflexivity).
    rewrite clean_loop_raises. rewrite List.Exists_exists. split.
    + intros H. apply existsb_exists in H as [record [Hin Hr]].
      exists record. split; [exact Hin |]. apply clean_record_overflows. exact Hr.
    + intros [record [Hin Hr]]. apply existsb_exists. exists record.
      split; [exact Hin |]. apply clean_record_overflows. exact Hr.
  - exact (clean_sales_data_raises data).
Qed.

(** X6. A field that is absent and a field that is [None] are cleaned
    differently: without [region] the kept record has region [Unknown], with
    [region] set to [None] it has region [None], the text of [str(None)];
    without [customer_id] the customer is the empty text, with [None] it is
    the text [None]; without [quantity] the quantity is 1. *)
Theorem X6_absent_and_none (record : raw_record) (cleaned : sales_record float) :
  clean_record record = Ok (Some cleaned) ->
  (record !! "region" = None -> region cleaned = "Unknown")
  /\ (record !! "region" = Some VNone -> region cleaned = "None")
  /\ (record !! "customer_id" = None -> customer_id cleaned = "")
  /\ (record !! "customer_id" = Some VNone -> customer_id cleaned = "None")
  /\ (record !! "quantity" = None -> quantity cleaned = 1).
Proof.
  intros H. apply clean_record_fields in H
    as (name & amount & text & name_text & region_text & customer_text & a & q & d
        & _ & _ & _ & _ & _ & Hg & Hc & Hq & _ & _ & ->).
  cbn [region customer_id quantity]. unfold region_value, customer_value in *.
  repeat split; intros E; rewrite E in *; simpl in Hg, Hc, Hq.
  - injection Hg as <-. reflexivity.
  - injection Hg as <-. reflexivity.
  - injection Hc as <-. reflexivity.
  - injection Hc as <-. reflexivity.
  - injection Hq as <-. reflexivity.
Qed.

Lemma X6_witness :
  region (mk_sale "Laptop" 1300%float "2024-01-16" "None" "None" 1) = "None"
  /\ customer_id (mk_sale "Laptop" 1300%float "2024-01-16" "None" "None" 1) = "None"
  /\ quantity (mk_sale "Laptop" 1300%float "2024-01-16" "None" "None" 1) = 1.
Proof.
  destruct (X6_absent_and_none sale_in_small_letters
              (mk_sale "Laptop" 1300%float "2024-01-16" "None" "None" 1))
    as (_ & Hr & _ & Hc & Hq); [vm_compute; reflexivity |].
  split; [apply Hr; vm_compute; reflexivity |].
  split; [apply Hc; vm_compute; reflexivity | apply Hq; vm_compute; reflexivity].
Defined.

(** X7. Every input record is either kept or counted invalid: when the loop
    of the cleaner ends, the number of records kept plus the count of invalid
    records that the cleaner logs is the number of input records, and the
    list returned is the list kept. *)
Theorem X7_kept_plus_invalid (data : list raw_record)
    (cleaned_data : list (sales_record float)) (invalid_records : Z) :
  clean_loop data [] 0 = Ok (cleaned_data, invalid_records) ->
  clean_sales_data data = Ok cleaned_data
  /\ Z.of_nat (length cleaned_data) + invalid_records = Z.of_nat (length data)
  /\ 0 <= invalid_records.
Proof.
  intros H. split; [unfold clean_sales_data; rewrite H; reflexivity |].
  pose proof (clean_loop_no_raise _ _ _ _ H) as Hno.
  apply clean_loop_returns in H. injection H as -> ->. simpl.
  pose proof (kept_and_invalid data Hno) as Hsum. split; [lia |].
  unfold invalid_of. clear. induction data as [|record data IH]; simpl; [lia |].
  destruct (clean_record record) as [[c|]|e]; lia.
Qed.

Lemma X7_witness :
  clean_sales_data [sale_in_capitals; sale_without_quantity]
  = Ok [ mk_sale "Laptop" 1299.99%float "2024-01-15" "North" "CUST_1001" 2 ]
  /\ Z.of_nat 1 + 1 = Z.of_nat 2
  /\ 0 <= 1.
Proof.
  apply (X7_kept_plus_invalid [sale_in_capitals; sale_without_quantity]
           [ mk_sale "Laptop" 1299.99%float "2024-01-15" "North" "CUST_1001" 2 ] 1).
  vm_compute. reflexivity.
Defined.

(** X8. A date written by [strftime("%Y-%m-%d")], as the sample records have
    it, is read back by [strptime] as the same date, for every date of the
    calendar; and every date [strptime] returns is a date of the calendar.
    So the date check of the cleaner accepts every date of the sample. *)
Theorem X8_date_round_trip :
  (forall d, calendar_date d -> strptime (strftime_Y_m_d d) = Ok d)
  /\ (forall s d, strptime s = Ok d ->
        calendar_date d /\ strptime (strftime_Y_m_d d) = Ok d).
Proof.
  split; [exact strptime_strftime |].
  intros s d H. pose proof (strptime_calendar s d H) as Hc.
  split; [exact Hc | exact (strptime_strftime d Hc)].
Qed.

(** ** The enricher and the aggregations *)

Lemma find_ext_in {A : Type} (p q : A -> bool) (l : list A) :
  (forall x, In x l -> p x = q x) -> List.find p l = List.find q l.
Proof.
  induction l as [|x l IH]; intros H; simpl; [reflexivity |].
  rewrite (H x (or_introl eq_refl)). destruct (q x); [reflexivity |].
  apply IH. intros y Hy. apply H. right. exact Hy.
Qed.

Section EnrichedFacts.
Context {F : Type} {AF : Arith F}.

(** A change of the records that keeps the four fields the aggregations
    read. *)
Variable f : sales_record F -> sales_record F.
Hypothesis f_region : forall r, region (f r) = region r.
Hypothesis f_product_name : forall r, product_name (f r) = product_name r.
Hypothesis f_sales_amount : forall r, sales_amount (f r) = sales_amount r.
Hypothesis f_quantity : forall r, quantity (f r) = quantity r.

Lemma group_map (key : sales_record F -> string) k data :
  (forall r, key (f r) = key r) ->
  group key k (List.map f data) = List.map f (group key k data).
Proof.
  intros Hkey. unfold group. induction data as [|r data IH]; simpl; [reflexivity |].
  rewrite Hkey. destruct (String.eqb (key r) k); simpl; rewrite IH; reflexivity.
Qed.

Lemma map_field_map {B : Type} (field : sales_record F -> B) data :
  (forall r, field (f r) = field r) ->
  List.map field (List.map f data) = List.map field data.
Proof. intros H. rewrite map_map. apply map_ext. exact H. Qed.

Lemma group_overflows_map (key : sales_record F -> string) k data :
  (forall r, key (f r) = key r) ->
  group_overflows key k (List.map f data) = group_overflows key k data.
Proof.
  intros Hkey. unfold group_overflows. rewrite (group_map key) by exact Hkey.
  rewrite (map_field_map quantity), length_map by assumption. reflexivity.
Qed.

Lemma region_rows_map data : region_rows (List.map f data) = region_rows data.
Proof.
  unfold region_rows. rewrite (map_field_map region) by exact f_region.
  apply map_ext. intros k. f_equal.
  rewrite (group_map region) by exact f_region.
  unfold region_group_totals.
  rewrite (map_field_map sales_amount), (map_field_map quantity), length_map
    by assumption.
  reflexivity.
Qed.

Lemma product_rows_map data : product_rows (List.map f data) = product_rows data.
Proof.
  unfold product_rows. rewrite (map_field_map product_name) by exact f_product_name.
  apply map_ext. intros k. f_equal.
  rewrite (group_map product_name) by exact f_product_name.
  unfold product_group_totals.
  rewrite (map_field_map sales_amount), (map_field_map quantity),
    (map_field_map region), length_map by assumption.
  reflexivity.
Qed.

Lemma aggregate_sales_by_region_map data :
  aggregate_sales_by_region (List.map f data) = aggregate_sales_by_region data.
Proof.
  rewrite !aggregate_sales_by_region_spec.
  rewrite (map_field_map region) by exact f_region.
  rewrite (find_ext_in _ (fun k => group_overflows region k data))
    by (intros k _; apply group_overflows_map; exact f_region).
  rewrite region_rows_map.
  destruct (List.find _ _) as [k|]; [| reflexivity].
  rewrite (group_map region) by exact f_region. rewrite length_map. reflexivity.
Qed.

Lemma aggregate_sales_by_product_map data :
  aggregate_sales_by_product (List.map f data) = aggregate_sales_by_product data.
Proof.
  rewrite !aggregate_sales_by_product_spec.
  rewrite (map_field_map product_name) by exact f_product_name.
  rewrite (find_ext_in _ (fun k => group_overflows product_name k data))
    by (intros k _; apply group_overflows_map; exact f_product_name).
  rewrite product_rows_map.
  destruct (List.find _ _) as [k|]; [| reflexivity].
  rewrite (group_map product_name) by exact f_product_name.
  rewrite length_map. reflexivity.
Qed.
End EnrichedFacts.

Lemma month_text_length m : 1 <= m <= 12 -> String.length (pad_left 2 (str_of_int m)) = 2%nat.
Proof.
  intros Hm.
  assert (all_below 13
            (fun m => (m <? 1)
                      || Nat.eqb (String.length (pad_left 2 (str_of_int m))) 2) = true)
    as H by (vm_compute; reflexivity).
  pose proof (all_below_spec _ _ H m ltac:(lia)) as Hl. cbv beta in Hl.
  destruct (Z.ltb_spec m 1); [lia |]. rewrite orb_false_l in Hl.
  apply Nat.eqb_eq in Hl. exact Hl.
Qed.

Lemma length_append (s t : string) :
  String.length (s +:+ t) = (String.length s + String.length t)%nat.
Proof. induction s as [|c s IH]; simpl; [reflexivity | rewrite IH; reflexivity]. Qed.

Lemma strftime_Y_m_length {libc : Strftime} d :
  calendar_date d -> pads_year = true \/ 1000 <= year d ->
  String.length (strftime_Y_m d) = 7%nat.
Proof.
  intros (Hy & Hm & _) Hyear. unfold strftime_Y_m.
  rewrite strftime_Y_padded by (destruct Hyear; [left; assumption | right; lia]).
  destruct (year_text (year d) ltac:(lia)) as (a & b & c & e & _ & _ & ->).
  rewrite !length_append, (month_text_length _ Hm). reflexivity.
Qed.

Lemma add_calculated_fields_enriched {F : Type} {AF : Arith F} {libc : Strftime}
    (data : list (sales_record F)) :
  Forall (fun record => overflows (of_int (quantity record)) = false) data ->
  add_calculated_fields data = Ok (List.map enriched data).
Proof.
  intros H. destruct (proj2 (add_calculated_fields_returns data) H) as [out Hout].
  rewrite Hout, (add_calculated_fields_rows _ _ Hout). reflexivity.
Qed.

(** X9. Enriching is idempotent and keeps the number of records: whenever
    the enricher returns, the enricher applied to its result returns that
    result. *)
Theorem X9_enriching_twice {F : Type} {AF : Arith F} {libc : Strftime}
    (data enhanced : list (sales_record F)) :
  add_calculated_fields data = Ok enhanced ->
  length enhanced = length data
  /\ add_calculated_fields enhanced = Ok enhanced.
Proof.
  intros H. pose proof (proj1 (add_calculated_fields_returns data) (ex_intro _ _ H))
    as Hq.
  rewrite (add_calculated_fields_rows _ _ H). split; [apply length_map |].
  rewrite add_calculated_fields_enriched.
  - rewrite map_map. reflexivity.
  - apply Forall_map. exact Hq.
Qed.

Lemma X9_witness :
  length (List.map (enriched (libc:=glibc)) [one_sale]) = length [one_sale]
  /\ add_calculated_fields (libc:=glibc) (List.map (enriched (libc:=glibc)) [one_sale])
     = Ok (List.map (enriched (libc:=glibc)) [one_sale]).
Proof.
  apply (X9_enriching_twice (libc:=glibc) [one_sale]). vm_compute. reflexivity.
Defined.

(** X10. On the records the cleaner returns, the enricher never takes its
    [except] branch: whenever it returns, every enriched record has a
    [total_value], a [sale_month], a [sale_year] between 1 and 9999 and a
    [sale_quarter] of two characters, none of them [None]; the [sale_month]
    has seven characters when the year is written with four digits. *)
Theorem X10_enriched_cleaned_records {libc : Strftime} (data : list raw_record)
    (cleaned_data enhanced_data : list (sales_record float)) :
  clean_sales_data data = Ok cleaned_data ->
  add_calculated_fields cleaned_data = Ok enhanced_data ->
  Forall (fun r =>
            exists v m y q,
              total_value r = Some v
              /\ sale_month r = Some m
              /\ (pads_year = true \/ 1000 <= y -> String.length m = 7%nat)
              /\ sale_year r = Some y /\ 1 <= y <= 9999
              /\ sale_quarter r = Some q /\ String.length q = 2%nat)
    enhanced_data.
Proof.
  intros H He. rewrite (add_calculated_fields_rows _ _ He).
  apply List.Forall_forall. intros r Hin. apply in_map_iff in Hin as [c [<- Hc]].
  pose proof (clean_sales_data_invariant _ _ H) as Hinv.
  rewrite List.Forall_forall in Hinv. destruct (Hinv c Hc) as (_ & _ & d & Hd).
  pose proof (strptime_calendar _ _ Hd) as Hcal.
  unfold enriched. rewrite Hd. cbn [total_value sale_month sale_year sale_quarter fst snd].
  eexists _, _, _, _. split; [reflexivity |]. split; [reflexivity |].
  split; [exact (strftime_Y_m_length d Hcal) |]. split; [reflexivity |].
  split; [exact (proj1 Hcal) |]. split; [reflexivity |].
  destruct Hcal as (_ & Hm & _).
  destruct (quarter_text _ Hm) as [<-|[<-|[<-|[<-|[]]]]]; reflexivity.
Qed.

Lemma X10_witness :
  Forall (fun r =>
            exists v m y q,
              total_value r = Some v
              /\ sale_month r = Some m
              /\ (pads_year (Strftime:=glibc) = true \/ 1000 <= y
                  -> String.length m = 7%nat)
              /\ sale_year r = Some y /\ 1 <= y <= 9999
              /\ sale_quarter r = Some q /\ String.length q = 2%nat)
    (List.map (enriched (libc:=glibc))
       [ mk_sale "Laptop" 1299.99%float "2024-01-15" "North" "CUST_1001" 2 ]).
Proof.
  apply (X10_enriched_cleaned_records (libc:=glibc) [sale_in_capitals]
           [ mk_sale "Laptop" 1299.99%float "2024-01-15" "North" "CUST_1001" 2 ]);
    vm_compute; reflexivity.
Defined.

(** X11. The aggregations read only the region, the product name, the amount
    and the quantity: the records with their calculated fields give the same
    rows as the records without them. *)
Theorem X11_aggregates_of_enriched {F : Type} {AF : Arith F} {libc : Strftime}
    (data enhanced_data : list (sales_record F)) :
  add_calculated_fields data = Ok enhanced_data ->
  aggregate_sales_by_region enhanced_data = aggregate_sales_by_region data
  /\ aggregate_sales_by_product enhanced_data = aggregate_sales_by_product data.
Proof.
  intros H. rewrite (add_calculated_fields_rows _ _ H). split.
  - apply aggregate_sales_by_region_map; reflexivity.
  - apply aggregate_sales_by_product_map; reflexivity.
Qed.

Lemma X11_witness :
  aggregate_sales_by_region (List.map (enriched (libc:=glibc)) ordered_sales)
  = aggregate_sales_by_region ordered_sales
  /\ aggregate_sales_by_product (List.map (enriched (libc:=glibc)) ordered_sales)
     = aggregate_sales_by_product ordered_sales.
Proof.
  apply (X11_aggregates_of_enriched (libc:=glibc) ordered_sales).
  vm_compute. reflexivity.
Defined.

(** ** More on the aggregations *)

Lemma first_seen_snoc (ks : list string) (k : string) :
  first_seen (ks ++ [k]) = add_key (first_seen ks) k.
Proof. unfold first_seen. rewrite fold_left_app. reflexivity. Qed.

Lemma size_list_to_set_le (l : list string) :
  (size (list_to_set l : gset string) <= length l)%nat.
Proof.
  induction l as [|x l IH]; cbn [length].
  - rewrite list_to_set_nil, size_empty. lia.
  - rewrite list_to_set_cons, size_union_alt, size_singleton.
    assert ((list_to_set l : gset string) ∖ {[x]} ⊆ list_to_set l) as Hsub
      by (intros y Hy; apply elem_of_difference in Hy as [Hy _]; exact Hy).
    apply subseteq_size in Hsub. lia.
Qed.

Lemma size_list_to_set_pos (l : list string) :
  l <> [] -> (1 <= size (list_to_set l : gset string))%nat.
Proof.
  destruct l as [|x l]; [congruence |]. intros _.
  assert (size (list_to_set (x :: l) : gset string) <> 0%nat) as H.
  { apply size_non_empty_iff. intros Hempty.
    assert (x ∈ (list_to_set (x :: l) : gset string)) as Hin by set_solver.
    rewrite Hempty in Hin. set_solver. }
  lia.
Qed.

Lemma zsum_lower_bound (xs : list Z) :
  Forall (fun x => 0 < x) xs -> Z.of_nat (length xs) <= zsum xs.
Proof. induction 1 as [|x xs Hx _ IH]; simpl; lia. Qed.

(** X12. Whenever the region aggregation returns, its rows come in the order
    in which the regions first occur in the input: a record of a region seen
    before adds no row and moves none, a record of a new region adds the
    last row. *)
Theorem X12_region_rows_in_order_of_first_record {F : Type} {AF : Arith F}
    (data : list (sales_record F)) (rows : list (region_aggregate F)) :
  aggregate_sales_by_region data = Ok rows ->
  List.map rg_region rows = first_seen (List.map region data)
  /\ forall record rows',
       aggregate_sales_by_region (data ++ [record]) = Ok rows' ->
       List.map rg_region rows'
       = if existsb (String.eqb (region record)) (List.map rg_region rows)
         then List.map rg_region rows
         else List.map rg_region rows ++ [region record].
Proof.
  intros Hrows. rewrite (region_rows_keys _ _ Hrows). split; [reflexivity |].
  intros record rows' Hrows'. rewrite (region_rows_keys _ _ Hrows').
  rewrite map_app. simpl. apply first_seen_snoc.
Qed.

Lemma X12_witness :
  List.map rg_region (region_rows ordered_sales)
  = first_seen (List.map region ordered_sales)
  /\ forall record rows',
       aggregate_sales_by_region (ordered_sales ++ [record]) = Ok rows' ->
       List.map rg_region rows'
       = if existsb (String.eqb (region record))
              (List.map rg_region (region_rows ordered_sales))
         then List.map rg_region (region_rows ordered_sales)
         else List.map rg_region (region_rows ordered_sales) ++ [region record].
Proof.
  apply (X12_region_rows_in_order_of_first_record ordered_sales).
  vm_compute. reflexivity.
Defined.

(** X13. In every row the product aggregation returns, [region_count] is at
    least 1 and at most [total_sales]; in every row the region aggregation
    returns, [total_sales] is at least 1. *)
Theorem X13_counts_of_a_row {F : Type} {AF : Arith F} (data : list (sales_record F))
    (by_region : list (region_aggregate F)) (by_product : list (product_aggregate F)) :
  aggregate_sales_by_region data = Ok by_region ->
  aggregate_sales_by_product data = Ok by_product ->
  Forall (fun row => 1 <= rg_total_sales row) by_region
  /\ Forall (fun row => 1 <= pd_region_count row <= pd_total_sales row) by_product.
Proof.
  intros Hr Hp.
  rewrite (aggregate_sales_by_region_rows _ _ Hr),
    (aggregate_sales_by_product_rows _ _ Hp). split.
  - apply List.Forall_forall. intros row Hin.
    apply in_map_iff in Hin as [k [<- Hk]]. simpl.
    pose proof (length_pos_of_nonempty _
                  (group_nonempty region k data (proj1 (first_seen_In _ _) Hk))).
    lia.
  - apply List.Forall_forall. intros row Hin.
    apply (Permutation_in _ (sort_reverse_Permutation _ _ _)) in Hin.
    apply product_rows_In in Hin as [Hk ->]. simpl.
    set (g := group product_name (pd_product_name row) data).
    assert (g <> []) as Hg by (apply group_nonempty; exact Hk).
    pose proof (size_list_to_set_le (List.map region g)) as Hle.
    pose proof (size_list_to_set_pos (List.map region g)) as Hpos.
    rewrite length_map in Hle.
    assert (List.map region g <> []) as Hne by (destruct g; [congruence | discriminate]).
    specialize (Hpos Hne). lia.
Qed.

Lemma X13_witness :
  Forall (fun row => 1 <= rg_total_sales row) (region_rows ordered_sales)
  /\ Forall (fun row => 1 <= pd_region_count row <= pd_total_sales row)
       (sort_reverse pd_total_revenue fltb (product_rows ordered_sales)).
Proof.
  apply (X13_counts_of_a_row ordered_sales); vm_compute; reflexivity.
Defined.

(** X14. For records whose quantity is positive, as the cleaner returns
    them, every row the aggregations return has
    [1 <= total_sales <= total_quantity]. *)
Theorem X14_quantity_of_a_row (raw_data : list raw_record)
    (data : list (sales_record float))
    (by_region : list (region_aggregate float))
    (by_product : list (product_aggregate float)) :
  clean_sales_data raw_data = Ok data ->
  aggregate_sales_by_region data = Ok by_region ->
  aggregate_sales_by_product data = Ok by_product ->
  Forall (fun row => 1 <= rg_total_sales row <= rg_total_quantity row) by_region
  /\ Forall (fun row => 1 <= pd_total_sales row <= pd_total_quantity row) by_product.
Proof.
  intros Hclean Hr Hp.
  assert (forall (key : sales_record float -> string) k,
             In k (List.map key data) ->
             1 <= Z.of_nat (length (group key k data))
               <= zsum (List.map quantity (group key k data))) as Hgroup.
  { intros key k Hk.
    pose proof (length_pos_of_nonempty _ (group_nonempty key k data Hk)).
    split; [lia |]. rewrite <- (length_map quantity). apply zsum_lower_bound.
    apply List.Forall_forall. intros x Hx. apply in_map_iff in Hx as [r [<- Hr']].
    apply filter_In in Hr' as [Hr' _].
    pose proof (clean_sales_data_invariant _ _ Hclean) as Hinv.
    rewrite List.Forall_forall in Hinv. exact (proj1 (proj2 (Hinv r Hr'))). }
  rewrite (aggregate_sales_by_region_rows _ _ Hr),
    (aggregate_sales_by_product_rows _ _ Hp). split.
  - apply List.Forall_forall. intros row Hin.
    apply in_map_iff in Hin as [k [<- Hk]]. simpl.
    apply Hgroup. exact (proj1 (first_seen_In _ _) Hk).
  - apply List.Forall_forall. intros row Hin.
    apply (Permutation_in _ (sort_reverse_Permutation _ _ _)) in Hin.
    apply product_rows_In in Hin as [Hk ->]. simpl. apply Hgroup. exact Hk.
Qed.

Lemma X14_witness :
  Forall (fun row => 1 <= rg_total_sales row <= rg_total_quantity row)
    (region_rows [ mk_sale "Laptop" 1299.99%float "2024-01-15" "North" "CUST_1001" 2 ])
  /\ Forall (fun row => 1 <= pd_total_sales row <= pd_total_quantity row)
       (sort_reverse pd_total_revenue fltb
          (product_rows
             [ mk_sale "Laptop" 1299.99%float "2024-01-15" "North" "CUST_1001" 2 ])).
Proof.
  apply (X14_quantity_of_a_row [sale_in_capitals]
           [ mk_sale "Laptop" 1299.99%float "2024-01-15" "North" "CUST_1001" 2 ]);
    vm_compute; reflexivity.
Defined.

(** ** Inserts *)

Section Tables.
Context {R : Type}.
Implicit Types (t : table R) (v : R) (vs : list R).

Lemma numbered_app vs vs' : forall id,
  numbered id (vs ++ vs') = numbered id vs ++ numbered (id + Z.of_nat (length vs)) vs'.
Proof.
  induction vs as [|v vs IH]; intros id; simpl.
  - rewrite Z.add_0_r. reflexivity.
  - rewrite IH. do 3 f_equal. lia.
Qed.

Lemma numbered_values vs : forall id, List.map snd (numbered id vs) = vs.
Proof. induction vs as [|v vs IH]; intros id; simpl; [| rewrite IH]; reflexivity. Qed.

Lemma numbered_length vs : forall id, length (numbered id vs) = length vs.
Proof. induction vs as [|v vs IH]; intros id; simpl; [| rewrite IH]; reflexivity. Qed.

Lemma numbered_ids vs : forall id row,
  In row (numbered id vs) -> id <= fst row < id + Z.of_nat (length vs).
Proof.
  induction vs as [|v vs IH]; intros id row; simpl; [tauto |].
  intros [<-|H]; simpl; [lia |]. apply IH in H. lia.
Qed.

Lemma appended_nil t : appended t [] = t.
Proof. destruct t. unfold appended. simpl. rewrite app_nil_r, Z.add_0_r. reflexivity. Qed.

Lemma appended_appended t vs vs' : appended (appended t vs) vs' = appended t (vs ++ vs').
Proof.
  unfold appended. simpl. rewrite numbered_app, app_assoc, length_app. f_equal. lia.
Qed.

Lemma sequenced_appended t vs : sequenced t -> sequenced (appended t vs).
Proof.
  unfold sequenced, appended. simpl. intros H. apply Forall_app. split.
  - eapply List.Forall_impl; [| exact H]. simpl. intros row Hrow. lia.
  - apply List.Forall_forall. intros row Hrow. apply numbered_ids in Hrow. lia.
Qed.

Lemma sequenced_emptied t : sequenced (emptied t).
Proof. constructor. Qed.

Lemma sequenced_refused t : sequenced t -> sequenced (refused t).
Proof.
  unfold sequenced, refused. simpl. intros H.
  eapply List.Forall_impl; [| exact H]. simpl. intros row Hrow. lia.
Qed.

Lemma sequenced_empty_table : sequenced (@empty_table R).
Proof. constructor. Qed.

Lemma insertable_cons unique v vs t :
  insertable unique (v :: vs) t -> sequenced t ->
  violates unique (next_id t) v t = false /\ insertable unique vs (appended t [v]).
Proof.
  intros Hins Hseq. split.
  - unfold violates. apply not_true_iff_false. intros Hex.
    apply existsb_exists in Hex as [row [Hrow Hbad]].
    apply orb_true_iff in Hbad as [Hid|Hkey].
    + unfold sequenced in Hseq. rewrite List.Forall_forall in Hseq.
      specialize (Hseq row Hrow). apply Z.eqb_eq in Hid. lia.
    + destruct unique as [col|]; [| discriminate].
      apply String.eqb_eq in Hkey. destruct Hins as [_ Hfresh].
      apply (Hfresh row Hrow). left. symmetry. exact Hkey.
  - destruct unique as [col|]; [| exact I]. destruct Hins as [Hnd Hfresh].
    simpl in Hnd. apply NoDup_cons_iff in Hnd as [Hv Hnd].
    split; [exact Hnd |]. intros row Hrow. simpl in Hrow.
    apply in_app_iff in Hrow as [Hrow|[<-|[]]].
    + intros Hin. apply (Hfresh row Hrow). right. exact Hin.
    + exact Hv.
Qed.

Lemma insert_row_stores unique skip v t :
  violates unique (next_id t) v t = false ->
  insert_row unique skip v t = (Ok 1, appended t [v]).
Proof. unfold insert_row. intros ->. reflexivity. Qed.

Lemma insert_row_refused (col : R -> string) v t :
  (exists row, In row (rows t) /\ col (snd row) = col v) ->
  insert_row (Some col) false v t = (Raise duplicate_key, refused t).
Proof.
  intros (row & Hrow & Hkey). unfold insert_row.
  assert (violates (Some col) (next_id t) v t = true) as ->; [| reflexivity].
  unfold violates. apply existsb_exists. exists row. split; [exact Hrow |].
  rewrite Hkey, String.eqb_refl. apply orb_true_r.
Qed.

End Tables.

(** ** The insert loop *)

Lemma mapM_Ok {A : Type} (l : list A) : mapM (fun v => Ok v) l = Ok l.
Proof. rewrite (mapM_total _ (fun v => v)) by reflexivity. rewrite map_id. reflexivity. Qed.

Section LoadLoop.
Context {F R : Type}.
Variable get : database F -> option (table R).
Variable set : database F -> table R -> database F.
Variable unique : option (R -> string).
Variable skip : bool.
Variable prep : R -> result R.
Variable name : string.
Variable insert : R -> database F -> result Z * database F.

Hypothesis insert_spec : forall v db,
  insert v db
  = match prep v with
    | Raise e => (Raise e, db)
    | Ok params =>
        match get db with
        | None => (missing name, db)
        | Some t => let '(r, t') := insert_row unique skip params t in (r, set db t')
        end
    end.
Hypothesis get_set : forall db t, get (set db t) = Some t.
Hypothesis set_set : forall db t t', set (set db t) t' = set db t'.
Hypothesis set_get : forall db t, get db = Some t -> set db t = db.

Lemma load_loop_stores (data : list R) : forall params n db t,
  mapM prep data = Ok params ->
  get db = Some t -> sequenced t -> insertable unique params t ->
  load_loop insert data n db
  = (Ok (n + Z.of_nat (length data)), set db (appended t params)).
Proof.
  induction data as [|v data IH]; intros params n db t Hprep Hget Hseq Hins.
  - injection Hprep as <-. simpl.
    rewrite appended_nil, (set_get _ _ Hget), Z.add_0_r. reflexivity.
  - cbn [mapM] in Hprep. destruct (prep v) as [p|e] eqn:Hp; [| discriminate].
    cbn [bind] in Hprep.
    destruct (mapM prep data) as [ps|e] eqn:Hps; [| discriminate].
    injection Hprep as <-.
    cbn [load_loop]. rewrite insert_spec, Hp, Hget.
    destruct (insertable_cons _ _ _ _ Hins Hseq) as [Hv Hrest].
    rewrite (insert_row_stores _ _ _ _ Hv).
    rewrite (IH ps (n + 1) (set db (appended t [p])) (appended t [p]) eq_refl).
    + rewrite set_set, appended_appended. cbn [app length]. do 2 f_equal. lia.
    + apply get_set.
    + apply sequenced_appended. exact Hseq.
    + exact Hrest.
Qed.

Lemma load_loop_app (d1 d2 : list R) : forall n db,
  load_loop insert (d1 ++ d2) n db
  = match load_loop insert d1 n db with
    | (Ok m, db') => load_loop insert d2 m db'
    | (Raise e, db') => (Raise e, db')
    end.
Proof.
  induction d1 as [|v d1 IH]; intros n db; [reflexivity |].
  cbn [load_loop app]. destruct (insert v db) as [[m|e] db']; [apply IH | reflexivity].
Qed.
End LoadLoop.

Section LoadLoopRefused.
Context {F R : Type}.
Variable get : database F -> option (table R).
Variable set : database F -> table R -> database F.
Variable col : R -> string.
Variable name : string.
Variable insert : R -> database F -> result Z * database F.

Hypothesis insert_spec : forall v db,
  insert v db
  = match get db with
    | None => (missing name, db)
    | Some t => let '(r, t') := insert_row (Some col) false v t in (r, set db t')
    end.
Hypothesis get_set : forall db t, get (set db t) = Some t.
Hypothesis set_set : forall db t t', set (set db t) t' = set db t'.
Hypothesis set_get : forall db t, get db = Some t -> set db t = db.

Lemma load_loop_accepted (data : list R) n db t :
  get db = Some t -> sequenced t -> insertable (Some col) data t ->
  load_loop insert data n db
  = (Ok (n + Z.of_nat (length data)), set db (appended t data)).
Proof.
  intros Hget Hseq Hins.
  exact (load_loop_stores get set (Some col) false (fun v => Ok v) name insert
           insert_spec get_set set_set set_get data data n db t (mapM_Ok data)
           Hget Hseq Hins).
Qed.

(** Without the clause, the first value whose key is in the table already,
    or among the values before it, is refused: the loop raises, and the rows
    stored before stay. *)
Lemma load_loop_refused (accepted : list R) (v : R) (rest : list R) n db t :
  get db = Some t -> sequenced t -> insertable (Some col) accepted t ->
  (exists row, In row (rows t) /\ col (snd row) = col v)
  \/ In (col v) (List.map col accepted) ->
  load_loop insert (accepted ++ v :: rest) n db
  = (Raise duplicate_key, set db (refused (appended t accepted))).
Proof.
  intros Hget Hseq Hins Hdup.
  rewrite (load_loop_app insert).
  rewrite (load_loop_accepted accepted n db t Hget Hseq Hins).
  cbn [load_loop]. rewrite insert_spec, get_set.
  rewrite (insert_row_refused col v (appended t accepted)).
  - rewrite set_set. reflexivity.
  - destruct Hdup as [(row & Hrow & Hkey)|Hin].
    + exists row. split; [| exact Hkey]. simpl. apply in_app_iff. left. exact Hrow.
    + apply in_map_iff in Hin as [v' [Hkey Hv']].
      apply In_nth_error in Hv' as [i Hi].
      assert (exists id, In (id, v') (numbered (next_id t) accepted)) as [id Hid].
      { clear -Hi. revert i Hi. generalize (next_id t).
        induction accepted as [|a acc IH]; intros z i Hi; [destruct i; discriminate |].
        destruct i as [|i]; simpl in Hi.
        - injection Hi as ->. exists z. left. reflexivity.
        - destruct (IH (z + 1) i Hi) as [id Hid]. exists id. right. exact Hid. }
      exists (id, v'). split; [| exact Hkey]. simpl. apply in_app_iff. right. exact Hid.
Qed.
End LoadLoopRefused.

(** Every list of rows has distinct keys, or a first row whose key occurs
    before it. *)
Lemma first_repeated_key {R : Type} (col : R -> string) (data : list R) :
  List.NoDup (List.map col data)
  \/ exists accepted v rest,
       data = accepted ++ v :: rest
       /\ List.NoDup (List.map col accepted)
       /\ In (col v) (List.map col accepted).
Proof.
  induction data as [|x l IH] using rev_ind; [left; constructor |].
  destruct IH as [Hnd|(accepted & v & rest & -> & Hnd & Hin)].
  - destruct (in_dec string_dec (col x) (List.map col l)) as [Hin|Hnin].
    + right. exists l, x, []. auto.
    + left. rewrite map_app. simpl.
      apply (Permutation_NoDup (Permutation_cons_append _ _)).
      constructor; assumption.
  - right. exists accepted, v, (rest ++ [x]). rewrite <- app_assoc. auto.
Qed.

(** ** The three loads *)

Section Loads.
Context {F : Type} {AF : Arith F}.

Lemma with_sales_get (db : database F) t : sales_data db = Some t -> with_sales db t = db.
Proof. destruct db. simpl. intros ->. reflexivity. Qed.

Lemma with_regions_get (db : database F) t :
  region_aggregates db = Some t -> with_regions db t = db.
Proof. destruct db. simpl. intros ->. reflexivity. Qed.

Lemma with_products_get (db : database F) t :
  product_aggregates db = Some t -> with_products db t = db.
Proof. destruct db. simpl. intros ->. reflexivity. Qed.

(** The parameters of a record are its row, or its quantity has no float. *)
Lemma sales_params_spec (record : sales_record F) :
  sales_params record
  = if overflows (of_int (quantity record))
    then Raise (OverflowError "int too large to convert to float")
    else Ok (sales_row record).
Proof.
  unfold sales_params, float_mul_int, float_of_int, sales_row.
  destruct (overflows (of_int (quantity record))); reflexivity.
Qed.

Lemma mapM_sales_params (data : list (sales_record F)) :
  mapM sales_params data
  = match List.find (fun record => overflows (of_int (quantity record))) data with
    | Some _ => Raise (OverflowError "int too large to convert to float")
    | None => Ok (List.map sales_row data)
    end.
Proof.
  apply (mapM_checked _ (fun record => overflows (of_int (quantity record)))
           (fun _ => OverflowError "int too large to convert to float")).
  exact sales_params_spec.
Qed.

Lemma load_sales_stores (data : list (sales_record F)) n db t :
  Forall (fun record => overflows (of_int (quantity record)) = false) data ->
  sales_data db = Some t -> sequenced t ->
  load_loop insert_sales data n db
  = (Ok (n + Z.of_nat (length data)),
     with_sales db (appended t (List.map sales_row data))).
Proof.
  intros Hq Hget Hseq.
  apply (load_loop_stores sales_data with_sales None true sales_params "sales_data");
    [reflexivity | reflexivity | reflexivity | apply with_sales_get
    | | assumption | assumption | exact I].
  rewrite mapM_sales_params.
  rewrite (proj2 (find_none_iff _ _)); [reflexivity |].
  rewrite List.Forall_forall in Hq. exact Hq.
Qed.

Lemma load_regions_stores (data : list (region_aggregate F)) n db t :
  region_aggregates db = Some t -> sequenced t -> insertable (Some rg_region) data t ->
  load_loop insert_region data n db
  = (Ok (n + Z.of_nat (length data)), with_regions db (appended t data)).
Proof.
  intros Hget Hseq Hins.
  apply (load_loop_accepted region_aggregates with_regions rg_region "region_aggregates");
    [reflexivity | reflexivity | reflexivity | apply with_regions_get
    | assumption | assumption | assumption].
Qed.

Lemma load_products_stores (data : list (product_aggregate F)) n db t :
  product_aggregates db = Some t -> sequenced t ->
  insertable (Some pd_product_name) data t ->
  load_loop insert_product data n db
  = (Ok (n + Z.of_nat (length data)), with_products db (appended t data)).
Proof.
  intros Hget Hseq Hins.
  apply (load_loop_accepted product_aggregates with_products pd_product_name
           "product_aggregates");
    [reflexivity | reflexivity | reflexivity | apply with_products_get
    | assumption | assumption | assumption].
Qed.

Lemma load_regions_refused (accepted : list (region_aggregate F)) v rest n db t :
  region_aggregates db = Some t -> sequenced t ->
  insertable (Some rg_region) accepted t ->
  (exists row, In row (rows t) /\ rg_region (snd row) = rg_region v)
  \/ In (rg_region v) (List.map rg_region accepted) ->
  load_loop insert_region (accepted ++ v :: rest) n db
  = (Raise duplicate_key, with_regions db (refused (appended t accepted))).
Proof.
  intros Hget Hseq Hins Hdup.
  apply (load_loop_refused region_aggregates with_regions rg_region "region_aggregates");
    [reflexivity | reflexivity | reflexivity | apply with_regions_get
    | assumption | assumption | assumption | assumption].
Qed.

Lemma load_products_refused (accepted : list (product_aggregate F)) v rest n db t :
  product_aggregates db = Some t -> sequenced t ->
  insertable (Some pd_product_name) accepted t ->
  (exists row, In row (rows t) /\ pd_product_name (snd row) = pd_product_name v)
  \/ In (pd_product_name v) (List.map pd_product_name accepted) ->
  load_loop insert_product (accepted ++ v :: rest) n db
  = (Raise duplicate_key, with_products db (refused (appended t accepted))).
Proof.
  intros Hget Hseq Hins Hdup.
  apply (load_loop_refused product_aggregates with_products pd_product_name
           "product_aggregates");
    [reflexivity | reflexivity | reflexivity | apply with_products_get
    | assumption | assumption | assumption | assumption].
Qed.

End Loads.

(** ** The loader *)

(** C5. With [confirm_delete=False], [load_product_aggregates] raises the
    [ValueError] that says deletion requires confirmation and leaves the
    storage as it was: nothing is deleted and nothing inserted.  With
    [confirm_delete=True] the rows of [product_aggregates] are deleted first
    and the inserts run on the empty table, one for each record, in the order
    of the list: when the product names of the records are distinct the load
    returns their number and the table holds the records and nothing else;
    at the first record whose name occurs before it the load raises the
    duplicate-key error, and the table holds the records before that one.
    The other tables are untouched.  When the table does not exist the
    [DELETE] raises. *)
Theorem C5_load_product_aggregates {F : Type} {AF : Arith F}
    (data : list (product_aggregate F)) (db : database F) :
  load_product_aggregates data false db
  = (Raise (ValueError "Delete operation requires explicit confirmation."), db)
  /\ match product_aggregates db with
     | Some t =>
         load_product_aggregates data true db
         = load_loop insert_product data 0 (with_products db (emptied t))
         /\ (List.NoDup (List.map pd_product_name data) ->
             exists db',
               load_product_aggregates data true db = (Ok (Z.of_nat (length data)), db')
               /\ contents (product_aggregates db') = data
               /\ sales_data db' = sales_data db
               /\ region_aggregates db' = region_aggregates db)
         /\ (forall accepted v rest,
               data = accepted ++ v :: rest ->
               List.NoDup (List.map pd_product_name accepted) ->
               In (pd_product_name v) (List.map pd_product_name accepted) ->
               exists db',
                 load_product_aggregates data true db = (Raise duplicate_key, db')
                 /\ contents (product_aggregates db') = accepted
                 /\ sales_data db' = sales_data db
                 /\ region_aggregates db' = region_aggregates db)
     | None =>
         load_product_aggregates data true db = (missing "product_aggregates", db)
     end.
Proof.
  split; [reflexivity |].
  unfold load_product_aggregates, delete_products.
  destruct (product_aggregates db) as [t|] eqn:Ht; [| reflexivity].
  cbn [delete_all]. change {| rows := []; next_id := next_id t |} with (emptied t).
  fold (with_products db (emptied t)).
  split; [reflexivity |]. split.
  - intros Hnd.
    rewrite (load_products_stores data 0 (with_products db (emptied t)) (emptied t)
               eq_refl (sequenced_emptied t)).
    + eexists. split; [reflexivity |].
      split; [apply numbered_values | split; reflexivity].
    + split; [exact Hnd | intros row []].
  - intros accepted v rest -> Hnd Hin.
    rewrite (load_products_refused accepted v rest 0 (with_products db (emptied t))
               (emptied t) eq_refl (sequenced_emptied t)).
    + eexists. split; [reflexivity |].
      split; [apply numbered_values | split; reflexivity].
    + split; [exact Hnd | intros row []].
    + right. exact Hin.
Qed.

(** C1 (what the code does).  [sales_data] has no unique column besides the
    [id] its sequence fills in, so the insert never finds a conflict to skip:
    on a table whose ids all came from the sequence, loading the same record
    twice stores two rows.  The only record that is not stored is one whose
    parameters cannot be built, its quantity being an int with no float: the
    load raises that [OverflowError] before it sends a statement. *)
Theorem C1_load_sales_data_twice {F : Type} {AF : Arith F}
    (record : sales_record F) (db : database F) (t : table (sales_record F)) :
  sales_data db = Some t ->
  Forall (fun row => fst row < next_id t) (rows t) ->
  match sales_params record with
  | Ok _ =>
      exists db1 db2,
        load_sales_data [record] db = (Ok 1, db1)
        /\ load_sales_data [record] db1 = (Ok 1, db2)
        /\ row_count (sales_data db2) = row_count (sales_data db) + 2
  | Raise e =>
      load_sales_data [record] db = (Raise e, db)
      /\ e = OverflowError "int too large to convert to float"
  end.
Proof.
  intros Ht Hids.
  assert (forall (t0 : table (sales_record F)) v,
             Forall (fun row => fst row < next_id t0) (rows t0) ->
             violates None (next_id t0) v t0 = false) as Hfresh.
  { intros t0 v H0. unfold violates.
    apply not_true_iff_false. intros Hex.
    apply existsb_exists in Hex as [row [Hrow Hid]].
    rewrite List.Forall_forall in H0. specialize (H0 row Hrow).
    rewrite orb_false_r in Hid. apply Z.eqb_eq in Hid. lia. }
  unfold load_sales_data, load_loop, insert_sales.
  pose proof (sales_params_spec record) as Hspec.
  destruct (sales_params record) as [params|e].
  - rewrite Ht. unfold insert_row at 1. rewrite (Hfresh t _ Hids).
    eexists. eexists. split; [reflexivity |]. cbn [sales_data].
    unfold insert_row. rewrite Hfresh.
    + split; [reflexivity |]. cbn [sales_data row_count rows].
      rewrite !length_app. simpl. lia.
    + cbn [rows next_id]. apply Forall_app. split.
      * eapply List.Forall_impl; [| exact Hids]. simpl. intros row Hrow. lia.
      * constructor; [simpl; lia | constructor].
  - split; [reflexivity |].
    destruct (overflows (of_int (quantity record))); congruence.
Qed.

Lemma C1_witness :
  exists db1 db2,
    load_sales_data [one_sale] fresh_database = (Ok 1, db1)
    /\ load_sales_data [one_sale] db1 = (Ok 1, db2)
    /\ row_count (sales_data db2) = row_count (sales_data fresh_database) + 2.
Proof.
  exact (C1_load_sales_data_twice one_sale fresh_database empty_table eq_refl
           (List.Forall_nil _)).
Defined.



(** X16. [load_region_aggregates] without [confirm_delete] stops at the
    first row whose region is already in the table, or was loaded before it
    in the same call: it raises the database's duplicate-key error, the rows
    before that row stay stored, and the other tables are as they were. *)
Theorem X16_load_region_aggregates_stops_at_a_duplicate {F : Type}
    (accepted : list (region_aggregate F)) (v : region_aggregate F)
    (rest : list (region_aggregate F)) (db : database F)
    (t : table (region_aggregate F)) :
  region_aggregates db = Some t ->
  sequenced t ->
  insertable (Some rg_region) accepted t ->
  In (rg_region v) (List.map rg_region (contents (Some t) ++ accepted)) ->
  exists db',
    load_region_aggregates (accepted ++ v :: rest) false db = (Raise duplicate_key, db')
    /\ contents (region_aggregates db') = contents (region_aggregates db) ++ accepted
    /\ sales_data db' = sales_data db
    /\ product_aggregates db' = product_aggregates db.
Proof.
  intros Hget Hseq Hins Hdup. unfold load_region_aggregates.
  rewrite (load_regions_refused accepted v rest 0 db t Hget Hseq Hins).
  - eexists. split; [reflexivity |]. rewrite Hget. simpl.
    rewrite map_app, numbered_values. repeat split.
  - rewrite map_app in Hdup. apply in_app_iff in Hdup as [Hin|Hin]; [left | right; exact Hin].
    simpl in Hin. rewrite map_map in Hin. apply in_map_iff in Hin as [row [Hkey Hrow]].
    exists row. split; [exact Hrow | exact Hkey].
Qed.

Lemma X16_witness :
  exists db',
    load_region_aggregates ([south_row] ++ north_row :: [])
      false (with_regions fresh_database (appended empty_table [north_row]))
    = (Raise duplicate_key, db')
    /\ contents (region_aggregates db')
       = contents (region_aggregates
                     (with_regions fresh_database (appended empty_table [north_row])))
         ++ [south_row]
    /\ sales_data db'
       = sales_data (with_regions fresh_database (appended empty_table [north_row]))
    /\ product_aggregates db'
       = product_aggregates
           (with_regions fresh_database (appended empty_table [north_row])).
Proof.
  apply (X16_load_region_aggregates_stops_at_a_duplicate [south_row] north_row []
           (with_regions fresh_database (appended empty_table [north_row]))
           (appended empty_table [north_row])).
  - reflexivity.
  - apply sequenced_appended. constructor.
  - split.
    + constructor; [intros [] | constructor].
    + intros row [<-|[]] [H|[]]. discriminate H.
  - left. reflexivity.
Defined.

Lemma region_rows_insertable {F : Type} {AF : Arith F} (data : list (sales_record F))
    rows (t : table (region_aggregate F)) :
  aggregate_sales_by_region data = Ok rows ->
  insertable (Some rg_region) rows (emptied t).
Proof.
  intros H. split; [| intros row []].
  rewrite (region_rows_keys _ _ H). apply first_seen_NoDup.
Qed.

Lemma product_rows_NoDup {F : Type} {AF : Arith F} (data : list (sales_record F)) rows :
  aggregate_sales_by_product data = Ok rows ->
  List.NoDup (List.map pd_product_name rows).
Proof.
  intros H. rewrite (aggregate_sales_by_product_rows _ _ H).
  apply (Permutation_NoDup
           (Permutation_map _ (Permutation_sym (sort_reverse_Permutation _ _ _)))).
  rewrite product_rows_keys. apply first_seen_NoDup.
Qed.

Lemma contents_appended_emptied {R : Type} (t : table R) (vs : list R) :
  contents (Some (appended (emptied t) vs)) = vs.
Proof. simpl. apply numbered_values. Qed.

(** X17. Loaded with [confirm_delete=True], the rows an aggregation returned
    replace the table: the load deletes what was there, stores every row, in
    the order of the list, and returns their number; it cannot hit the unique
    column, since an aggregation returns one row for each key. *)
Theorem X17_aggregates_replace_the_table {F : Type} {AF : Arith F}
    (data : list (sales_record F)) (db : database F)
    (by_region : list (region_aggregate F)) (by_product : list (product_aggregate F)) :
  aggregate_sales_by_region data = Ok by_region ->
  aggregate_sales_by_product data = Ok by_product ->
  (forall t, region_aggregates db = Some t -> sequenced t ->
     exists db',
       load_region_aggregates by_region true db
       = (Ok (Z.of_nat (length by_region)), db')
       /\ contents (region_aggregates db') = by_region
       /\ sales_data db' = sales_data db
       /\ product_aggregates db' = product_aggregates db)
  /\ (forall t, product_aggregates db = Some t -> sequenced t ->
        exists db',
          load_product_aggregates by_product true db
          = (Ok (Z.of_nat (length by_product)), db')
          /\ contents (product_aggregates db') = by_product
          /\ sales_data db' = sales_data db
          /\ region_aggregates db' = region_aggregates db).
Proof.
  intros Hr Hp. split; intros t Hget Hseq.
  - unfold load_region_aggregates, delete_regions. rewrite Hget. cbn [delete_all].
    change {| rows := []; next_id := next_id t |} with (emptied t).
    fold (with_regions db (emptied t)).
    rewrite (load_regions_stores by_region 0 (with_regions db (emptied t)) (emptied t)
               eq_refl (sequenced_emptied t) (region_rows_insertable data _ t Hr)).
    eexists. split; [reflexivity |].
    split; [apply contents_appended_emptied | split; reflexivity].
  - unfold load_product_aggregates, delete_products. rewrite Hget. cbn [delete_all].
    change {| rows := []; next_id := next_id t |} with (emptied t).
    fold (with_products db (emptied t)).
    rewrite (load_products_stores by_product 0 (with_products db (emptied t)) (emptied t)
               eq_refl (sequenced_emptied t)).
    + eexists. split; [reflexivity |].
      split; [apply contents_appended_emptied | split; reflexivity].
    + split; [exact (product_rows_NoDup data _ Hp) | intros row []].
Qed.

Lemma X17_witness :
  (forall t, region_aggregates fresh_database = Some t -> sequenced t ->
     exists db',
       load_region_aggregates (region_rows ordered_sales) true fresh_database
       = (Ok (Z.of_nat (length (region_rows ordered_sales))), db')
       /\ contents (region_aggregates db') = region_rows ordered_sales
       /\ sales_data db' = sales_data fresh_database
       /\ product_aggregates db' = product_aggregates fresh_database)
  /\ (forall t, product_aggregates fresh_database = Some t -> sequenced t ->
        exists db',
          load_product_aggregates
            (sort_reverse pd_total_revenue fltb (product_rows ordered_sales))
            true fresh_database
          = (Ok (Z.of_nat (length (sort_reverse pd_total_revenue fltb
                                     (product_rows ordered_sales)))), db')
          /\ contents (product_aggregates db')
             = sort_reverse pd_total_revenue fltb (product_rows ordered_sales)
          /\ sales_data db' = sales_data fresh_database
          /\ region_aggregates db' = region_aggregates fresh_database).
Proof.
  apply (X17_aggregates_replace_the_table ordered_sales fresh_database
           (region_rows ordered_sales)
           (sort_reverse pd_total_revenue fltb (product_rows ordered_sales)));
    vm_compute; reflexivity.
Defined.

(** X18. A load that runs no statement does not notice a missing table:
    [load_sales_data] and [load_region_aggregates] given the empty list
    return 0 whatever the storage is.  With a record to insert they raise the
    database's error for the missing table and leave the storage as it was,
    unless the first sales record has a quantity with no float, which raises
    the [OverflowError] before the statement is sent;
    [load_product_aggregates] and a [load_region_aggregates] that deletes
    raise the database's error even for the empty list, from their
    [DELETE]. *)
Theorem X18_loads_and_missing_tables {F : Type} {AF : Arith F} (db : database F) :
  load_sales_data [] db = (Ok 0, db)
  /\ load_region_aggregates [] false db = (Ok 0, db)
  /\ (sales_data db = None ->
      forall record data,
        load_sales_data (record :: data) db
        = (if overflows (of_int (quantity record))
           then Raise (OverflowError "int too large to convert to float")
           else missing "sales_data", db))
  /\ (region_aggregates db = None ->
      forall data confirm_delete,
        confirm_delete = true \/ data <> [] ->
        load_region_aggregates data confirm_delete db
        = (missing "region_aggregates", db))
  /\ (product_aggregates db = None ->
      forall data,
        load_product_aggregates data true db = (missing "product_aggregates", db)).
Proof.
  split; [reflexivity |]. split; [reflexivity |]. split; [| split].
  - intros Hget record data. unfold load_sales_data. cbn [load_loop].
    unfold insert_sales. rewrite sales_params_spec.
    destruct (overflows (of_int (quantity record))); [reflexivity |].
    rewrite Hget. reflexivity.
  - intros Hget data confirm_delete Hrun. unfold load_region_aggregates, delete_regions.
    destruct confirm_delete.
    + rewrite Hget. reflexivity.
    + destruct Hrun as [|Hne]; [discriminate |].
      destruct data as [|record data]; [congruence |]. cbn [load_loop].
      unfold insert_region. rewrite Hget. reflexivity.
  - intros Hget data. unfold load_product_aggregates, delete_products.
    rewrite Hget. reflexivity.
Qed.

(** ** The pipeline *)

Lemma sales_row_enriched {F : Type} {AF : Arith F} {libc : Strftime}
    (data : list (sales_record F)) :
  List.map sales_row (List.map enriched data) = List.map enriched data.
Proof. rewrite map_map. apply map_ext. reflexivity. Qed.

Section PipelineFacts.
Context {libc : Strftime}.
Variable stored_sum : list float -> float.

(** The script and the two tasks of the DAG run the same steps. *)
Lemma run_etl_pipeline_tasks (raw_data : list raw_record) (db : database float) :
  run_etl_pipeline stored_sum raw_data db
  = match transform_data raw_data with
    | Ok transformed_data => load_data stored_sum transformed_data db
    | Raise e => (Raise e, db)
    end.
Proof.
  unfold run_etl_pipeline, transform_data, and_then, lift.
  destruct (clean_sales_data raw_data) as [cleaned|e]; [| reflexivity]. cbn [bind].
  destruct (add_calculated_fields cleaned) as [enhanced|e]; [| reflexivity]. cbn [bind].
  destruct (aggregate_sales_by_region enhanced) as [rr|e]; [| reflexivity]. cbn [bind].
  destruct (aggregate_sales_by_product enhanced) as [pr|e]; reflexivity.
Qed.

Lemma transform_data_returns (raw_data : list raw_record) cleaned_data enhanced_data
    by_region by_product :
  clean_sales_data raw_data = Ok cleaned_data ->
  add_calculated_fields cleaned_data = Ok enhanced_data ->
  aggregate_sales_by_region cleaned_data = Ok by_region ->
  aggregate_sales_by_product cleaned_data = Ok by_product ->
  transform_data raw_data = Ok (handed_over cleaned_data by_region by_product).
Proof.
  intros Hc He Hr Hp. unfold transform_data. rewrite Hc. cbn [bind].
  rewrite He. cbn [bind]. rewrite (add_calculated_fields_rows _ _ He).
  rewrite aggregate_sales_by_region_map, Hr by reflexivity. cbn [bind].
  rewrite aggregate_sales_by_product_map, Hp by reflexivity. reflexivity.
Qed.

(** What the transform task returns, when it returns. *)
Lemma transform_data_result (raw_data : list raw_record) transformed_data :
  transform_data raw_data = Ok transformed_data ->
  exists cleaned_data,
    clean_sales_data raw_data = Ok cleaned_data
    /\ add_calculated_fields cleaned_data = Ok (xcom_sales_data transformed_data)
    /\ xcom_sales_data transformed_data = List.map enriched cleaned_data
    /\ aggregate_sales_by_region cleaned_data
       = Ok (xcom_region_aggregates transformed_data)
    /\ aggregate_sales_by_product cleaned_data
       = Ok (xcom_product_aggregates transformed_data).
Proof.
  unfold transform_data.
  destruct (clean_sales_data raw_data) as [cleaned|e]; [| discriminate]. cbn [bind].
  destruct (add_calculated_fields cleaned) as [enhanced|e] eqn:He; [| discriminate].
  cbn [bind].
  destruct (aggregate_sales_by_region enhanced) as [rr|e] eqn:Hr; [| discriminate].
  cbn [bind].
  destruct (aggregate_sales_by_product enhanced) as [pr|e] eqn:Hp; [| discriminate].
  cbn [bind]. intros [= <-]. exists cleaned.
  cbn [xcom_sales_data xcom_region_aggregates xcom_product_aggregates].
  pose proof (add_calculated_fields_rows _ _ He) as Hrows.
  rewrite Hrows in Hr, Hp.
  rewrite aggregate_sales_by_region_map in Hr by reflexivity.
  rewrite aggregate_sales_by_product_map in Hp by reflexivity.
  repeat split; assumption.
Qed.

(** The transform task fails with an [OverflowError] only. *)
Lemma transform_data_raises (raw_data : list raw_record) e :
  transform_data raw_data = Raise e -> exists msg, e = OverflowError msg.
Proof.
  unfold transform_data.
  destruct (clean_sales_data raw_data) as [cleaned|e0] eqn:Hc; cbn [bind].
  2: { intros [= <-]. exact (clean_sales_data_raises _ _ Hc). }
  destruct (add_calculated_fields cleaned) as [enhanced|e0] eqn:He; cbn [bind].
  2: { intros [= <-]. destruct (add_calculated_fields_raises _ _ He) as [-> _]. eauto. }
  destruct (aggregate_sales_by_region enhanced) as [rr|e0] eqn:Hr; cbn [bind].
  2: { intros [= <-].
       destruct (aggregate_sales_by_region_raises _ _ Hr) as (k & msg & _ & _ & ->).
       eauto. }
  destruct (aggregate_sales_by_product enhanced) as [pr|e0] eqn:Hp; cbn [bind].
  2: { intros [= <-].
       destruct (aggregate_sales_by_product_raises _ _ Hp) as (k & msg & _ & _ & ->).
       eauto. }
  discriminate.
Qed.

Lemma create_if_absent_rows {R : Type} (t : option (table R)) :
  exists t', create_if_absent t = Some t' /\ contents (Some t') = contents t
             /\ (without_rows t -> rows t' = []).
Proof.
  destruct t as [t|]; simpl.
  - exists t. auto.
  - exists empty_table. auto.
Qed.

Lemma sequenced_without_rows {R : Type} (t : table R) : rows t = [] -> sequenced t.
Proof. unfold sequenced. intros ->. constructor. Qed.

Lemma get_data_summary_counts (db : database float) ts tr tp :
  sales_data db = Some ts -> region_aggregates db = Some tr ->
  product_aggregates db = Some tp ->
  exists summary,
    get_data_summary stored_sum db = Ok summary
    /\ sales_records summary = Z.of_nat (length (rows ts))
    /\ regions summary = Z.of_nat (length (rows tr))
    /\ products summary = Z.of_nat (length (rows tp))
    /\ (rows ts = [] -> total_revenue summary = 0%float).
Proof.
  intros Hs Hr Hp. unfold get_data_summary. rewrite Hs, Hr, Hp.
  eexists. split; [reflexivity |]. repeat split. simpl. intros ->. reflexivity.
Qed.

Lemma create_if_absent_sequenced {R : Type} (t : option (table R)) t' :
  sequenced_if_present t -> create_if_absent t = Some t' -> sequenced t'.
Proof.
  destruct t as [t|]; simpl.
  - intros H [= <-]. exact H.
  - intros _ [= <-]. constructor.
Qed.

Lemma pristine_accepts {F : Type} (db : database F) regions : pristine db -> accepts db regions.
Proof.
  intros (Hs & Hr & _). unfold accepts.
  destruct (sales_data db) as [ts|], (region_aggregates db) as [tr|]; simpl in *;
    repeat split; try (apply sequenced_without_rows; assumption);
    try (rewrite Hr; intros row []); intros row [].
Qed.

(** The load task on a storage that accepts the regions of the rows. *)
Lemma load_data_stores (data : list (sales_record float)) cleaned_data
    by_region by_product (db : database float) :
  accepts db (List.map rg_region by_region) ->
  Forall (fun record => overflows (of_int (quantity record)) = false) cleaned_data ->
  aggregate_sales_by_region data = Ok by_region ->
  aggregate_sales_by_product data = Ok by_product ->
  exists ts tr tp summary,
    create_if_absent (sales_data db) = Some ts
    /\ create_if_absent (region_aggregates db) = Some tr
    /\ load_data stored_sum (handed_over cleaned_data by_region by_product) db
       = (Ok summary,
          {| sales_data := Some (appended ts (List.map enriched cleaned_data));
             region_aggregates := Some (appended tr by_region);
             product_aggregates := Some (appended (emptied tp) by_product) |})
    /\ sales_records summary
       = Z.of_nat (length (rows ts)) + Z.of_nat (length cleaned_data)
    /\ regions summary = Z.of_nat (length (rows tr)) + Z.of_nat (length by_region)
    /\ products summary = Z.of_nat (length by_product).
Proof.
  intros (Hs & Hr & Hfresh) Hq Hbr Hbp.
  destruct (create_if_absent_rows (sales_data db)) as (ts & Hts & _ & _).
  destruct (create_if_absent_rows (region_aggregates db)) as (tr & Htr & Hcr & _).
  destruct (create_if_absent_rows (product_aggregates db)) as (tp & Htp & _ & _).
  pose proof (create_if_absent_sequenced _ _ Hs Hts) as Hseqs.
  pose proof (create_if_absent_sequenced _ _ Hr Htr) as Hseqr.
  assert (Forall (fun record => overflows (of_int (quantity record)) = false)
            (List.map enriched cleaned_data)) as Hq'
    by (apply Forall_map; exact Hq).
  exists ts, tr, tp.
  unfold load_data, and_then, create_tables, handed_over.
  cbn [xcom_sales_data xcom_region_aggregates xcom_product_aggregates].
  rewrite Hts, Htr, Htp. unfold load_sales_data.
  rewrite (load_sales_stores _ 0
             {| sales_data := Some ts; region_aggregates := Some tr;
                product_aggregates := Some tp |}
             ts Hq' eq_refl Hseqs).
  rewrite sales_row_enriched.
  unfold with_sales. cbn [sales_data region_aggregates product_aggregates].
  unfold load_region_aggregates.
  rewrite (load_regions_stores by_region 0
             {| sales_data := Some (appended ts (List.map enriched cleaned_data));
                region_aggregates := Some tr; product_aggregates := Some tp |}
             tr eq_refl Hseqr).
  2: { split; [rewrite (region_rows_keys _ _ Hbr); apply first_seen_NoDup |].
       intros row Hrow. apply Hfresh. rewrite <- Hcr. simpl.
       apply in_map. exact Hrow. }
  unfold with_regions. cbn [sales_data region_aggregates product_aggregates].
  unfold load_product_aggregates, delete_products.
  cbn [product_aggregates delete_all].
  change {| rows := []; next_id := next_id tp |} with (emptied tp).
  match goal with
  | |- context [load_loop insert_product by_product 0 ?d] =>
      rewrite (load_products_stores by_product 0 d (emptied tp) eq_refl
                 (sequenced_emptied tp))
  end.
  2: { split; [exact (product_rows_NoDup data _ Hbp) | intros row []]. }
  unfold with_products, query, lift.
  cbn [sales_data region_aggregates product_aggregates].
  match goal with
  | |- context [get_data_summary stored_sum ?d] =>
      destruct (get_data_summary_counts d _ _ _ eq_refl eq_refl eq_refl)
        as (summary & -> & H1 & H2 & H3 & _)
  end.
  exists summary. split; [reflexivity |]. split; [reflexivity |].
  split; [reflexivity |].
  rewrite H1, H2, H3. cbn [appended rows emptied].
  rewrite !length_app, !numbered_length, length_map. cbn [length app]. lia.
Qed.

Lemma create_if_absent_without_rows {R : Type} (t : option (table R)) t' :
  without_rows t -> create_if_absent t = Some t' -> rows t' = [].
Proof.
  destruct t as [t|]; simpl.
  - intros H [= <-]. exact H.
  - intros _ [= <-]. reflexivity.
Qed.

Lemma create_if_absent_contents {R : Type} (t : option (table R)) t' :
  create_if_absent t = Some t' -> List.map snd (rows t') = contents t.
Proof. destruct t as [t|]; simpl; intros [= <-]; reflexivity. Qed.
End PipelineFacts.

Lemma region_rows_nonempty {F : Type} {AF : Arith F} (data : list (sales_record F)) rows :
  aggregate_sales_by_region data = Ok rows -> data <> [] -> rows <> [].
Proof.
  intros H Hne Hnil. destruct data as [|r data]; [congruence |].
  pose proof (region_rows_keys _ _ H) as Hkeys. rewrite Hnil in Hkeys.
  assert (In (region r) (first_seen (List.map region (r :: data)))) as Hin
    by (apply first_seen_In; left; reflexivity).
  rewrite <- Hkeys in Hin. exact Hin.
Qed.

Lemma product_rows_length {F : Type} {AF : Arith F} (data : list (sales_record F)) rows :
  aggregate_sales_by_product data = Ok rows ->
  length rows = length (first_seen (List.map product_name data)).
Proof.
  intros H. rewrite (aggregate_sales_by_product_rows _ _ H).
  rewrite (Permutation_length (sort_reverse_Permutation _ _ _)).
  unfold product_rows. apply length_map.
Qed.

(** X19. On a storage whose ids came from the sequences and whose
    [region_aggregates] has none of the regions of the input, a run of the
    pipeline on records the cleaner accepts, and on which the enricher and
    the two aggregations return, ends with the summary.  The run adds the
    enriched records to [sales_data], in the order of the cleaned list, and
    the rows of the region aggregation to [region_aggregates], after the
    rows that were there; [product_aggregates] holds the rows of the product
    aggregation and nothing else.  The summary counts the rows: for the
    regions and the products added, the distinct regions and the distinct
    product names of the cleaned records. *)
Theorem X19_run_of_the_pipeline {libc : Strftime} (stored_sum : list float -> float)
    (raw_data : list raw_record)
    (cleaned_data enhanced_data : list (sales_record float))
    (by_region : list (region_aggregate float))
    (by_product : list (product_aggregate float)) (db : database float) :
  accepts db (List.map region cleaned_data) ->
  clean_sales_data raw_data = Ok cleaned_data ->
  add_calculated_fields cleaned_data = Ok enhanced_data ->
  aggregate_sales_by_region cleaned_data = Ok by_region ->
  aggregate_sales_by_product cleaned_data = Ok by_product ->
  exists summary db',
    run_etl_pipeline stored_sum raw_data db = (Ok summary, db')
    /\ contents (sales_data db') = contents (sales_data db) ++ enhanced_data
    /\ enhanced_data = List.map enriched cleaned_data
    /\ contents (region_aggregates db') = contents (region_aggregates db) ++ by_region
    /\ contents (product_aggregates db') = by_product
    /\ sales_records summary
       = Z.of_nat (length (contents (sales_data db)))
         + Z.of_nat (length cleaned_data)
    /\ regions summary
       = Z.of_nat (length (contents (region_aggregates db)))
         + Z.of_nat (length (first_seen (List.map region cleaned_data)))
    /\ products summary
       = Z.of_nat (length (first_seen (List.map product_name cleaned_data))).
Proof.
  intros Hdb Hclean He Hr Hp.
  rewrite run_etl_pipeline_tasks, (transform_data_returns _ _ _ _ _ Hclean He Hr Hp).
  assert (accepts db (List.map rg_region by_region)) as Hacc.
  { destruct Hdb as (Hs & Hg & Hfresh). split; [exact Hs |]. split; [exact Hg |].
    intros row Hrow Hin. apply (Hfresh row Hrow).
    rewrite (region_rows_keys _ _ Hr) in Hin. exact (proj1 (first_seen_In _ _) Hin). }
  pose proof (proj1 (add_calculated_fields_returns cleaned_data) (ex_intro _ _ He))
    as Hq.
  destruct (load_data_stores stored_sum cleaned_data cleaned_data _ _ db Hacc Hq Hr Hp)
    as (ts & tr & tp & summary & Hts & Htr & -> & H1 & H2 & H3).
  exists summary. eexists. split; [reflexivity |].
  cbn [sales_data region_aggregates product_aggregates contents appended rows emptied].
  rewrite !map_app, !numbered_values.
  rewrite (create_if_absent_contents _ _ Hts), (create_if_absent_contents _ _ Htr).
  rewrite (add_calculated_fields_rows _ _ He).
  split; [reflexivity |]. split; [reflexivity |]. split; [reflexivity |].
  split; [reflexivity |].
  rewrite <- (create_if_absent_contents _ _ Hts), <- (create_if_absent_contents _ _ Htr).
  rewrite !length_map. split; [exact H1 |]. split.
  - rewrite H2. f_equal. rewrite <- (region_rows_keys _ _ Hr). rewrite length_map.
    reflexivity.
  - rewrite H3. f_equal. exact (product_rows_length _ _ Hp).
Qed.

Lemma X19_witness :
  exists summary db',
    run_etl_pipeline (libc:=glibc) (fun amounts => fsum amounts)
      [sale_in_capitals; sale_without_quantity] no_tables
    = (Ok summary, db')
    /\ contents (sales_data db')
       = contents (sales_data no_tables)
         ++ List.map (enriched (libc:=glibc))
              [ mk_sale "Laptop" 1299.99%float "2024-01-15" "North" "CUST_1001" 2 ]
    /\ List.map (enriched (libc:=glibc))
         [ mk_sale "Laptop" 1299.99%float "2024-01-15" "North" "CUST_1001" 2 ]
       = List.map (enriched (libc:=glibc))
           [ mk_sale "Laptop" 1299.99%float "2024-01-15" "North" "CUST_1001" 2 ]
    /\ contents (region_aggregates db')
       = contents (region_aggregates no_tables)
         ++ region_rows
              [ mk_sale "Laptop" 1299.99%float "2024-01-15" "North" "CUST_1001" 2 ]
    /\ contents (product_aggregates db')
       = sort_reverse pd_total_revenue fltb
           (product_rows
              [ mk_sale "Laptop" 1299.99%float "2024-01-15" "North" "CUST_1001" 2 ])
    /\ sales_records summary
       = Z.of_nat (length (contents (sales_data no_tables))) + Z.of_nat 1
    /\ regions summary
       = Z.of_nat (length (contents (region_aggregates no_tables)))
         + Z.of_nat (length (first_seen ["North"]))
    /\ products summary = Z.of_nat (length (first_seen ["Laptop"])).
Proof.
  apply (X19_run_of_the_pipeline (libc:=glibc) (fun amounts => fsum amounts)
           [sale_in_capitals; sale_without_quantity]
           [ mk_sale "Laptop" 1299.99%float "2024-01-15" "North" "CUST_1001" 2 ]
           (List.map (enriched (libc:=glibc))
              [ mk_sale "Laptop" 1299.99%float "2024-01-15" "North" "CUST_1001" 2 ])
           (region_rows
              [ mk_sale "Laptop" 1299.99%float "2024-01-15" "North" "CUST_1001" 2 ])
           (sort_reverse pd_total_revenue fltb
              (product_rows
                 [ mk_sale "Laptop" 1299.99%float "2024-01-15" "North" "CUST_1001" 2 ]))
           no_tables).
  - repeat split. intros row [].
  - vm_compute. reflexivity.
  - vm_compute. reflexivity.
  - vm_compute. reflexivity.
  - vm_compute. reflexivity.
Defined.

(** X20. The pipeline cannot be run twice on the same records: when the
    first run ends with the summary, the second run stores the sales records
    again and then stops at [load_region_aggregates], which is called
    without [confirm_delete] and finds the first region in the table
    already.  The run raises the database's duplicate-key error; after it
    [sales_data] holds every record twice and the two aggregate tables hold
    the rows of the first run. *)
Theorem X20_second_run_of_the_pipeline {libc : Strftime}
    (stored_sum : list float -> float)
    (raw_data : list raw_record)
    (cleaned_data enhanced_data : list (sales_record float))
    (by_region : list (region_aggregate float))
    (by_product : list (product_aggregate float)) (db : database float) :
  pristine db ->
  clean_sales_data raw_data = Ok cleaned_data ->
  cleaned_data <> [] ->
  add_calculated_fields cleaned_data = Ok enhanced_data ->
  aggregate_sales_by_region cleaned_data = Ok by_region ->
  aggregate_sales_by_product cleaned_data = Ok by_product ->
  exists summary db1 db2,
    run_etl_pipeline stored_sum raw_data db = (Ok summary, db1)
    /\ run_etl_pipeline stored_sum raw_data db1 = (Raise duplicate_key, db2)
    /\ contents (sales_data db2) = enhanced_data ++ enhanced_data
    /\ contents (region_aggregates db2) = contents (region_aggregates db1)
    /\ contents (product_aggregates db2) = contents (product_aggregates db1).
Proof.
  intros Hdb Hclean Hne He Hr Hp.
  pose proof (proj1 (add_calculated_fields_returns cleaned_data) (ex_intro _ _ He))
    as Hq.
  assert (Forall (fun record => overflows (of_int (quantity record)) = false)
            (List.map enriched cleaned_data)) as Hq'
    by (apply Forall_map; exact Hq).
  rewrite !run_etl_pipeline_tasks, (transform_data_returns _ _ _ _ _ Hclean He Hr Hp).
  destruct (load_data_stores stored_sum cleaned_data cleaned_data _ _ db
              (pristine_accepts db _ Hdb) Hq Hr Hp)
    as (ts & tr & tp & summary & Hcs & Hcr & -> & _).
  pose proof (create_if_absent_without_rows _ _ (proj1 Hdb) Hcs) as Hts.
  pose proof (create_if_absent_without_rows _ _ (proj1 (proj2 Hdb)) Hcr) as Htr.
  clear Hcs Hcr.
  pose proof (region_rows_nonempty _ _ Hr Hne) as Hrows.
  rewrite (add_calculated_fields_rows _ _ He).
  destruct by_region as [|first_row more_rows] eqn:Hby; [congruence |].
  exists summary. eexists. eexists. split; [reflexivity |].
  rewrite run_etl_pipeline_tasks, (transform_data_returns _ _ _ _ _ Hclean He Hr Hp).
  unfold load_data, and_then, create_tables, handed_over.
  cbn [xcom_sales_data xcom_region_aggregates xcom_product_aggregates
         sales_data region_aggregates product_aggregates create_if_absent].
  unfold load_sales_data.
  match goal with
  | |- context [load_loop insert_sales ?d 0 ?s] =>
      rewrite (load_sales_stores d 0 s (appended ts (List.map enriched cleaned_data))
                 Hq' eq_refl
                 (sequenced_appended _ _ (sequenced_without_rows ts Hts)))
  end.
  rewrite sales_row_enriched.
  unfold with_sales. cbn [sales_data region_aggregates product_aggregates].
  unfold load_region_aggregates.
  assert (insertable (Some rg_region) [] (appended tr (first_row :: more_rows))) as Hins
    by (split; [constructor | intros row _ []]).
  assert ((exists row, In row (rows (appended tr (first_row :: more_rows)))
                       /\ rg_region (snd row) = rg_region first_row)
          \/ In (rg_region first_row)
                (List.map rg_region (@nil (region_aggregate float)))) as Hdup.
  { left. exists (next_id tr, first_row). split; [| reflexivity].
    cbn [appended rows numbered]. apply in_app_iff. right. left. reflexivity. }
  match goal with
  | |- context [load_loop insert_region _ 0 ?s] =>
      pose proof (load_regions_refused [] first_row more_rows 0 s
                    (appended tr (first_row :: more_rows)) eq_refl
                    (sequenced_appended _ _ (sequenced_without_rows tr Htr))
                    Hins Hdup) as E
  end.
  cbn [app] in E. rewrite E. split; [reflexivity |].
  cbn [contents sales_data region_aggregates product_aggregates with_regions
         refused appended rows].
  rewrite Hts, !app_nil_r. cbn [app]. rewrite !map_app, !numbered_values.
  repeat split.
Qed.

Lemma X20_witness :
  exists summary db1 db2,
    run_etl_pipeline (libc:=glibc) (fun amounts => fsum amounts)
      [sale_in_capitals; sale_without_quantity] no_tables
    = (Ok summary, db1)
    /\ run_etl_pipeline (libc:=glibc) (fun amounts => fsum amounts)
         [sale_in_capitals; sale_without_quantity] db1
       = (Raise duplicate_key, db2)
    /\ contents (sales_data db2)
       = List.map (enriched (libc:=glibc))
           [ mk_sale "Laptop" 1299.99%float "2024-01-15" "North" "CUST_1001" 2 ]
         ++ List.map (enriched (libc:=glibc))
              [ mk_sale "Laptop" 1299.99%float "2024-01-15" "North" "CUST_1001" 2 ]
    /\ contents (region_aggregates db2) = contents (region_aggregates db1)
    /\ contents (product_aggregates db2) = contents (product_aggregates db1).
Proof.
  apply (X20_second_run_of_the_pipeline (libc:=glibc) (fun amounts => fsum amounts)
           [sale_in_capitals; sale_without_quantity]
           [ mk_sale "Laptop" 1299.99%float "2024-01-15" "North" "CUST_1001" 2 ]
           (List.map (enriched (libc:=glibc))
              [ mk_sale "Laptop" 1299.99%float "2024-01-15" "North" "CUST_1001" 2 ])
           (region_rows
              [ mk_sale "Laptop" 1299.99%float "2024-01-15" "North" "CUST_1001" 2 ])
           (sort_reverse pd_total_revenue fltb
              (product_rows
                 [ mk_sale "Laptop" 1299.99%float "2024-01-15" "North" "CUST_1001" 2 ]))
           no_tables).
  - repeat split.
  - vm_compute. reflexivity.
  - discriminate.
  - vm_compute. reflexivity.
  - vm_compute. reflexivity.
  - vm_compute. reflexivity.
Defined.

(** X21. A run in which the cleaner keeps no record stores nothing and still
    deletes: [load_product_aggregates] is called with its default
    [confirm_delete=True], so the rows of [product_aggregates] are gone,
    while [sales_data] and [region_aggregates] keep theirs.  The run ends
    with the summary of that storage. *)
Theorem X21_run_without_valid_records {libc : Strftime}
    (stored_sum : list float -> float)
    (raw_data : list raw_record) (db : database float) :
  clean_sales_data raw_data = Ok [] ->
  exists db',
    run_etl_pipeline stored_sum raw_data db = (get_data_summary stored_sum db', db')
    /\ contents (sales_data db') = contents (sales_data db)
    /\ contents (region_aggregates db') = contents (region_aggregates db)
    /\ contents (product_aggregates db') = [].
Proof.
  intros Hclean.
  rewrite run_etl_pipeline_tasks,
    (transform_data_returns _ [] [] [] [] Hclean eq_refl eq_refl eq_refl).
  destruct (create_if_absent_rows (sales_data db)) as (ts & Hts & Hcs & _).
  destruct (create_if_absent_rows (region_aggregates db)) as (tr & Htr & Hcr & _).
  destruct (create_if_absent_rows (product_aggregates db)) as (tp & Htp & _ & _).
  unfold load_data, and_then, create_tables, handed_over, load_sales_data,
    load_region_aggregates, load_product_aggregates, delete_products, query, lift.
  cbn [xcom_sales_data xcom_region_aggregates xcom_product_aggregates List.map
         load_loop product_aggregates delete_all].
  rewrite Hts, Htr, Htp.
  cbn [sales_data region_aggregates product_aggregates load_loop].
  eexists. split.
  - destruct (get_data_summary stored_sum _) eqn:E; rewrite E; reflexivity.
  - cbn [sales_data region_aggregates product_aggregates]. rewrite <- Hcs, <- Hcr.
    repeat split.
Qed.

Lemma X21_witness :
  exists db',
    run_etl_pipeline (libc:=glibc) (fun amounts => fsum amounts) [sale_without_quantity]
      (with_products fresh_database
         (appended empty_table
            (sort_reverse pd_total_revenue fltb (product_rows ordered_sales))))
    = (get_data_summary (fun amounts => fsum amounts) db', db')
    /\ contents (sales_data db') = []
    /\ contents (region_aggregates db') = []
    /\ contents (product_aggregates db') = [].
Proof.
  apply (X21_run_without_valid_records (libc:=glibc) (fun amounts => fsum amounts)
           [sale_without_quantity]
           (with_products fresh_database
              (appended empty_table
                 (sort_reverse pd_total_revenue fltb (product_rows ordered_sales))))).
  vm_compute. reflexivity.
Defined.

(** X22. The script and the DAG agree: [run_etl_pipeline] on the extracted
    records is the task [transform_data] followed by the task [load_data],
    with the same result and the same storage.  The transform steps fail
    with an [OverflowError] only, of the cleaner, the enricher or an
    aggregation, and such a failure leaves the storage untouched; what they
    return is the enriched records of the cleaner and the aggregates of the
    cleaned records. *)
Theorem X22_script_and_tasks {libc : Strftime} (stored_sum : list float -> float)
    (raw_data : list raw_record) (db : database float) :
  run_etl_pipeline stored_sum raw_data db
  = match transform_data raw_data with
    | Ok transformed_data => load_data stored_sum transformed_data db
    | Raise e => (Raise e, db)
    end
  /\ (forall e, transform_data raw_data = Raise e ->
        run_etl_pipeline stored_sum raw_data db = (Raise e, db)
        /\ exists msg, e = OverflowError msg)
  /\ (forall transformed_data, transform_data raw_data = Ok transformed_data ->
        exists cleaned_data,
          clean_sales_data raw_data = Ok cleaned_data
          /\ xcom_sales_data transformed_data = List.map enriched cleaned_data
          /\ aggregate_sales_by_region cleaned_data
             = Ok (xcom_region_aggregates transformed_data)
          /\ aggregate_sales_by_product cleaned_data
             = Ok (xcom_product_aggregates transformed_data)).
Proof.
  split; [apply run_etl_pipeline_tasks |]. split.
  - intros e He. split; [| exact (transform_data_raises _ _ He)].
    rewrite run_etl_pipeline_tasks, He. reflexivity.
  - intros transformed_data Ht.
    destruct (transform_data_result _ _ Ht) as (cleaned & Hc & _ & Hs & Hr & Hp).
    exists cleaned. repeat split; assumption.
Qed.

(** ** Validation *)

Lemma zero_total_leb x :
  ((if x =? 0 then 0 else x) <=? 0)%float = (x <=? 0)%float.
Proof.
  destruct (x =? 0)%float eqn:E; [| reflexivity].
  rewrite eqb_rank in E. rewrite (leb_rank x).
  destruct (SFrank (Prim2SF x)), (SFrank (Prim2SF 0)); try discriminate.
  destruct (lex3 p p0); try discriminate. reflexivity.
Qed.

(** X23. The task [validate_data] reads and never writes.  After
    [load_data] it judges the summary [load_data] returned.  It succeeds
    exactly when each of the three tables has a row and the total of the
    stored amounts is not [<= 0]. *)
Theorem X23_validation_after_the_load (stored_sum : list float -> float) :
  (forall db, exists r, validate_task stored_sum db = (r, db))
  /\ (forall transformed_data db summary db',
        load_data stored_sum transformed_data db = (Ok summary, db') ->
        validate_task stored_sum db' = (validate_data summary, db'))
  /\ (forall db,
        validate_task stored_sum db = (Ok "Data validation successful", db)
        <-> contents (sales_data db) <> [] /\ contents (region_aggregates db) <> []
            /\ contents (product_aggregates db) <> []
            /\ (stored_sum (List.map sales_amount (contents (sales_data db))) <=? 0)%float
               = false).
Proof.
  split; [| split].
  - intros db. unfold validate_task, and_then, query, lift.
    destruct (get_data_summary stored_sum db); eexists; reflexivity.
  - intros t db summary db'. unfold load_data, and_then, query, lift.
    destruct (create_tables db) as [[[]|e] db1]; [| discriminate].
    destruct (load_sales_data _ db1) as [[n1|e] db2]; [| discriminate].
    destruct (load_region_aggregates _ false db2) as [[n2|e] db3]; [| discriminate].
    destruct (load_product_aggregates _ true db3) as [[n3|e] db4]; [| discriminate].
    destruct (get_data_summary stored_sum db4) as [s|e] eqn:Hs; [| discriminate].
    intros [= <- <-]. unfold validate_task, and_then, query, lift.
    rewrite Hs. reflexivity.
  - intros db. unfold validate_task, and_then, query, lift, get_data_summary.
    destruct (sales_data db) as [ts|];
      [| split; [discriminate | intros (H & _); contradiction]].
    destruct (region_aggregates db) as [tr|];
      [| split; [discriminate | intros (_ & H & _); contradiction]].
    destruct (product_aggregates db) as [tp|];
      [| split; [discriminate | intros (_ & _ & H & _); contradiction]].
    unfold validate_data. cbn [sales_records regions products total_revenue contents].
    rewrite map_map.
    destruct (rows ts) as [|s0 ss];
      [split; [discriminate | intros (H & _); contradiction] |].
    change (fleb ?a ?b) with (PrimFloat.leb a b). rewrite zero_total_leb.
    destruct (rows tr) as [|r0 rs], (rows tp) as [|p0 ps];
      destruct (stored_sum _ <=? 0)%float eqn:E; simpl;
      (split;
       [ intros H; try discriminate H; repeat split; discriminate
       | intros (_ & H1 & H2 & H3); try contradiction; try discriminate H3;
         reflexivity ]).
Qed.

(** ** Configuration *)

Lemma append_assoc (s t u : string) : (s +:+ t) +:+ u = s +:+ (t +:+ u).
Proof.
  induction s as [|c s IH]; [reflexivity |].
  change (String c ((s +:+ t) +:+ u) = String c (s +:+ (t +:+ u))).
  rewrite IH. reflexivity.
Qed.

Lemma lstrip_nil_iff space l :
  lstrip space l = [] <-> Forall (fun c => space c = true) l.
Proof.
  induction l as [|c l IH]; simpl.
  - split; [constructor | reflexivity].
  - destruct (space c) eqn:E.
    + rewrite IH. split; [intros H; constructor; assumption | intros H; inversion H; assumption].
    + split; [discriminate | intros H; inversion H; congruence].
Qed.

Lemma strip_chars_nil_iff space l :
  strip_chars space l = [] <-> Forall (fun c => space c = true) l.
Proof.
  rewrite <- lstrip_nil_iff. unfold strip_chars. split.
  - intros H. apply (f_equal (@rev ascii)) in H. rewrite rev_involutive in H. simpl in H.
    pose proof (proj1 (lstrip_fixed space (lstrip space l)) (lstrip_idem space l)) as Hm.
    destruct (lstrip space l) as [|c m]; [reflexivity |]. exfalso.
    simpl rev in H. destruct (lstrip_last space (rev m) c Hm) as [m' Hm'].
    rewrite Hm' in H. destruct m'; discriminate.
  - intros ->. reflexivity.
Qed.

(** [s.strip()] is empty exactly for a text of white space. *)
Lemma truthy_strip s : truthy (str_strip s) = false <-> whitespace s.
Proof.
  unfold whitespace, str_strip. rewrite <- strip_chars_nil_iff.
  destruct (strip_chars is_space (list_ascii_of_string s)); simpl; split;
    congruence.
Qed.

(** X24. [get_database_config] returns a configuration exactly when the text
    of [SUPABASE_PORT], or [5432] when it is unset, reads as an int, and
    [SUPABASE_HOST] and [SUPABASE_PASSWORD] are set to texts that are not
    white space only.  A port that does not read raises the error of [int]
    before the fields are validated; otherwise a missing or blank host or
    password raises the [ValueError] of the validation.  The configuration
    returned holds the variables, with [postgres] for an unset database
    name or user. *)
Theorem X24_get_database_config (env : environment) :
  (raises (get_database_config env) = false
   <-> (exists p, int_of_string (getenv env "SUPABASE_PORT" "5432") = Ok p)
       /\ (exists h, env !! "SUPABASE_HOST" = Some h /\ ~ whitespace h)
       /\ (exists w, env !! "SUPABASE_PASSWORD" = Some w /\ ~ whitespace w))
  /\ (forall e, int_of_string (getenv env "SUPABASE_PORT" "5432") = Raise e ->
        get_database_config env = Raise e)
  /\ (forall config, get_database_config env = Ok config ->
        env !! "SUPABASE_HOST" = Some (host config)
        /\ env !! "SUPABASE_PASSWORD" = Some (password config)
        /\ int_of_string (getenv env "SUPABASE_PORT" "5432") = Ok (port config)
        /\ dbname config = getenv env "SUPABASE_DBNAME" "postgres"
        /\ user config = getenv env "SUPABASE_USER" "postgres").
Proof.
  assert (forall o : option string,
             truthy (str_strip (default "" o)) = true
             <-> exists s, o = Some s /\ ~ whitespace s) as Hfield.
  { intros [s|]; simpl.
    - pose proof (truthy_strip s) as Hs. split.
      + intros H. exists s. split; [reflexivity |]. intros Hw.
        apply Hs in Hw. congruence.
      + intros (s' & [= <-] & H). destruct (truthy (str_strip s)); [reflexivity |].
        exfalso. apply H, Hs. reflexivity.
    - split; [discriminate | intros (s & H & _); discriminate]. }
  unfold get_database_config, from_env, getenv, validate.
  destruct (int_of_string (default "5432" (env !! "SUPABASE_PORT"))) as [p|e] eqn:Hp;
    cbn [bind forallb host password].
  - rewrite andb_true_r. split; [| split; [discriminate |]].
    + rewrite <- !Hfield.
      destruct (truthy (str_strip (default "" (env !! "SUPABASE_HOST")))),
        (truthy (str_strip (default "" (env !! "SUPABASE_PASSWORD")))); simpl;
        (split;
         [ intros H; try discriminate H; repeat split; eauto
         | intros (_ & H1 & H2); try discriminate H1; try discriminate H2;
           reflexivity ]).
    + intros config.
      destruct (truthy (str_strip (default "" (env !! "SUPABASE_HOST")))) eqn:Hh;
        [| discriminate].
      destruct (truthy (str_strip (default "" (env !! "SUPABASE_PASSWORD")))) eqn:Hw;
        [| discriminate].
      apply Hfield in Hh as (h & Hh & _). apply Hfield in Hw as (w & Hw & _).
      simpl. intros [= <-]. rewrite Hh, Hw. simpl. repeat split; reflexivity.
  - split; [| split; [intros e' [= <-]; reflexivity | discriminate]].
    simpl. split; [discriminate | intros ((p & Hp') & _); discriminate].
Qed.

(** X25. [connection_string] writes the fields as they are, without
    escaping: a colon can move between the user and the password, so two
    configurations that differ give the same string. *)
Theorem X25_connection_string_is_ambiguous (h d u p q : string) (n : Z) :
  connection_string {| host := h; port := n; dbname := d;
                       user := u +:+ ":" +:+ p; password := q |}
  = connection_string {| host := h; port := n; dbname := d;
                         user := u; password := p +:+ ":" +:+ q |}.
Proof.
  unfold connection_string. cbn [host port dbname user password].
  destruct (int_str n) as [port_text|e]; cbn [bind]; [| reflexivity].
  rewrite !append_assoc. reflexivity.
Qed.

(** ** Ints written and read back *)

Lemma uint_digits_range d : Forall (fun v => 0 <= v <= 9) (uint_digits d).
Proof. induction d; simpl; constructor; (lia || assumption). Qed.

Lemma string_of_uint_digits d :
  list_ascii_of_string (NilEmpty.string_of_uint d)
  = List.map digit_char (uint_digits d).
Proof. induction d; simpl; [reflexivity | rewrite IHd; reflexivity ..]. Qed.

Lemma digit_char_code v :
  0 <= v <= 9 ->
  is_digit (digit_char v) = true /\ digit_val (digit_char v) = v
  /\ (code (digit_char v) =? 95) = false /\ (code (digit_char v) =? 45) = false
  /\ (code (digit_char v) =? 43) = false /\ is_blank (digit_char v) = false.
Proof.
  intros Hv.
  assert (all_below 10
            (fun v => is_digit (digit_char v) && (digit_val (digit_char v) =? v)
                      && negb (code (digit_char v) =? 95)
                      && negb (code (digit_char v) =? 45)
                      && negb (code (digit_char v) =? 43)
                      && negb (is_blank (digit_char v))) = true) as H
    by (vm_compute; reflexivity).
  pose proof (all_below_spec _ _ H v ltac:(lia)) as Hd. cbv beta in Hd.
  apply andb_true_iff in Hd as [Hd H6]. apply andb_true_iff in Hd as [Hd H5].
  apply andb_true_iff in Hd as [Hd H4]. apply andb_true_iff in Hd as [Hd H3].
  apply andb_true_iff in Hd as [H1 H2].
  apply negb_true_iff in H3, H4, H5, H6. apply Z.eqb_eq in H2.
  repeat split; assumption.
Qed.

Lemma digitpart_digits (ds : list Z) :
  Forall (fun v => 0 <= v <= 9) ds ->
  digitpart (List.map digit_char ds) = (ds, []).
Proof.
  induction 1 as [|v ds Hv Hds IH]; [reflexivity |].
  cbn [List.map digitpart]. destruct (digit_char_code v Hv) as (-> & -> & _).
  destruct ds as [|u ds']; [reflexivity |].
  cbn [List.map] in *. rewrite IH.
  destruct ds' as [|w ds'']; [reflexivity |]. cbn [List.map].
  inversion Hds as [|? ? Hu _]; subst.
  destruct (digit_char_code u Hu) as (_ & _ & -> & _). reflexivity.
Qed.

Lemma digits_value_of_uint_acc d : forall acc,
  Zpos (Pos.of_uint_acc d acc)
  = fold_left (fun a v => 10 * a + v) (uint_digits d) (Zpos acc).
Proof.
  induction d; intros acc; simpl; [reflexivity | rewrite IHd; f_equal; lia ..].
Qed.

Lemma digits_value_of_uint d : digits_value (uint_digits d) = Z.of_uint d.
Proof.
  unfold digits_value, Z.of_uint.
  induction d; simpl; try exact IHd; try reflexivity;
    rewrite digits_value_of_uint_acc; reflexivity.
Qed.

Lemma lstrip_digits (ds : list Z) :
  Forall (fun v => 0 <= v <= 9) ds ->
  strip_chars is_blank (List.map digit_char ds) = List.map digit_char ds.
Proof.
  intros Hds.
  assert (forall l, Forall (fun v => 0 <= v <= 9) l ->
                    lstrip is_blank (List.map digit_char l) = List.map digit_char l) as Hl.
  { intros l Hl. apply lstrip_fixed. destruct Hl as [|v l Hv _]; [exact I |].
    exact (proj2 (proj2 (proj2 (proj2 (proj2 (digit_char_code v Hv)))))). }
  apply strip_chars_fixed; [apply Hl; exact Hds |].
  rewrite <- map_rev. apply Hl. apply Forall_rev. exact Hds.
Qed.

Lemma int_of_string_digits (ds : list Z) :
  Forall (fun v => 0 <= v <= 9) ds -> ds <> [] ->
  int_of_string (string_of_list_ascii (List.map digit_char ds))
  = (if int_max_str_digits <? Z.of_nat (length ds) then Raise digit_limit_error
     else Ok (digits_value ds))
  /\ int_of_string (String "-" (string_of_list_ascii (List.map digit_char ds)))
     = (if int_max_str_digits <? Z.of_nat (length ds) then Raise digit_limit_error
        else Ok (- digits_value ds)).
Proof.
  intros Hds Hne. unfold int_of_string. cbn [list_ascii_of_string].
  rewrite list_ascii_of_string_of_list_ascii. split.
  - rewrite (lstrip_digits ds Hds).
    destruct ds as [|v ds']; [congruence |]. cbn [List.map sign_of].
    inversion Hds as [|? ? Hv _]; subst.
    destruct (digit_char_code v Hv) as (_ & _ & _ & -> & -> & _).
    change (digit_char v :: List.map digit_char ds') with (List.map digit_char (v :: ds')).
    rewrite (digitpart_digits _ Hds). cbv beta iota zeta.
    destruct (int_max_str_digits <? _); reflexivity.
  - assert (strip_chars is_blank ("-"%char :: List.map digit_char ds)
            = "-"%char :: List.map digit_char ds) as ->.
    { apply strip_chars_fixed; [reflexivity |].
      apply lstrip_fixed. simpl rev.
      destruct (rev (List.map digit_char ds)) as [|c l] eqn:E.
      - simpl. reflexivity.
      - simpl.
        assert (In c (List.map digit_char ds)) as Hin
          by (apply in_rev; rewrite E; left; reflexivity).
        apply in_map_iff in Hin as [v [<- Hv]].
        rewrite List.Forall_forall in Hds.
        exact (proj2 (proj2 (proj2 (proj2 (proj2 (digit_char_code v (Hds v Hv))))))). }
    cbn [sign_of]. change (code "-" =? 45) with true. cbv iota.
    rewrite (digitpart_digits _ Hds).
    destruct ds as [|v ds']; [congruence |]. cbv beta iota zeta.
    destruct (int_max_str_digits <? _); reflexivity.
Qed.

Lemma length_string_of_list_ascii (l : list ascii) :
  String.length (string_of_list_ascii l) = length l.
Proof. induction l as [|c l IH]; simpl; [| rewrite IH]; reflexivity. Qed.

(** [int(str(n))] is [n], for an int within the limit on digits; the text
    of an int beyond it is refused. *)
Lemma int_of_string_str_of_int n :
  int_of_string (str_of_int n)
  = if int_max_str_digits <? ndigits (Z.abs n) then Raise digit_limit_error else Ok n.
Proof.
  assert (forall d, d <> Decimal.Nil ->
            NilZero.string_of_uint d
            = string_of_list_ascii (List.map digit_char (uint_digits d))) as Htext.
  { intros d Hd. rewrite <- string_of_uint_digits, string_of_list_ascii_of_string.
    destruct d; [congruence | reflexivity ..]. }
  assert (forall d, d <> Decimal.Nil ->
            int_of_string (NilZero.string_of_uint d)
            = (if int_max_str_digits <? Z.of_nat (String.length (NilZero.string_of_uint d))
               then Raise digit_limit_error else Ok (Z.of_uint d))
            /\ int_of_string (String "-" (NilZero.string_of_uint d))
               = (if int_max_str_digits
                       <? Z.of_nat (String.length (NilZero.string_of_uint d))
                  then Raise digit_limit_error else Ok (- Z.of_uint d)))
    as Huint.
  { intros d Hd. rewrite (Htext d Hd), length_string_of_list_ascii, length_map.
    rewrite <- digits_value_of_uint.
    apply int_of_string_digits; [apply uint_digits_range |].
    destruct d; [congruence | discriminate ..]. }
  destruct n as [|p|p].
  - vm_compute. reflexivity.
  - pose proof (DecimalPos.Unsigned.to_uint_nonnil p) as Hp.
    pose proof (DecimalZ.of_to (Zpos p)) as Hof.
    unfold ndigits, str_of_int. cbn [Z.abs Z.to_int NilZero.string_of_int Z.of_int] in *.
    rewrite (proj1 (Huint _ Hp)), Hof. reflexivity.
  - pose proof (DecimalPos.Unsigned.to_uint_nonnil p) as Hp.
    pose proof (DecimalZ.of_to (Zneg p)) as Hof.
    unfold ndigits, str_of_int. cbn [Z.abs Z.to_int NilZero.string_of_int Z.of_int] in *.
    rewrite (proj2 (Huint _ Hp)), Hof. reflexivity.
Qed.

(** What [str] writes, [int] reads back. *)
Lemma int_of_string_int_str n s : int_str n = Ok s -> int_of_string s = Ok n.
Proof.
  unfold int_str. intros H. pose proof (int_of_string_str_of_int n) as Hn.
  destruct (int_max_str_digits <? ndigits (Z.abs n)); [discriminate |].
  injection H as <-. exact Hn.
Qed.

Lemma env_of_lookup config :
  env_of config !! "SUPABASE_HOST" = Some (host config)
  /\ env_of config !! "SUPABASE_PORT" = Some (str_of_int (port config))
  /\ env_of config !! "SUPABASE_DBNAME" = Some (dbname config)
  /\ env_of config !! "SUPABASE_USER" = Some (user config)
  /\ env_of config !! "SUPABASE_PASSWORD" = Some (password config).
Proof. repeat split; vm_compute; reflexivity. Qed.

(** X26. A configuration written to the five variables, the port as its
    decimal text, is read back by [get_database_config] as it was, provided
    its host and its password are not white space only and the port has no
    more digits than the interpreter's limit of 4300; a port of more digits
    raises the [ValueError] of that limit.  For every int [n] that [str]
    writes, [int(str(n))] is [n]. *)
Theorem X26_configuration_round_trip (config : DatabaseConfig) :
  ~ whitespace (host config) ->
  ~ whitespace (password config) ->
  get_database_config (env_of config)
  = (if int_max_str_digits <? ndigits (Z.abs (port config))
     then Raise digit_limit_error else Ok config)
  /\ forall n s, int_str n = Ok s -> int_of_string s = Ok n.
Proof.
  intros Hh Hw. split; [| exact int_of_string_int_str].
  destruct (env_of_lookup config) as (L1 & L2 & L3 & L4 & L5).
  unfold get_database_config, from_env, getenv, validate.
  rewrite L1, L2, L3, L4, L5. cbn [default from_option id].
  rewrite int_of_string_str_of_int.
  destruct (int_max_str_digits <? ndigits (Z.abs (port config))); [reflexivity |].
  cbn [bind forallb host password].
  destruct (truthy (str_strip (host config))) eqn:E1.
  2: { exfalso. apply Hh, truthy_strip. exact E1. }
  destruct (truthy (str_strip (password config))) eqn:E2.
  2: { exfalso. apply Hw, truthy_strip. exact E2. }
  destruct config. reflexivity.
Qed.

Lemma X26_witness :
  get_database_config (env_of sample_config)
  = (if int_max_str_digits <? ndigits (Z.abs (port sample_config))
     then Raise digit_limit_error else Ok sample_config)
  /\ forall n s, int_str n = Ok s -> int_of_string s = Ok n.
Proof.
  apply (X26_configuration_round_trip sample_config).
  - intros H. inversion H as [|c l Hc _]. discriminate Hc.
  - intros H. inversion H as [|c l Hc _]. discriminate Hc.
Defined.
